(** * btclib: ECDSA, monetary amounts, TxOut and PSBT input maps

    A shallow embedding of [btclib/dsa.py], [btclib/amount.py],
    [btclib/tx_out.py] and [btclib/psbt_in.py].

    Python integers are [Z]; [bytes] values are lists of [Byte.byte];
    a function that may raise returns a [result], whose error carries the
    class of the exception and its message; a [dict] is an association list
    in insertion order.  The first part of the file holds the model, the
    second part the properties proved about it. *)

From Stdlib Require Import ZArith List String Ascii Lia Bool.
From Stdlib Require Import Morphisms Setoid.
From Stdlib Require Import Zdivisibility.
From Stdlib.Strings Require Import Byte.
From Stdlib Require Import SpecFloat.
Import ListNotations.

#[local] Open Scope Z_scope.

(* ================================================================== *)
(** * Part I: the model                                                *)
(* ================================================================== *)

(** ** Exceptions and results *)

(** The exception classes the embedded code raises or lets through. *)
Inductive exn_class : Set :=
| BTClibValueError
| BTClibRuntimeError
| BTClibTypeError
| AssertionError
| PyValueError
| PyTypeError
| PyIndexError
| PyOverflowError
| PyZeroDivisionError
| PyUnicodeError
| PyUnicodeEncodeError
| DecimalInvalidOperation
| DecimalOverflow.

Record exn : Set := Raise { exn_cls : exn_class; exn_msg : string }.

Inductive result (A : Type) : Type :=
| Ok (a : A)
| Err (e : exn).

Arguments Ok {A} a.
Arguments Err {A} e.

Definition bind {A B : Type} (r : result A) (k : A -> result B) : result B :=
  match r with
  | Ok a => k a
  | Err e => Err e
  end.

Notation "x <- r ;; k" := (bind r (fun x => k))
  (at level 61, r at next level, right associativity).
Notation "' p <- r ;; k" := (bind r (fun x => let p := x in k))
  (at level 61, p pattern, r at next level, right associativity).

Definition raise {A : Type} (c : exn_class) (msg : string) : result A :=
  Err (Raise c msg).

(** [assert cond, msg] *)
Definition assert (cond : bool) (msg : string) : result unit :=
  if cond then Ok tt else raise AssertionError msg.

Definition is_ok {A : Type} (r : result A) : bool :=
  match r with Ok _ => true | Err _ => false end.

Definition exn_class_eqb (c d : exn_class) : bool :=
  match c, d with
  | BTClibValueError, BTClibValueError
  | BTClibRuntimeError, BTClibRuntimeError
  | BTClibTypeError, BTClibTypeError
  | AssertionError, AssertionError
  | PyValueError, PyValueError
  | PyTypeError, PyTypeError
  | PyIndexError, PyIndexError
  | PyOverflowError, PyOverflowError
  | PyZeroDivisionError, PyZeroDivisionError
  | PyUnicodeError, PyUnicodeError
  | PyUnicodeEncodeError, PyUnicodeEncodeError
  | DecimalInvalidOperation, DecimalInvalidOperation
  | DecimalOverflow, DecimalOverflow => true
  | _, _ => false
  end.

(** [try: body except (c1, c2, ...): handler]: an exception of one of the
    listed classes is handled, any other goes on to the caller.  None of
    the classes a handler of the embedded code lists has a subclass among
    [exn_class], so membership is equality of classes. *)
Definition try_except {A : Type} (body : result A) (classes : list exn_class)
    (handler : result A) : result A :=
  match body with
  | Ok a => Ok a
  | Err e =>
      if existsb (exn_class_eqb (exn_cls e)) classes then handler else Err e
  end.

(** [try: body except Exception: handler]: every class of [exn_class]
    derives from [Exception], so the handler takes every error. *)
Definition try_except_Exception {A : Type} (body : result A)
    (handler : result A) : result A :=
  match body with
  | Ok a => Ok a
  | Err _ => handler
  end.

(** ** Bytes and integers *)

Definition bytes : Set := list byte.

Definition Z_of_byte (b : byte) : Z := Z.of_N (Byte.to_N b).

Definition byte_of_Z (z : Z) : byte :=
  match Byte.of_N (Z.to_N (z mod 256)) with
  | Some b => b
  | None => x00
  end.

(** [int.from_bytes(l, "little")] *)
Fixpoint int_from_bytes_le (l : bytes) : Z :=
  match l with
  | [] => 0
  | b :: t => Z_of_byte b + 256 * int_from_bytes_le t
  end.

(** [int.from_bytes(l, "big")] *)
Definition int_from_bytes_be (l : bytes) : Z := int_from_bytes_le (rev l).

Fixpoint le_digits (len : nat) (z : Z) : bytes :=
  match len with
  | O => []
  | S k => byte_of_Z z :: le_digits k (z / 256)
  end.

(** [z.to_bytes(len, "little")]: unsigned, [OverflowError] when [z] is
    negative or does not fit. *)
Definition to_bytes_le (len : nat) (z : Z) : result bytes :=
  if z <? 0 then raise PyOverflowError "can't convert negative int to unsigned"
  else if 256 ^ Z.of_nat len <=? z then raise PyOverflowError "int too big to convert"
  else Ok (le_digits len z).

Definition bytes_eqb (a b : bytes) : bool :=
  if list_eq_dec Byte.byte_eq_dec a b then true else false.

(** [stream.read(n)]: the bytes read (fewer than [n] at the end of the
    stream) and the rest of the stream. *)
Definition stream_read (n : nat) (s : bytes) : bytes * bytes :=
  (firstn n s, skipn n s).

(** ** Var-int and var-bytes *)

Module varint.

(** Modelled from the spec: [btclib/varint.py] is not part of the sources;
    section 4.I gives the format.  A value below 0xFD takes one byte, below
    0x10000 the byte 0xFD and a little-endian u16, below 0x1_0000_0000 the
    byte 0xFE and a little-endian u32, else 0xFF and a little-endian u64. *)
Definition encode (i : Z) : result bytes :=
  if i <? 0 then raise BTClibValueError "negative integer"
  else if i <? 0xFD then to_bytes_le 1 i
  else if i <? 0x10000 then
    b <- to_bytes_le 2 i ;; Ok (xfd :: b)
  else if i <? 0x100000000 then
    b <- to_bytes_le 4 i ;; Ok (xfe :: b)
  else if i <? 0x10000000000000000 then
    b <- to_bytes_le 8 i ;; Ok (xff :: b)
  else raise BTClibValueError "integer too big for varint encoding".

(** Modelled from the spec: the decoder of the same format; it reads the
    prefix byte, then the little-endian integer of the width the prefix
    gives, and fails when the stream ends early.  It returns the value and
    the rest of the stream. *)
Definition decode (s : bytes) : result (Z * bytes) :=
  match s with
  | [] => raise PyIndexError "index out of range"
  | b :: rest =>
      let i := Z_of_byte b in
      let wide (width : nat) :=
        let '(body, rest') := stream_read width rest in
        if (List.length body =? width)%nat then Ok (int_from_bytes_le body, rest')
        else raise BTClibValueError "not enough data" in
      if i =? 0xFD then wide 2%nat
      else if i =? 0xFE then wide 4%nat
      else if i =? 0xFF then wide 8%nat
      else Ok (i, rest)
  end.

End varint.

Module varbytes.

(** Modelled from the spec: [btclib/varbytes.py] is not part of the
    sources; a var-bytes value is a var-int length followed by the
    payload. *)
Definition encode (payload : bytes) : result bytes :=
  prefix <- varint.encode (Z.of_nat (List.length payload)) ;;
  Ok (prefix ++ payload).

(** Modelled from the spec: reads the var-int length, then that many bytes;
    fails when fewer are left.  Returns the payload and the rest of the
    stream. *)
Definition decode (s : bytes) : result (bytes * bytes) :=
  '(len, rest) <- varint.decode s ;;
  let '(payload, rest') := stream_read (Z.to_nat len) rest in
  if Z.of_nat (List.length payload) =? len then Ok (payload, rest')
  else raise BTClibValueError "not enough data".

End varbytes.

(** ** [btclib/tx_out.py] *)

Module TxOut.

Definition MAX_SATOSHI : Z := 2099999997690000.
Definition SAT_PER_COIN : Z := 100000000.

Record t : Set := mk {
  value : Z;            (* satoshis *)
  script_pubkey : bytes
}.

Definition assert_valid (self : t) : result unit :=
  if value self <? 0 then raise BTClibValueError "negative value"
  else if value self >? MAX_SATOSHI then raise BTClibValueError "value too high"
  else Ok tt.

Definition serialize (self : t) (check : bool) : result bytes :=
  _ <- (if check then assert_valid self else Ok tt) ;;
  out <- to_bytes_le 8 (value self) ;;
  spk <- varbytes.encode (script_pubkey self) ;;
  Ok (out ++ spk).

(** [data] is the content of the stream; what is left after the script is
    not looked at. *)
Definition deserialize (data : bytes) (check : bool) : result t :=
  let '(head, stream) := stream_read 8 data in
  let value := int_from_bytes_le head in
  '(script_pubkey, _) <- varbytes.decode stream ;;
  let tx_out := mk value script_pubkey in
  _ <- (if check then assert_valid tx_out else Ok tt) ;;
  Ok tx_out.

(** The stream of an output of 5000 satoshis with the script [51]. *)
Definition example_stream : bytes :=
  [x88; x13; x00; x00; x00; x00; x00; x00; x01; x51].

End TxOut.

(** ** Python's [decimal.Decimal], as far as [btclib/amount.py] uses it *)

Module decimal.

(** A [Decimal] is a sign, a coefficient [_int] (a string of digits in
    Python, here the natural number they spell) and an exponent [_exp], or
    one of the special values.  Sign and diagnostic digits of a NaN are left
    out: every operation of [amount.py] on a NaN raises. *)
Inductive Decimal : Set :=
| DFinite (sign : bool) (coeff : N) (exp : Z)
| DInf (sign : bool)
| DNaN (signaling : bool).

(** The default context, which [amount.py] leaves untouched but for the
    [FloatOperation] trap: 28 digits, ROUND_HALF_EVEN, exponents between
    -999999 and 999999, no clamping; [InvalidOperation], [DivisionByZero]
    and [Overflow] are trapped, that is raised. *)
Definition prec : Z := 28.
Definition Emax : Z := 999999.
Definition Emin : Z := -999999.
Definition Etiny : Z := Emin - prec + 1.
Definition Etop : Z := Emax - prec + 1.

Fixpoint ndigits_fuel (fuel : nat) (c : Z) : Z :=
  match fuel with
  | O => 1
  | S f => if c <? 10 then 1 else 1 + ndigits_fuel f (c / 10)
  end.

(** [len(str(c))] for [0 <= c] *)
Definition ndigits (c : Z) : Z := ndigits_fuel (Z.to_nat (Z.log2 c)) c.

(** The rounding of [Decimal._fix] (ROUND_HALF_EVEN): [c] loses its last
    [drop] digits; the result is the new coefficient. *)
Definition round_half_even (c drop : Z) : Z :=
  let unit := 10 ^ drop in
  let q := c / unit in
  let r := c mod unit in
  let half := 5 * 10 ^ (drop - 1) in
  if r >? half then q + 1
  else if (r =? half) && Z.odd q then q + 1
  else q.

(** [Decimal._fix(context)]: round to the precision and the exponent range
    of the context. *)
Definition _fix (d : Decimal) : result Decimal :=
  match d with
  | DFinite s cN e =>
      let c := Z.of_N cN in
      if c =? 0 then
        Ok (DFinite s 0 (Z.min (Z.max e Etiny) Emax))
      else
        let exp_min := ndigits c + e - prec in
        if exp_min >? Etop then raise DecimalOverflow "above Emax"
        else
          let exp_min := if exp_min <? Etiny then Etiny else exp_min in
          if e <? exp_min then
            let digits := ndigits c + e - exp_min in
            let '(c, digits) := if digits <? 0 then (1, 0) else (c, digits) in
            let coeff := round_half_even c (ndigits c - digits) in
            let '(coeff, exp_min) :=
              if ndigits coeff >? prec then (coeff / 10, exp_min + 1)
              else (coeff, exp_min) in
            if exp_min >? Etop then raise DecimalOverflow "above Emax"
            else Ok (DFinite s (Z.to_N coeff) exp_min)
          else Ok d
  | _ => Ok d
  end.

(** [Decimal(i)] for a Python [int] *)
Definition of_int (i : Z) : Decimal := DFinite (i <? 0) (Z.to_N (Z.abs i)) 0.

(** [abs(d)] *)
Definition abs (d : Decimal) : result Decimal :=
  match d with
  | DNaN true => raise DecimalInvalidOperation "sNaN"
  | DNaN false => Ok d
  | DInf _ => Ok (DInf false)
  | DFinite _ c e => _fix (DFinite false c e)
  end.

(** [a * b] *)
Definition mul (a b : Decimal) : result Decimal :=
  match a, b with
  | DNaN true, _ | DFinite _ _ _, DNaN true | DInf _, DNaN true
  | DNaN false, DNaN true =>
      raise DecimalInvalidOperation "sNaN"
  | DNaN false, _ => Ok (DNaN false)
  | _, DNaN false => Ok (DNaN false)
  | DInf sa, DInf sb => Ok (DInf (xorb sa sb))
  | DInf sa, DFinite sb c _ | DFinite sb c _, DInf sa =>
      if (c =? 0)%N then raise DecimalInvalidOperation "(+-)INF * 0"
      else Ok (DInf (xorb sa sb))
  | DFinite sa ca ea, DFinite sb cb eb =>
      _fix (DFinite (xorb sa sb) (ca * cb) (ea + eb))
  end.

Definition signed (s : bool) (c : Z) : Z := if s then - c else c.

(** The exact comparison of two finite values ([Decimal._cmp]). *)
Definition cmp_finite (sa : bool) (ca : N) (ea : Z) (sb : bool) (cb : N) (eb : Z)
    : comparison :=
  let m := Z.min ea eb in
  Z.compare (signed sa (Z.of_N ca * 10 ^ (ea - m)))
            (signed sb (Z.of_N cb * 10 ^ (eb - m))).

Definition _cmp (a b : Decimal) : comparison :=
  match a, b with
  | DFinite sa ca ea, DFinite sb cb eb => cmp_finite sa ca ea sb cb eb
  | DInf sa, DInf sb => Z.compare (signed sa 1) (signed sb 1)
  | DInf sa, _ => if sa then Lt else Gt
  | _, DInf sb => if sb then Gt else Lt
  | _, _ => Eq
  end.

Definition is_nan (d : Decimal) : bool :=
  match d with DNaN _ => true | _ => false end.

(** [a > b]: an ordering comparison that involves a NaN signals
    [InvalidOperation]. *)
Definition gt (a b : Decimal) : result bool :=
  if is_nan a || is_nan b then
    raise DecimalInvalidOperation "comparison involving NaN"
  else Ok (match _cmp a b with Gt => true | _ => false end).

(** [a == b]: false when a quiet NaN is involved, [InvalidOperation] for a
    signaling one. *)
Definition eq (a b : Decimal) : result bool :=
  match a, b with
  | DNaN true, _ | _, DNaN true =>
      raise DecimalInvalidOperation "comparison involving sNaN"
  | DNaN false, _ | _, DNaN false => Ok false
  | _, _ => Ok (match _cmp a b with Eq => true | _ => false end)
  end.

(** [int(d)]: truncation towards zero *)
Definition to_int (d : Decimal) : result Z :=
  match d with
  | DNaN _ => raise PyValueError "cannot convert NaN to integer"
  | DInf _ => raise PyOverflowError "cannot convert Infinity to integer"
  | DFinite s c e =>
      if 0 <=? e then Ok (signed s (Z.of_N c * 10 ^ e))
      else Ok (signed s (Z.of_N c / 10 ^ (- e)))
  end.

Fixpoint strip_zeros (fuel : nat) (c e : Z) : Z * Z :=
  match fuel with
  | O => (c, e)
  | S f =>
      if (c mod 10 =? 0) && (e <? Emax) then strip_zeros f (c / 10) (e + 1)
      else (c, e)
  end.

(** [d.normalize()] *)
Definition normalize (d : Decimal) : result Decimal :=
  match d with
  | DNaN true => raise DecimalInvalidOperation "sNaN"
  | DNaN false => Ok d
  | _ =>
      dup <- _fix d ;;
      match dup with
      | DFinite s cN e =>
          let c := Z.of_N cN in
          if c =? 0 then Ok (DFinite s 0 0)
          else
            let '(c', e') := strip_zeros (Z.to_nat (ndigits c)) c e in
            Ok (DFinite s (Z.to_N c') e')
      | _ => Ok dup
      end
  end.

(** *** [Decimal(s)] for a string *)

Definition is_digit (a : ascii) : bool :=
  let n := N_of_ascii a in ((48 <=? n) && (n <=? 57))%N.

Definition digit_value (a : ascii) : Z := Z.of_N (N_of_ascii a) - 48.

Definition is_space (a : ascii) : bool :=
  let n := N_of_ascii a in (((9 <=? n) && (n <=? 13)) || (n =? 32))%N.

Definition lower (a : ascii) : ascii :=
  let n := N_of_ascii a in
  if ((65 <=? n) && (n <=? 90))%N then ascii_of_N (n + 32) else a.

Fixpoint drop_while (f : ascii -> bool) (l : list ascii) : list ascii :=
  match l with
  | a :: t => if f a then drop_while f t else l
  | [] => []
  end.

Fixpoint take_while (f : ascii -> bool) (l : list ascii) : list ascii :=
  match l with
  | a :: t => if f a then a :: take_while f t else []
  | [] => []
  end.

(** [s.strip()] *)
Definition strip (l : list ascii) : list ascii :=
  rev (drop_while is_space (rev (drop_while is_space l))).

(** [int(digits)] for a string of digits ([0] for the empty one) *)
Definition int_of_digits (l : list ascii) : Z :=
  fold_left (fun acc a => 10 * acc + digit_value a) l 0.

Definition ascii_list_eqb (a b : list ascii) : bool :=
  if list_eq_dec ascii_dec a b then true else false.

Definition parse_sign (l : list ascii) : bool * list ascii :=
  match l with
  | "-"%char :: t => (true, t)
  | "+"%char :: t => (false, t)
  | _ => (false, l)
  end.

(** The exponent part: empty, or [E], an optional sign and one digit at
    least; nothing may follow. *)
Definition parse_exponent (l : list ascii) : option Z :=
  match l with
  | [] => Some 0
  | e :: t =>
      if ascii_list_eqb [lower e] ["e"%char] then
        let '(s, ds) := parse_sign t in
        if forallb is_digit ds && negb (ascii_list_eqb ds []) then
          Some (signed s (int_of_digits ds))
        else None
      else None
  end.

Definition invalid_literal {A : Type} : result A :=
  raise DecimalInvalidOperation "invalid literal for Decimal".

(** [Decimal(s)]: the numeric strings of the [decimal] module, with ASCII
    digits and white space.  The string is stripped, its underscores are
    removed, and it must then be a sign, digits with an optional point and an
    optional exponent, or an infinity or NaN.  The construction is exact: it
    does not round to the context. *)
Definition of_string (s : string) : result Decimal :=
  let l := filter (fun a => negb (ascii_list_eqb [a] ["_"%char]))
                  (strip (list_ascii_of_string s)) in
  let '(sign, body) := parse_sign l in
  let low := map lower body in
  if ascii_list_eqb low (list_ascii_of_string "inf")
     || ascii_list_eqb low (list_ascii_of_string "infinity")
  then Ok (DInf sign)
  else if ascii_list_eqb (firstn 3 low) (list_ascii_of_string "nan")
          && forallb is_digit (skipn 3 low)
  then Ok (DNaN false)
  else if ascii_list_eqb (firstn 4 low) (list_ascii_of_string "snan")
          && forallb is_digit (skipn 4 low)
  then Ok (DNaN true)
  else
    let intpart := take_while is_digit body in
    let rest := drop_while is_digit body in
    let '(fracpart, rest) :=
      match rest with
      | "."%char :: t => (take_while is_digit t, drop_while is_digit t)
      | _ => ([], rest)
      end in
    if ascii_list_eqb (intpart ++ fracpart) [] then invalid_literal
    else
      match parse_exponent rest with
      | None => invalid_literal
      | Some exp =>
          Ok (DFinite sign (Z.to_N (int_of_digits (intpart ++ fracpart)))
                (exp - Z.of_nat (List.length fracpart)))
      end.

End decimal.

(** ** Python's [float] and [str] *)

Module pyfloat.

(** A Python [float] is an IEEE-754 binary64 value; the standard library's
    [spec_float] with 53 bits of precision and the exponent bound 1024. *)
Definition float : Set := spec_float.

Definition of_Z (z : Z) : spec_float :=
  match z with
  | Z0 => S754_zero false
  | Zpos p => S754_finite false p 0
  | Zneg p => S754_finite true p 0
  end.

(** The double nearest to [a / b] (ties to even) for integers [a] and [b],
    [b] not zero: the quotient is rounded once. *)
Definition nearest_ratio (a b : Z) : spec_float :=
  SFdiv 53 1024 (of_Z a) (of_Z b).

(** [a / b] for two Python [int]s: the true division, correctly rounded. *)
Definition int_truediv (a b : Z) : result spec_float :=
  if b =? 0 then raise PyZeroDivisionError "division by zero"
  else
    match nearest_ratio a b with
    | S754_infinity _ =>
        raise PyOverflowError "integer division result too large for a float"
    | f => Ok f
    end.

(** [i > f] for an [int] and a [float]: Python compares the two values
    exactly, without converting the integer to a float. *)
Definition int_gt (i : Z) (f : spec_float) : bool :=
  match f with
  | S754_nan => false
  | S754_infinity s => s
  | S754_zero _ => i >? 0
  | S754_finite s m e =>
      let v := if s then Zneg m else Zpos m in
      if 0 <=? e then i >? v * 2 ^ e else i * 2 ^ (- e) >? v
  end.

Definition float_eqb (f g : spec_float) : bool :=
  match f, g with
  | S754_finite s m e, S754_finite s' m' e' =>
      Bool.eqb s s' && Pos.eqb m m' && Z.eqb e e'
  | S754_zero s, S754_zero s' => Bool.eqb s s'
  | S754_infinity s, S754_infinity s' => Bool.eqb s s'
  | S754_nan, S754_nan => true
  | _, _ => false
  end.

(** *** [repr(f)]: the shortest string that reads back as [f] *)

Definition digit_char (d : Z) : ascii := ascii_of_N (Z.to_N (48 + d)).

Fixpoint digits_fuel (fuel : nat) (c : Z) (acc : list ascii) : list ascii :=
  match fuel with
  | O => acc
  | S f =>
      let acc' := digit_char (c mod 10) :: acc in
      if c <? 10 then acc' else digits_fuel f (c / 10) acc'
  end.

(** [str(c)] for [0 <= c] *)
Definition digits_of (c : Z) : list ascii :=
  digits_fuel (S (Z.to_nat (Z.log2 c))) c [].

(** The double nearest to [d * 10^q] *)
Definition of_decimal (d q : Z) : spec_float :=
  if 0 <=? q then nearest_ratio (d * 10 ^ q) 1 else nearest_ratio d (10 ^ (- q)).

(** The position of the decimal point of [num/den]: the [k] with
    [10^(k-1) <= num/den < 10^k]. *)
Definition decimal_point (num den : Z) : Z :=
  if den <=? num then decimal.ndigits (num / den)
  else 1 - decimal.ndigits (den / num).

(** The decimals with [nd] digits next to [num/den], below and above, that
    read back as [x]; of two, the nearer one (the even one on a tie). *)
Definition candidate (x : spec_float) (num den decpt nd : Z) : option (Z * Z) :=
  let q := decpt - nd in
  let '(n, d) := if 0 <=? q then (num, den * 10 ^ q) else (num * 10 ^ (- q), den) in
  let lo := n / d in
  let r := n mod d in
  let hi := lo + 1 in
  let lo_ok := float_eqb (of_decimal lo q) x in
  let hi_ok := negb (r =? 0) && float_eqb (of_decimal hi q) x in
  match lo_ok, hi_ok with
  | true, true =>
      if 2 * r <? d then Some (lo, q)
      else if d <? 2 * r then Some (hi, q)
      else if Z.even lo then Some (lo, q) else Some (hi, q)
  | true, false => Some (lo, q)
  | false, true => Some (hi, q)
  | false, false => None
  end.

Fixpoint shortest_from (fuel : nat) (x : spec_float) (num den decpt nd : Z)
    : Z * Z :=
  match fuel with
  | O => (num / den, 0)
  | S f =>
      match candidate x num den decpt nd with
      | Some r => r
      | None => shortest_from f x num den decpt (nd + 1)
      end
  end.

Fixpoint strip_zeros (fuel : nat) (d q : Z) : Z * Z :=
  match fuel with
  | O => (d, q)
  | S f => if (d mod 10 =? 0) && (0 <? d) then strip_zeros f (d / 10) (q + 1)
           else (d, q)
  end.

(** The digits of the shortest decimal that rounds to the finite, non-zero
    [m * 2^e], and the position of its decimal point: the value is
    [0.digits * 10^decpt].  Seventeen digits always suffice. *)
Definition shortest_digits (m : positive) (e : Z) : Z * Z :=
  let x := S754_finite false m e in
  let '(num, den) := if 0 <=? e then (Zpos m * 2 ^ e, 1) else (Zpos m, 2 ^ (- e)) in
  let decpt := decimal_point num den in
  let '(d, q) := shortest_from 17 x num den decpt 1 in
  let '(d, q) := strip_zeros 17 d q in
  (d, decimal.ndigits d + q).

Fixpoint zeros (n : nat) : list ascii :=
  match n with O => [] | S k => "0"%char :: zeros k end.

(** The layout of [repr]: exponent notation when the decimal point falls
    left of the fourth zero after the point or right of the sixteenth digit,
    [.0] after an integral value otherwise. *)
Definition format_repr (d decpt : Z) : list ascii :=
  let ds := digits_of d in
  let n := Z.of_nat (List.length ds) in
  if (decpt <=? -4) || (16 <? decpt) then
    let e := decpt - 1 in
    let mant :=
      match ds with
      | [a] => [a]
      | a :: t => a :: "."%char :: t
      | [] => []
      end in
    let ed := digits_of (Z.abs e) in
    let ed := if Z.abs e <? 10 then "0"%char :: ed else ed in
    mant ++ ["e"%char; if e <? 0 then "-"%char else "+"%char] ++ ed
  else if decpt <=? 0 then
    ["0"%char; "."%char] ++ zeros (Z.to_nat (- decpt)) ++ ds
  else if decpt <? n then
    firstn (Z.to_nat decpt) ds ++ ["."%char] ++ skipn (Z.to_nat decpt) ds
  else
    ds ++ zeros (Z.to_nat (decpt - n)) ++ [ "."%char; "0"%char ].

(** [repr(f)], which is [str(f)] *)
Definition repr (f : spec_float) : string :=
  match f with
  | S754_nan => "nan"
  | S754_infinity s => if s then "-inf" else "inf"
  | S754_zero s => if s then "-0.0" else "0.0"
  | S754_finite s m e =>
      let '(d, decpt) := shortest_digits m e in
      string_of_list_ascii
        ((if s then ["-"%char] else []) ++ format_repr d decpt)
  end.

End pyfloat.

(** ** [btclib/amount.py] *)

Module amount.
Import decimal.

Definition _SATOSHI_PER_BITCOIN : Z := 100000000.
(** [decimal.Decimal("0.00000001")] *)
Definition _BITCOIN_PER_SATOSHI : Decimal := DFinite false 1 (-8).

Definition MAX_SATOSHI : Z := 2099999997690000.
(** [decimal.Decimal("20_999_999.9769")] *)
Definition MAX_BITCOIN : Decimal := DFinite false 209999999769 (-4).

(** The argument of [sats_from_btc] is typed [Any]; these are the values it
    is documented and tested with. *)
Inductive Any : Set :=
| AStr (s : string)
| AInt (i : Z)
| ADecimal (d : Decimal)
| AFloat (f : pyfloat.float).

(** [Decimal.__str__]: the scientific string of a decimal *)
Definition decimal_str (d : Decimal) : string :=
  match d with
  | DInf s => if s then "-Infinity" else "Infinity"
  | DNaN s => if s then "sNaN" else "NaN"
  | DFinite s c e =>
      let ds := pyfloat.digits_of (Z.of_N c) in
      let n := Z.of_nat (List.length ds) in
      let leftdigits := e + n in
      let dotplace := if (e <=? 0) && (-6 <? leftdigits) then leftdigits else 1 in
      let body :=
        if dotplace <=? 0 then
          ["0"%char; "."%char] ++ pyfloat.zeros (Z.to_nat (- dotplace)) ++ ds
        else if n <=? dotplace then
          ds ++ pyfloat.zeros (Z.to_nat (dotplace - n))
        else
          firstn (Z.to_nat dotplace) ds ++ ["."%char] ++ skipn (Z.to_nat dotplace) ds in
      let x := leftdigits - dotplace in
      let exp :=
        if x =? 0 then []
        else ["E"%char; if x <? 0 then "-"%char else "+"%char]
               ++ pyfloat.digits_of (Z.abs x) in
      string_of_list_ascii ((if s then ["-"%char] else []) ++ body ++ exp)
  end.

(** [str(amount)] *)
Definition py_str (amount : Any) : string :=
  match amount with
  | AStr s => s
  | AInt i =>
      string_of_list_ascii
        ((if i <? 0 then ["-"%char] else []) ++ pyfloat.digits_of (Z.abs i))
  | ADecimal d => decimal_str d
  | AFloat f => pyfloat.repr f
  end.

Definition sats_from_btc (amount : Any) : result Z :=
  (* any input that can be converted to str is fine *)
  let amount := py_str amount in
  btc <- of_string amount ;;
  a <- abs btc ;;
  too_big <- gt a MAX_BITCOIN ;;
  if too_big then raise BTClibValueError "invalid BTC amount"
  else
    sats <- mul btc (of_int _SATOSHI_PER_BITCOIN) ;;
    i <- to_int sats ;;
    same <- eq (of_int i) sats ;;
    if same then to_int sats
    else raise BTClibValueError "too many decimals for a BTC amount".

(** [sats] is an [int]: the test [int(sats) != sats], which rejects other
    numbers that are not integral, is then false. *)
Definition btc_from_sats (sats : Z) : result Decimal :=
  if Z.abs sats >? MAX_SATOSHI then raise BTClibValueError "invalid satoshi amount"
  else
    (* normalize() strips the rightmost trailing zeros *)
    p <- mul (of_int sats) _BITCOIN_PER_SATOSHI ;;
    normalize p.

(** *** Vocabulary of the properties *)

(** [scaled C a K]: the integer [K] is [C * 10^a], for an exponent [a] of
    either sign. *)
Definition scaled (C a K : Z) : Prop :=
  (0 <= a /\ K = C * 10 ^ a) \/ (a < 0 /\ C = K * 10 ^ (- a)).

(** The number of satoshis a decimal stands for, when it has no more than
    eight fractional digits: [x * 10^8] if that is an integer. *)
Definition exact_sats (d : Decimal) : option Z :=
  match d with
  | DFinite s c e =>
      if 0 <=? e + 8 then Some (signed s (Z.of_N c * 10 ^ (e + 8)))
      else if Z.of_N c mod 10 ^ (- (e + 8)) =? 0
           then Some (signed s (Z.of_N c / 10 ^ (- (e + 8))))
           else None
  | _ => None
  end.

(** A decimal in the form [normalize] leaves it in: no trailing zero in the
    coefficient, and exponent 0 for a zero. *)
Definition stripped (d : Decimal) : bool :=
  match d with
  | DFinite _ c e =>
      if (c =? 0)%N then e =? 0 else negb (Z.of_N c mod 10 =? 0)
  | _ => true
  end.

(** *** Example values *)

(** The float of the literal [1.1]: the double nearest to 11/10. *)
Definition float_1_1 : pyfloat.float := S754_finite false 4953959590107546 (-52).

(** The float of [1.1 + 2.2], which is not that of [3.3]. *)
Definition float_3_3_sum : pyfloat.float :=
  S754_finite false 7430939385161319 (-51).

End amount.

(** ** Number theory and curve arithmetic *)

Module numbertheory.

(** One step of Euclid's algorithm on the remainders [r0], [r1], with the
    coefficients [s0], [s1] of the first argument. *)
Definition xgcd_step (st : Z * Z * Z * Z) : Z * Z * Z * Z :=
  let '(r0, r1, s0, s1) := st in
  if r1 =? 0 then st
  else
    let (q, r) := Z.div_eucl r0 r1 in
    (r1, r, s1, s0 - q * s1).

(** The second remainder, which is 0 when the algorithm is done. *)
Definition rem1 (st : Z * Z * Z * Z) : Z := snd (fst (fst st)).

(** The loop [while r1: ...], at most [2^n] rounds of it. *)
Fixpoint xgcd_loop (n : nat) (st : Z * Z * Z * Z) : Z * Z * Z * Z :=
  match n with
  | O => xgcd_step st
  | S k =>
      let st' := xgcd_loop k st in
      if rem1 st' =? 0 then st' else xgcd_loop k st'
  end.

(** Modelled from the spec: [btclib/numbertheory.py] is not part of the
    sources.  Section 4.A: [mod_inv(a, m)] returns the inverse of [a] modulo
    [m], by the extended Euclidean algorithm, and fails if [gcd(a, m)] is
    not 1; section 7 makes the failure a runtime error. *)
Definition mod_inv (a m : Z) : result Z :=
  if m <=? 0 then raise BTClibValueError "modulus must be positive"
  else
    let '(g, _, s, _) :=
      xgcd_loop (S (Z.to_nat (Z.log2 m))) (m, a mod m, 0, 1) in
    if g =? 1 then Ok (s mod m)
    else raise BTClibRuntimeError "no inverse".

Fixpoint pow_mod_pos (b : Z) (e : positive) (m : Z) : Z :=
  match e with
  | xH => b mod m
  | xO e' => let h := pow_mod_pos b e' m in (h * h) mod m
  | xI e' => let h := pow_mod_pos b e' m in (h * h * b) mod m
  end.

(** [pow(b, e, m)] for [0 <= e] *)
Definition pow_mod (b e m : Z) : Z :=
  match e with
  | Zpos e' => pow_mod_pos b e' m
  | _ => 1 mod m
  end.

Fixpoint first_root (fuel : nat) (y a p : Z) : option Z :=
  match fuel with
  | O => None
  | S f => if (y * y) mod p =? a mod p then Some y else first_root f (y + 1) a p
  end.

(** Modelled from the spec: section 4.A, [mod_sqrt(a, p)] returns a square
    root of [a] modulo the prime [p] if one exists and fails otherwise.  For
    [p = 3 (mod 4)] it is [a^((p+1)/4)]; for the other primes the model
    takes the least root, where the code runs Tonelli-Shanks (which of the
    two roots comes out does not matter to [y_even]). *)
Definition mod_sqrt (a p : Z) : result Z :=
  if p mod 4 =? 3 then
    let r := pow_mod a ((p + 1) / 4) p in
    if (r * r) mod p =? a mod p then Ok r
    else raise BTClibValueError "no root"
  else
    match first_root (Z.to_nat p) 0 a p with
    | Some r => Ok r
    | None => raise BTClibValueError "no root"
    end.

(** What Euclid's algorithm keeps true, for the inverse of [a] modulo [m]:
    the remainders have the gcd of [a] and [m], and each is its coefficient
    times [a], modulo [m]. *)
Definition xgcd_inv (a m : Z) (st : Z * Z * Z * Z) : Prop :=
  let '(r0, r1, s0, s1) := st in
  0 <= r0 /\ 0 <= r1 /\ Z.gcd r0 r1 = Z.gcd a m /\
  (s0 * a) mod m = r0 mod m /\ (s1 * a) mod m = r1 mod m.

End numbertheory.

Module curve.
Import numbertheory.

(** The parameters of a curve [y^2 = x^3 + a*x + b] over the field of [p]
    elements, with the generator [G] of order [n]. *)
Record Curve : Set := mk {
  p : Z;
  a : Z;
  b : Z;
  Gx : Z;
  Gy : Z;
  n : Z;
  cofactor : Z
}.

(** The bit length of [n] *)
Definition nlen (ec : Curve) : Z := Z.log2 (n ec) + 1.

Definition Point : Set := Z * Z.
Definition JacPoint : Set := Z * Z * Z.

(** The point at infinity in Jacobian coordinates: any triple with [Z = 0] *)
Definition INFJ : JacPoint := (7, 0, 0).

Definition GJ (ec : Curve) : JacPoint := (Gx ec, Gy ec, 1).

(** The inverse in the field; 0 has none and is sent to 0. *)
Definition finv (ec : Curve) (x : Z) : Z :=
  match mod_inv x (p ec) with
  | Ok v => v
  | Err _ => 0
  end.

(** The group law in Jacobian coordinates: [(X, Y, Z)] stands for the
    affine point [(X / Z^2, Y / Z^3)], and for infinity when [Z = 0]. *)
Definition jac_double (ec : Curve) (P : JacPoint) : JacPoint :=
  let '(X, Y, Zc) := P in
  let m := p ec in
  if (Zc mod m =? 0) || (Y mod m =? 0) then INFJ
  else
    let YY := (Y * Y) mod m in
    let S := (4 * X * YY) mod m in
    let ZZ := (Zc * Zc) mod m in
    let M := (3 * X * X + a ec * ZZ * ZZ) mod m in
    let X3 := (M * M - 2 * S) mod m in
    let Y3 := (M * (S - X3) - 8 * YY * YY) mod m in
    let Z3 := (2 * Y * Zc) mod m in
    (X3, Y3, Z3).

Definition jac_add (ec : Curve) (P Q : JacPoint) : JacPoint :=
  let '(X1, Y1, Z1) := P in
  let '(X2, Y2, Z2) := Q in
  let m := p ec in
  if Z1 mod m =? 0 then Q
  else if Z2 mod m =? 0 then P
  else
    let Z1Z1 := (Z1 * Z1) mod m in
    let Z2Z2 := (Z2 * Z2) mod m in
    let U1 := (X1 * Z2Z2) mod m in
    let U2 := (X2 * Z1Z1) mod m in
    let S1 := (Y1 * Z2 * Z2Z2) mod m in
    let S2 := (Y2 * Z1 * Z1Z1) mod m in
    if U1 =? U2 then
      if S1 =? S2 then jac_double ec P else INFJ
    else
      let H := (U2 - U1) mod m in
      let R := (S2 - S1) mod m in
      let HH := (H * H) mod m in
      let HHH := (H * HH) mod m in
      let V := (U1 * HH) mod m in
      let X3 := (R * R - HHH - 2 * V) mod m in
      let Y3 := (R * (V - X3) - S1 * HHH) mod m in
      let Z3 := (H * Z1 * Z2) mod m in
      (X3, Y3, Z3).

Fixpoint jac_mult_pos (ec : Curve) (k : positive) (P : JacPoint) : JacPoint :=
  match k with
  | xH => P
  | xO k' => jac_double ec (jac_mult_pos ec k' P)
  | xI k' => jac_add ec P (jac_double ec (jac_mult_pos ec k' P))
  end.

Definition jac_mult (ec : Curve) (k : Z) (P : JacPoint) : JacPoint :=
  match k with
  | Zpos k' => jac_mult_pos ec k' P
  | _ => INFJ
  end.

(** [ec._aff_from_jac], with [None] for infinity *)
Definition aff_from_jac (ec : Curve) (P : JacPoint) : option Point :=
  let '(X, Y, Zc) := P in
  if Zc mod p ec =? 0 then None
  else
    let zi := finv ec Zc in
    Some ((X * zi * zi) mod p ec, (Y * zi * zi * zi) mod p ec).

Definition jac_from_aff (P : option Point) : JacPoint :=
  match P with
  | None => INFJ
  | Some (x, y) => (x, y, 1)
  end.

(** The triple with [Z = 1] (or [INFJ]) of a point *)
Definition jac_normal (ec : Curve) (P : JacPoint) : JacPoint :=
  jac_from_aff (aff_from_jac ec P).

(** Modelled from the spec: [btclib/curvegroup.py] is not part of the
    sources.  Section 4.B: [_mult(k, P)] is the scalar multiple of [P] in
    Jacobian coordinates and fails on a scalar out of range.  A point has
    many Jacobian triples; the model returns the one with [Z = 1] (or
    [INFJ]), the code whichever its ladder ends on, and the callers in
    [dsa.py] only use the affine coordinate [X / Z^2]. *)
Definition _mult (k : Z) (PJ : JacPoint) (ec : Curve) : result JacPoint :=
  if k <? 0 then raise BTClibValueError "negative scalar"
  else Ok (jac_normal ec (jac_mult ec k PJ)).

(** Modelled from the spec: section 4.B, [_double_mult(u, H, v, Q)] is
    [u*H + v*Q]. *)
Definition _double_mult (u : Z) (HJ : JacPoint) (v : Z) (QJ : JacPoint)
    (ec : Curve) : result JacPoint :=
  if (u <? 0) || (v <? 0) then raise BTClibValueError "negative scalar"
  else
    Ok (jac_normal ec (jac_add ec (jac_mult ec u HJ) (jac_mult ec v QJ))).

(** Modelled from the spec: section 4.B, [y_even(x)] returns the square
    root of [x^3 + a*x + b] whose least significant bit is zero and fails
    if there is none (the point is not on the curve). *)
Definition y_even (ec : Curve) (x : Z) : result Z :=
  if negb ((0 <=? x) && (x <? p ec)) then
    raise BTClibValueError "x-coordinate not in 0..p-1"
  else
    root <- mod_sqrt ((x * x * x + a ec * x + b ec) mod p ec) (p ec) ;;
    Ok (if root mod 2 =? 0 then root else p ec - root).

(** [secp256k1] *)
(** The curve of [scripts/EC1_6_F11_G5_9_N13.py]: [y^2 = x^3 + x + 6] over
    the field of 11 elements, with the generator (5, 9) of order 13. *)
Definition ec11_13 : Curve := mk 11 1 6 5 9 13 1.

(** [secp112r2], of cofactor 4 *)
Definition secp112r2 : Curve :=
  mk 0xDB7C2ABF62E35E668076BEAD208B
     0x6127C24C05F38A0AAAF65C0EF02C
     0x51DEF1815DB5ED74FCC34C85D709
     0x4BA30AB5E892B4E1649DD0928643
     0xADCD46F5882E3747DEF36E956E97
     0x36DF0AAFD8B8D7597CA10520D04B
     4.

(** [secp256k1] *)
Definition secp256k1 : Curve :=
  mk 0xFFFFFFFFFFFFFFFFFFFFFFFFFFFFFFFFFFFFFFFFFFFFFFFFFFFFFFFEFFFFFC2F
     0 7
     0x79BE667EF9DCBBAC55A06295CE870B07029BFCDB2DCE28D959F2815B16F81798
     0x483ADA7726A3C4655DA4FBFC0E1108A8FD17B448A68554199C47D08FFB10D4B8
     0xFFFFFFFFFFFFFFFFFFFFFFFFFFFFFFFEBAAEDCE6AF48A03BBFD25E8CD0364141
     1.

End curve.

(** ** [btclib/dsa.py] *)

Module dsa.
Import numbertheory curve.

(** A hash function [hf]: the size of its digest and the digest itself. *)
Record HashF : Type := mkHashF {
  digest_size : Z;
  digest : bytes -> bytes
}.

(** [Octets]: bytes, or the string of their hexadecimal digits. *)
Inductive Octets : Set :=
| OBytes (b : bytes)
| OHex (s : string).

(** [DSASig]: the tuple [(r, s)], or the DER serialization. *)
Inductive DSASig : Set :=
| SigTuple (r s : Z)
| SigDER (sig : Octets).

(** What [dsa.py] imports from modules that are not part of the sources and
    whose results it only passes on: the parsers of keys, of DER signatures
    and of hexadecimal strings, the encoding of a message and the
    deterministic nonce.  Each of them can raise. *)
Record Env : Type := mkEnv {
  Msg : Type;                                   (* [String]: str or bytes *)
  encode : Msg -> result bytes;                 (* [msg.encode()] of a str *)
  fromhex : string -> result bytes;             (* [bytes.fromhex] *)
  Key : Type;
  point_from_key : Key -> Curve -> result Point;
  PrvKey : Type;
  int_from_prvkey : PrvKey -> Curve -> result Z;
  der_deserialize : Octets -> Curve -> result (Z * Z);  (* [der.deserialize(sig, ec)[0:2]] *)
  rfc6979 : Z -> Z -> Curve -> HashF -> result Z
}.

Section WithEnv.
Context (E : Env).

(** Modelled from the spec: [utils.bytes_from_octets] is not part of the
    sources; section 4.G: a message is accepted as bytes or hexadecimal
    string of exactly the size asked for. *)
Definition bytes_from_octets (o : Octets) (out_size : Z) : result bytes :=
  o <- match o with
       | OBytes b => Ok b
       | OHex s => fromhex E s
       end ;;
  if Z.of_nat (List.length o) =? out_size then Ok o
  else raise BTClibValueError "invalid size".

(** Modelled from the spec: section 4.A, [int_from_bits(buf, nbits)] is the
    integer of the leftmost [nbits] bits of [buf], big-endian. *)
Definition int_from_bits (o : bytes) (nbits : Z) : Z :=
  let i := int_from_bytes_be o in
  let shift := Z.of_nat (List.length o) * 8 - nbits in
  if 0 <? shift then Z.shiftr i shift else i.

(** Modelled from the spec: [hashes.reduce_to_hlen] is not part of the
    sources; section 4.D: [reduce_to_hlen(msg, hf)] applies the hash once.
    The message is a [String], a str or bytes: the bytes of a str are those
    of [msg.encode()], which raises for a str it cannot encode. *)
Definition reduce_to_hlen (msg : Msg E) (hf : HashF) : result bytes :=
  b <- encode E msg ;;
  Ok (digest hf b).

(** Modelled from the spec: [der._validate_sig(r, s, None, ec)]; section 4.F:
    [r] and [s] must be in [1, n-1]. *)
Definition _validate_sig (r s : Z) (ec : Curve) : result unit :=
  if negb ((0 <? r) && (r <? n ec)) then
    raise BTClibValueError "scalar r not in 1..n-1"
  else if negb ((0 <? s) && (s <? n ec)) then
    raise BTClibValueError "scalar s not in 1..n-1"
  else Ok tt.

Definition deserialize (sig : DSASig) (ec : Curve) : result (Z * Z) :=
  match sig with
  | SigDER o => der_deserialize E o ec
  | SigTuple r s =>
      _ <- _validate_sig r s ec ;;
      Ok (r, s)
  end.

Definition _challenge (m : Octets) (ec : Curve) (hf : HashF) : result Z :=
  (* The message m: a hlen array *)
  let hlen := digest_size hf in
  m <- bytes_from_octets m hlen ;;
  (* leftmost ec.nlen bits %= ec.n *)
  Ok (int_from_bits m (nlen ec) mod n ec).


(** The affine x-coordinate [(KJ[0] * mod_inv(KJ[2] * KJ[2], ec.p)) % ec.p] *)
Definition affine_x (KJ : JacPoint) (ec : Curve) : result Z :=
  let '(X, _, Zc) := KJ in
  zi <- mod_inv (Zc * Zc) (p ec) ;;
  Ok ((X * zi) mod p ec).

Definition __sign (c q k : Z) (low_s : bool) (ec : Curve) : result (Z * Z) :=
  KJ <- _mult k (GJ ec) ec ;;
  (* affine x_K-coordinate of K (field element) *)
  x_K <- affine_x KJ ec ;;
  (* mod n makes it a scalar *)
  let r := x_K mod n ec in
  if r =? 0 then raise BTClibRuntimeError "failed to sign: r = 0"
  else
    k_inv <- mod_inv k (n ec) ;;
    let s := (k_inv * (c + r * q)) mod n ec in
    if s =? 0 then raise BTClibRuntimeError "failed to sign: s = 0"
    else
      (* bitcoin canonical 'low-s' encoding: [low_s and s > ec.n / 2],
         where [/] is the true division, a float *)
      s <- (if low_s then
              half <- pyfloat.int_truediv (n ec) 2 ;;
              Ok (if pyfloat.int_gt s half then n ec - s else s)
            else Ok s) ;;
      Ok (r, s).

Definition _sign (m : Octets) (prvkey : PrvKey E) (k : option (PrvKey E))
    (low_s : bool) (ec : Curve) (hf : HashF) : result (Z * Z) :=
  let hlen := digest_size hf in
  m <- bytes_from_octets m hlen ;;
  q <- int_from_prvkey E prvkey ec ;;
  c <- _challenge (OBytes m) ec hf ;;
  k <- match k with
       | None => rfc6979 E c q ec hf
       | Some k => int_from_prvkey E k ec
       end ;;
  __sign c q k low_s ec.

Definition sign (msg : Msg E) (prvkey : PrvKey E) (low_s : bool) (ec : Curve)
    (hf : HashF) : result (Z * Z) :=
  m <- reduce_to_hlen msg hf ;;
  _sign (OBytes m) prvkey None low_s ec hf.

Definition __assert_as_valid (c : Z) (QJ : JacPoint) (r s : Z) (ec : Curve)
    : result unit :=
  w <- mod_inv s (n ec) ;;
  let u := (c * w) mod n ec in
  let v := (r * w) mod n ec in
  (* Let K = u*G + v*Q. *)
  KJ <- _double_mult v QJ u (GJ ec) ec ;;
  (* Fail if infinite(K). *)
  _ <- assert (negb (snd KJ =? 0)) "invalid (INF) key" ;;
  (* affine x_K-coordinate of K *)
  x_K <- affine_x KJ ec ;;
  (* Fail if r ≠ x_K %n. *)
  if negb (r =? x_K mod n ec) then
    raise BTClibRuntimeError "signature verification failed"
  else Ok tt.

Definition _assert_as_valid (m : Octets) (key : Key E) (sig : DSASig)
    (ec : Curve) (hf : HashF) : result unit :=
  '(r, s) <- deserialize sig ec ;;
  (* The message m: a hlen array *)
  m <- bytes_from_octets m (digest_size hf) ;;
  c <- _challenge (OBytes m) ec hf ;;
  Q <- point_from_key E key ec ;;
  let QJ := (fst Q, snd Q, 1) in
  (* second part delegated to helper function *)
  __assert_as_valid c QJ r s ec.

Definition assert_as_valid (msg : Msg E) (key : Key E) (sig : DSASig)
    (ec : Curve) (hf : HashF) : result unit :=
  m <- reduce_to_hlen msg hf ;;
  _assert_as_valid (OBytes m) key sig ec hf.

(** [try: _assert_as_valid(...) except Exception: return False
    else: return True].  The result is kept a [result]: that no exception
    leaves [_verify] is a property of it, proved below. *)
Definition _verify (m : Octets) (key : Key E) (sig : DSASig)
    (ec : Curve) (hf : HashF) : result bool :=
  try_except_Exception
    (_ <- _assert_as_valid m key sig ec hf ;; Ok true)
    (Ok false).

(** [reduce_to_hlen] is called before [_verify], outside its [try]. *)
Definition verify (msg : Msg E) (key : Key E) (sig : DSASig)
    (ec : Curve) (hf : HashF) : result bool :=
  m <- reduce_to_hlen msg hf ;;
  _verify (OBytes m) key sig ec hf.

End WithEnv.

(** *** Public key recovery *)

(** The two classes [__recover_pubkeys] handles. *)
Definition recover_handled : list exn_class :=
  [BTClibValueError; BTClibRuntimeError].

(** The inner [try: __assert_as_valid(...) except ...: pass
    else: keys.append(QJ)]: the list of keys afterwards, or the exception
    the handler lets through. *)
Definition append_if_valid (c : Z) (QJ : JacPoint) (r s : Z) (ec : Curve)
    (keys : list JacPoint) : result (list JacPoint) :=
  try_except
    (_ <- __assert_as_valid c QJ r s ec ;; Ok (keys ++ [QJ]))
    recover_handled
    (Ok keys).

(** The body of the loop of [__recover_pubkeys] for one [j].  [keys] is a
    list the body appends to in place: when the body is left by an
    exception, the keys appended before it stay.  The result is the list
    after the body and the exception that ended it, if one did. *)
Definition recover_body (c r s r1s r1e : Z) (ec : Curve) (j : Z)
    (keys : list JacPoint) : list JacPoint * option exn :=
  (* affine x_K-coordinate of K (field element) *)
  let x_K := (r + j * n ec) mod p ec in
  match y_even ec x_K with
  | Err e => (keys, Some e)
  | Ok yodd =>
      (* even root first for bitcoin message signing compatibility *)
      let KJ := (x_K, yodd, 1) in
      match _double_mult r1s KJ r1e (GJ ec) ec with
      | Err e => (keys, Some e)
      | Ok QJ =>
          match append_if_valid c QJ r s ec keys with
          | Err e => (keys, Some e)
          | Ok keys =>
              let KJ := (x_K, p ec - yodd, 1) in
              match _double_mult r1s KJ r1e (GJ ec) ec with
              | Err e => (keys, Some e)
              | Ok QJ =>
                  match append_if_valid c QJ r s ec keys with
                  | Err e => (keys, Some e)
                  | Ok keys => (keys, None)
                  end
              end
          end
      end
  end.

(** [for j in js: try: body except (BTClibValueError, BTClibRuntimeError):
    pass] *)
Fixpoint recover_loop (c r s r1s r1e : Z) (ec : Curve) (js : list Z)
    (keys : list JacPoint) : result (list JacPoint) :=
  match js with
  | [] => Ok keys
  | j :: js' =>
      match recover_body c r s r1s r1e ec j keys with
      | (keys', None) => recover_loop c r s r1s r1e ec js' keys'
      | (keys', Some e) =>
          if existsb (exn_class_eqb (exn_cls e)) recover_handled
          then recover_loop c r s r1s r1e ec js' keys'
          else Err e
      end
  end.

(** [range(n)] *)
Definition range (n : Z) : list Z :=
  map Z.of_nat (seq 0 (Z.to_nat n)).

Definition __recover_pubkeys (c r s : Z) (ec : Curve)
    : result (list JacPoint) :=
  (* precomputations *)
  r_1 <- mod_inv r (n ec) ;;
  let r1s := (r_1 * s) mod n ec in
  let r1e := (- r_1 * c) mod n ec in
  recover_loop c r s r1s r1e ec (range (cofactor ec + 1)) [].

Definition __recover_pubkey (key_id c r s : Z) (ec : Curve)
    : result JacPoint :=
  (* precomputations *)
  r_1 <- mod_inv r (n ec) ;;
  let r1s := (r_1 * s) mod n ec in
  let r1e := (- r_1 * c) mod n ec in
  let j := Z.land key_id 6 in   (* allow for key_id in [0, 7] *)
  let x_K := (r + j * n ec) mod p ec in
  (* even root first for Bitcoin Core compatibility *)
  let i := Z.land key_id 1 in
  y_ev <- y_even ec x_K ;;
  let y_K := if negb (i =? 0) then p ec - y_ev else y_ev in
  let KJ := (x_K, y_K, 1) in
  QJ <- _double_mult r1s KJ r1e (GJ ec) ec ;;
  _ <- __assert_as_valid c QJ r s ec ;;
  Ok QJ.

(** The candidate the enumeration of [__recover_pubkeys] has at position
    [pos], counting the candidates it tries in its order
    (j=0 even, j=0 odd, j=1 even, ...): the public key of the root of
    parity [pos mod 2] at [x_K = (r + (pos / 2) * n) mod p]. *)
Definition candidate (pos c r s : Z) (ec : Curve) : result JacPoint :=
  r_1 <- mod_inv r (n ec) ;;
  let r1s := (r_1 * s) mod n ec in
  let r1e := (- r_1 * c) mod n ec in
  let x_K := (r + (pos / 2) * n ec) mod p ec in
  yodd <- y_even ec x_K ;;
  let KJ := (x_K, (if pos mod 2 =? 0 then yodd else p ec - yodd), 1) in
  _double_mult r1s KJ r1e (GJ ec) ec.

Section WithEnv2.
Context (E : Env).

Definition _recover_pubkeys (m : Octets) (sig : DSASig) (ec : Curve)
    (hf : HashF) : result (list (option Point)) :=
  let hlen := digest_size hf in
  m <- bytes_from_octets E m hlen ;;
  c <- _challenge E (OBytes m) ec hf ;;
  '(r, s) <- deserialize E sig ec ;;
  QJs <- __recover_pubkeys c r s ec ;;
  Ok (map (aff_from_jac ec) QJs).

Definition recover_pubkeys (msg : Msg E) (sig : DSASig) (ec : Curve)
    (hf : HashF) : result (list (option Point)) :=
  m <- reduce_to_hlen E msg hf ;;
  _recover_pubkeys (OBytes m) sig ec hf.

(** [secrets.randbelow(ec.n - 1)] draws from outside the program: [draw]
    is the number it returns, in [0, n - 2]; it raises [ValueError] when
    its bound is not positive. *)
Definition gen_keys (prvkey : option (PrvKey E)) (draw : Z) (ec : Curve)
    : result (Z * option Point) :=
  q <- match prvkey with
       | None =>
           (* q in the range [1, ec.n-1] *)
           if n ec - 1 <=? 0 then raise PyValueError "Upper bound must be positive."
           else Ok (1 + draw)
       | Some prvkey => int_from_prvkey E prvkey ec
       end ;;
  QJ <- _mult q (GJ ec) ec ;;
  let Q := aff_from_jac ec QJ in
  Ok (q, Q).

Definition _crack_prvkey (m_1 : Octets) (sig1 : DSASig) (m_2 : Octets)
    (sig2 : DSASig) (ec : Curve) (hf : HashF) : result (Z * Z) :=
  '(r_1, s_1) <- deserialize E sig1 ec ;;
  '(r_2, s_2) <- deserialize E sig2 ec ;;
  if negb (r_1 =? r_2) then
    raise BTClibValueError "not the same r in signatures"
  else if s_1 =? s_2 then
    raise BTClibValueError "identical signatures"
  else
    let hlen := digest_size hf in
    m_1 <- bytes_from_octets E m_1 hlen ;;
    m_2 <- bytes_from_octets E m_2 hlen ;;
    c_1 <- _challenge E (OBytes m_1) ec hf ;;
    c_2 <- _challenge E (OBytes m_2) ec hf ;;
    d_inv <- mod_inv (s_1 - s_2) (n ec) ;;
    let k := ((c_1 - c_2) * d_inv) mod n ec in
    r_inv <- mod_inv r_1 (n ec) ;;
    let q := ((s_2 * k - c_2) * r_inv) mod n ec in
    Ok (q, k).

Definition crack_prvkey (msg1 : Msg E) (sig1 : DSASig) (msg2 : Msg E)
    (sig2 : DSASig) (ec : Curve) (hf : HashF) : result (Z * Z) :=
  m_1 <- reduce_to_hlen E msg1 hf ;;
  m_2 <- reduce_to_hlen E msg2 hf ;;
  _crack_prvkey (OBytes m_1) sig1 (OBytes m_2) sig2 ec hf.

End WithEnv2.

(** *** An environment and a hash to run the functions on

    A message is a str or bytes, as Python has them.  Keys are given as
    they are (a point, an integer), DER and hexadecimal input is refused,
    and the stand-in for the hash pads or cuts its input to 32 bytes.  They
    serve to evaluate the functions on examples. *)

(** A [String] of Python: a [str], the list of its code points (each in
    [0, 0x10FFFF]), or [bytes]. *)
Inductive PyString : Set :=
| PyStr (s : list Z)
| PyBytes (b : bytes).

(** The UTF-8 bytes of one code point; the code points U+D800 to U+DFFF,
    the surrogates, have none. *)
Definition utf8_char (cp : Z) : result bytes :=
  if cp <? 0x80 then Ok [byte_of_Z cp]
  else if cp <? 0x800 then
    Ok [byte_of_Z (0xC0 + cp / 64); byte_of_Z (0x80 + cp mod 64)]
  else if (0xD800 <=? cp) && (cp <=? 0xDFFF) then
    raise PyUnicodeEncodeError "surrogates not allowed"
  else if cp <? 0x10000 then
    Ok [byte_of_Z (0xE0 + cp / 4096); byte_of_Z (0x80 + (cp / 64) mod 64);
        byte_of_Z (0x80 + cp mod 64)]
  else
    Ok [byte_of_Z (0xF0 + cp / 262144); byte_of_Z (0x80 + (cp / 4096) mod 64);
        byte_of_Z (0x80 + (cp / 64) mod 64); byte_of_Z (0x80 + cp mod 64)].

(** [s.encode()]: UTF-8, strict; the error is that of the first code point
    that cannot be encoded, with the reason Python gives. *)
Fixpoint utf8_encode (s : list Z) : result bytes :=
  match s with
  | [] => Ok []
  | cp :: s' =>
      b <- utf8_char cp ;;
      bs <- utf8_encode s' ;;
      Ok (b ++ bs)
  end.

(** [msg.encode()] when [msg] is a str, and [msg] itself otherwise. *)
Definition encode_message (msg : PyString) : result bytes :=
  match msg with
  | PyStr s => utf8_encode s
  | PyBytes b => Ok b
  end.

Definition plain_env : Env :=
  {| Msg := PyString;
     encode := encode_message;
     fromhex := fun _ => raise PyValueError "non-hexadecimal number";
     Key := Point;
     point_from_key := fun Q _ => Ok Q;
     PrvKey := Z;
     int_from_prvkey := fun q ec =>
       if (0 <? q) && (q <? n ec) then Ok q
       else raise BTClibValueError "private key not in 1..n-1";
     der_deserialize := fun _ _ => raise BTClibValueError "not a DER signature";
     rfc6979 := fun c q ec hf => Ok (1 + (c + q) mod (n ec - 1)) |}.

Definition pad32 : HashF :=
  {| digest_size := 32;
     digest := fun b => firstn 32 (b ++ repeat x00 32) |}.

(** The 32 bytes of a message digest whose first byte is [b] *)
Definition digest_of_byte (b : byte) : bytes := b :: repeat x00 31.

(** *** Vocabulary of the properties *)

(** The key [QJ] verifies the signature [(r, s)] of the challenge [c]. *)
Definition valid_key (c r s : Z) (ec : Curve) (QJ : JacPoint) : Prop :=
  __assert_as_valid c QJ r s ec = Ok tt.

(** The keys a list was extended by: at most [k] keys, each valid. *)
Definition extended (c r s : Z) (ec : Curve) (k : nat)
    (keys keys' : list JacPoint) : Prop :=
  exists added,
    keys' = keys ++ added /\ (List.length added <= k)%nat /\
    Forall (valid_key c r s ec) added.

(** For the challenge [c], the key [q] and the nonce [k]: [__sign] either
    fails for a null [s], or returns a signature with [r] and [s] in
    [1, n-1], low when asked for, that the public key of [gen_keys]
    verifies and that [__recover_pubkeys] finds the public key from. *)
Definition sign_verify_recover (ec : Curve) (low_s : bool) (c q k : Z) : bool :=
  match __sign c q k low_s ec with
  | Err e =>
      match exn_cls e with BTClibRuntimeError => true | _ => false end
  | Ok (r, s) =>
      match gen_keys plain_env (Some q) 0 ec with
      | Ok (q', Some (Qx, Qy)) =>
          (q' =? q)
          && (negb low_s || (2 * s <=? n ec))
          && is_ok (__assert_as_valid c (Qx, Qy, 1) r s ec)
          && match __recover_pubkeys c r s ec with
             | Ok keys =>
                 existsb (fun QJ =>
                            match aff_from_jac ec QJ with
                            | Some (x, y) => (x =? Qx) && (y =? Qy)
                            | None => false
                            end) keys
             | Err _ => false
             end
      | _ => false
      end
  end.

(** The integers [lo, lo+1, ..., lo+len-1] *)
Definition interval (lo : Z) (len : nat) : list Z :=
  map (fun i => lo + Z.of_nat i) (seq 0 len).

(** [sign_verify_recover] for every challenge in [0, n-1] and every key and
    nonce in [1, n-1]. *)
Definition sign_verify_recover_all (ec : Curve) (low_s : bool) : bool :=
  let scalars := interval 1 (Z.to_nat (n ec - 1)) in
  forallb (fun c =>
    forallb (fun q =>
      forallb (fun k => sign_verify_recover ec low_s c q k) scalars) scalars)
    (interval 0 (Z.to_nat (n ec))).

End dsa.

(** ** Dictionaries *)

Module dict.

(** A [Dict[bytes, bytes]]: the items in insertion order, no key twice. *)
Definition Dict : Set := list (bytes * bytes).

Fixpoint mem (k : bytes) (d : Dict) : bool :=
  match d with
  | [] => false
  | (k', _) :: t => bytes_eqb k k' || mem k t
  end.

(** [d[k] = v]: the value of an existing key is replaced where it stands,
    a new key goes to the end. *)
Fixpoint set (k v : bytes) (d : Dict) : Dict :=
  match d with
  | [] => [(k, v)]
  | (k', v') :: t => if bytes_eqb k k' then (k, v) :: t else (k', v') :: set k v t
  end.

Definition keys (d : Dict) : list bytes := map fst d.

End dict.

(** ** Witness streams and key-value maps *)

Module wire.

(** [for x in l: r = f(x)], stopping at the first error *)
Fixpoint map_result {A B : Type} (f : A -> result B) (l : list A) : result (list B) :=
  match l with
  | [] => Ok []
  | x :: t =>
      y <- f x ;;
      ys <- map_result f t ;;
      Ok (y :: ys)
  end.

(** Modelled from the spec: [tx_in.witness_serialize] is not part of the
    sources; section 4.I: a witness stream is a var-int item count followed
    by that many var-bytes entries. *)
Definition witness_serialize (witness : list bytes) : result bytes :=
  count <- varint.encode (Z.of_nat (List.length witness)) ;;
  items <- map_result varbytes.encode witness ;;
  Ok (count ++ List.concat items).

Fixpoint read_items (count : nat) (s : bytes) : result (list bytes) :=
  match count with
  | O => Ok []
  | S k =>
      '(item, rest) <- varbytes.decode s ;;
      items <- read_items k rest ;;
      Ok (item :: items)
  end.

(** Modelled from the spec: [tx_in.witness_deserialize], the reader of the
    same stream. *)
Definition witness_deserialize (data : bytes) : result (list bytes) :=
  '(count, rest) <- varint.decode data ;;
  read_items (Z.to_nat count) rest.

(** One record of a map: [key_len key value_len value] (section 4.M) *)
Definition encode_item (kv : bytes * bytes) : result bytes :=
  k <- varbytes.encode (fst kv) ;;
  v <- varbytes.encode (snd kv) ;;
  Ok (k ++ v).

Definition encode_items (d : dict.Dict) : result bytes :=
  records <- map_result encode_item d ;;
  Ok (List.concat records).

(** The items of [d] under the type byte [m]: the keys get [m] in front. *)
Definition tagged (m : bytes) (d : dict.Dict) : dict.Dict :=
  map (fun kv : bytes * bytes => (m ++ fst kv, snd kv)) d.

(** Modelled from the spec: [psbt_out._serialize_dict_bytes_bytes] is not
    part of the sources; section 4.M: each entry is a record
    [key_len key value_len value], the key being the type byte [m] followed
    by the key of the entry. *)
Definition _serialize_dict_bytes_bytes (d : dict.Dict) (m : bytes) : result bytes :=
  encode_items (tagged m d).

Fixpoint read_map (fuel : nat) (data : bytes) (acc : dict.Dict)
    : result (dict.Dict * bytes) :=
  match fuel with
  | O => raise BTClibValueError "malformed psbt: a map without separator"
  | S f =>
      match data with
      | [] => raise BTClibValueError "malformed psbt: a map without separator"
      | b :: rest =>
          if Z_of_byte b =? 0 then Ok (acc, rest)
          else
            '(key, rest) <- varbytes.decode data ;;
            '(value, rest) <- varbytes.decode rest ;;
            _ <- assert (negb (dict.mem key acc)) "duplicated keys" ;;
            read_map f rest (acc ++ [(key, value)])
      end
  end.

(** Modelled from the spec: the reader of one map of a PSBT ([psbt.py] is
    not part of the sources); section 4.M: a map is a sequence of records
    [key_len key value_len value] ended by a key of length zero, and its
    keys are unique.  It returns the map and the rest of the stream. *)
Definition deserialize_map (data : bytes) : result (dict.Dict * bytes) :=
  read_map (S (List.length data)) data [].

End wire.

(** ** [btclib/psbt_in.py] *)

Module psbt_in.
Import dict wire.

Definition PSBT_IN_NON_WITNESS_UTXO : bytes := [x00].
Definition PSBT_IN_WITNESS_UTXO : bytes := [x01].
Definition PSBT_IN_PARTIAL_SIG : bytes := [x02].
Definition PSBT_IN_SIGHASH_TYPE : bytes := [x03].
Definition PSBT_IN_REDEEM_SCRIPT : bytes := [x04].
Definition PSBT_IN_WITNESS_SCRIPT : bytes := [x05].
Definition PSBT_IN_BIP32_DERIVATION : bytes := [x06].
Definition PSBT_IN_FINAL_SCRIPTSIG : bytes := [x07].
Definition PSBT_IN_FINAL_SCRIPTWITNESS : bytes := [x08].
Definition PSBT_IN_POR_COMMITMENT : bytes := [x09].
Definition PSBT_IN_PROPRIETARY : bytes := [xfc].

(** What [psbt_in.py] imports from modules that are not part of the
    sources: transactions, Python strings and their UTF-8 codec, the
    proprietary maps, the table of sighash flags, the parser of SEC points
    and the validators of [psbt_out]. *)
Record Env : Type := mkEnv {
  dsa_env : dsa.Env;
  Tx : Type;
  Tx_deserialize : bytes -> result Tx;
  Tx_serialize : Tx -> result bytes;
  Tx_assert_valid : Tx -> result unit;
  Str : Type;
  str_is_empty : Str -> bool;
  str_encode : Str -> result bytes;             (* [s.encode("utf-8")] *)
  bytes_decode : bytes -> result Str;           (* [b.decode("utf-8")] *)
  Proprietary : Type;
  proprietary_default : Proprietary;            (* [{}] *)
  proprietary_is_empty : Proprietary -> bool;
  _serialize_proprietary : Proprietary -> bytes -> result bytes;
  _deserialize_proprietary : bytes -> bytes -> result Proprietary;
  _assert_valid_proprietary : Proprietary -> result unit;
  _assert_valid_bip32_derivs : Dict -> result unit;
  _assert_valid_unknown : Dict -> result unit;
  SIGHASHES : list Z;
  point_from_octets : bytes -> result curve.Point
}.

Section WithEnv.
Context (E : Env).

Record PsbtIn : Type := mk {
  non_witness_utxo : option (Tx E);
  witness_utxo : option TxOut.t;
  partial_signatures : Dict;
  sighash : option Z;
  redeem_script : bytes;
  witness_script : bytes;
  bip32_derivs : Dict;
  final_script_sig : bytes;
  final_script_witness : list bytes;
  por_commitment : option (Str E);
  proprietary : Proprietary E;
  unknown : Dict
}.

(** [cls()]: every field at its default *)
Definition default : PsbtIn :=
  mk None None [] None [] [] [] [] [] None (proprietary_default E) [].

Fixpoint for_each {A : Type} (f : A -> result unit) (l : list A) : result unit :=
  match l with
  | [] => Ok tt
  | x :: t => _ <- f x ;; for_each f t
  end.

Definition _assert_valid_partial_signatures (partial_signatures : Dict)
    : result unit :=
  for_each
    (fun kv : bytes * bytes =>
       (* pubkey must be a valid secp256k1 Point in SEC representation *)
       _ <- point_from_octets E (fst kv) ;;
       (* [assert dsa.deserialize(sig)]: the pair it returns is true *)
       _ <- dsa.deserialize (dsa_env E) (dsa.SigDER (dsa.OBytes (snd kv)))
              curve.secp256k1 ;;
       Ok tt)
    partial_signatures.

(** The [isinstance] assertions on the scripts and on the witness hold by
    the types of the fields. *)
Definition assert_valid (self : PsbtIn) : result unit :=
  _ <- match non_witness_utxo self with
       | Some tx => Tx_assert_valid E tx
       | None => Ok tt
       end ;;
  _ <- match witness_utxo self with
       | Some o => TxOut.assert_valid o
       | None => Ok tt
       end ;;
  _ <- match sighash self with
       | Some h => assert (existsb (Z.eqb h) (SIGHASHES E)) "invalid sighash"
       | None => Ok tt
       end ;;
  _ <- match por_commitment self with
       | Some s =>
           b <- str_encode E s ;;
           assert (negb (bytes_eqb b [])) EmptyString
       | None => Ok tt
       end ;;
  _ <- _assert_valid_partial_signatures (partial_signatures self) ;;
  _ <- _assert_valid_bip32_derivs E (bip32_derivs self) ;;
  _ <- _assert_valid_proprietary E (proprietary self) ;;
  _assert_valid_unknown E (unknown self).

Definition key_length_is (key : bytes) (lens : list nat) (msg : string)
    : result unit :=
  assert (existsb (Nat.eqb (List.length key)) lens) msg.

(** The assignments [out.field = v] *)
Definition set_non_witness_utxo (v : option (Tx E)) (o : PsbtIn) : PsbtIn :=
  mk v (witness_utxo o) (partial_signatures o) (sighash o) (redeem_script o)
     (witness_script o) (bip32_derivs o) (final_script_sig o)
     (final_script_witness o) (por_commitment o) (proprietary o) (unknown o).
Definition set_witness_utxo (v : option TxOut.t) (o : PsbtIn) : PsbtIn :=
  mk (non_witness_utxo o) v (partial_signatures o) (sighash o) (redeem_script o)
     (witness_script o) (bip32_derivs o) (final_script_sig o)
     (final_script_witness o) (por_commitment o) (proprietary o) (unknown o).
Definition set_partial_signatures (v : Dict) (o : PsbtIn) : PsbtIn :=
  mk (non_witness_utxo o) (witness_utxo o) v (sighash o) (redeem_script o)
     (witness_script o) (bip32_derivs o) (final_script_sig o)
     (final_script_witness o) (por_commitment o) (proprietary o) (unknown o).
Definition set_sighash (v : option Z) (o : PsbtIn) : PsbtIn :=
  mk (non_witness_utxo o) (witness_utxo o) (partial_signatures o) v
     (redeem_script o) (witness_script o) (bip32_derivs o) (final_script_sig o)
     (final_script_witness o) (por_commitment o) (proprietary o) (unknown o).
Definition set_redeem_script (v : bytes) (o : PsbtIn) : PsbtIn :=
  mk (non_witness_utxo o) (witness_utxo o) (partial_signatures o) (sighash o) v
     (witness_script o) (bip32_derivs o) (final_script_sig o)
     (final_script_witness o) (por_commitment o) (proprietary o) (unknown o).
Definition set_witness_script (v : bytes) (o : PsbtIn) : PsbtIn :=
  mk (non_witness_utxo o) (witness_utxo o) (partial_signatures o) (sighash o)
     (redeem_script o) v (bip32_derivs o) (final_script_sig o)
     (final_script_witness o) (por_commitment o) (proprietary o) (unknown o).
Definition set_bip32_derivs (v : Dict) (o : PsbtIn) : PsbtIn :=
  mk (non_witness_utxo o) (witness_utxo o) (partial_signatures o) (sighash o)
     (redeem_script o) (witness_script o) v (final_script_sig o)
     (final_script_witness o) (por_commitment o) (proprietary o) (unknown o).
Definition set_final_script_sig (v : bytes) (o : PsbtIn) : PsbtIn :=
  mk (non_witness_utxo o) (witness_utxo o) (partial_signatures o) (sighash o)
     (redeem_script o) (witness_script o) (bip32_derivs o) v
     (final_script_witness o) (por_commitment o) (proprietary o) (unknown o).
Definition set_final_script_witness (v : list bytes) (o : PsbtIn) : PsbtIn :=
  mk (non_witness_utxo o) (witness_utxo o) (partial_signatures o) (sighash o)
     (redeem_script o) (witness_script o) (bip32_derivs o) (final_script_sig o)
     v (por_commitment o) (proprietary o) (unknown o).
Definition set_por_commitment (v : option (Str E)) (o : PsbtIn) : PsbtIn :=
  mk (non_witness_utxo o) (witness_utxo o) (partial_signatures o) (sighash o)
     (redeem_script o) (witness_script o) (bip32_derivs o) (final_script_sig o)
     (final_script_witness o) v (proprietary o) (unknown o).
Definition set_proprietary (v : Proprietary E) (o : PsbtIn) : PsbtIn :=
  mk (non_witness_utxo o) (witness_utxo o) (partial_signatures o) (sighash o)
     (redeem_script o) (witness_script o) (bip32_derivs o) (final_script_sig o)
     (final_script_witness o) (por_commitment o) v (unknown o).
Definition set_unknown (v : Dict) (o : PsbtIn) : PsbtIn :=
  mk (non_witness_utxo o) (witness_utxo o) (partial_signatures o) (sighash o)
     (redeem_script o) (witness_script o) (bip32_derivs o) (final_script_sig o)
     (final_script_witness o) (por_commitment o) (proprietary o) v.

(** The body of the loop of [deserialize] for one item of the map. *)
Definition deserialize_item (out : PsbtIn) (key value : bytes) : result PsbtIn :=
  let t := firstn 1 key in
  if bytes_eqb t PSBT_IN_NON_WITNESS_UTXO then
    _ <- key_length_is key [1%nat] "invalid key length" ;;
    tx <- Tx_deserialize E value ;;
    Ok (set_non_witness_utxo (Some tx) out)
  else if bytes_eqb t PSBT_IN_WITNESS_UTXO then
    _ <- key_length_is key [1%nat] "invalid key length" ;;
    o <- TxOut.deserialize value true ;;
    Ok (set_witness_utxo (Some o) out)
  else if bytes_eqb t PSBT_IN_PARTIAL_SIG then
    _ <- key_length_is key [34%nat; 66%nat] "invalid pubkey length" ;;
    Ok (set_partial_signatures
          (dict.set (skipn 1 key) value (partial_signatures out)) out)
  else if bytes_eqb t PSBT_IN_SIGHASH_TYPE then
    _ <- key_length_is key [1%nat] "invalid key length" ;;
    _ <- assert (List.length value =? 4)%nat EmptyString ;;
    Ok (set_sighash (Some (int_from_bytes_le value)) out)
  else if bytes_eqb t PSBT_IN_FINAL_SCRIPTSIG then
    _ <- key_length_is key [1%nat] "invalid key length" ;;
    Ok (set_final_script_sig value out)
  else if bytes_eqb t PSBT_IN_FINAL_SCRIPTWITNESS then
    _ <- key_length_is key [1%nat] "invalid key length" ;;
    w <- witness_deserialize value ;;
    Ok (set_final_script_witness w out)
  else if bytes_eqb t PSBT_IN_POR_COMMITMENT then
    _ <- key_length_is key [1%nat] "invalid key length" ;;
    s <- bytes_decode E value ;;
    Ok (set_por_commitment (Some s) out)
  else if bytes_eqb t PSBT_IN_REDEEM_SCRIPT then
    _ <- key_length_is key [1%nat] "invalid key length" ;;
    Ok (set_redeem_script value out)
  else if bytes_eqb t PSBT_IN_WITNESS_SCRIPT then
    _ <- key_length_is key [1%nat] "invalid key length" ;;
    Ok (set_witness_script value out)
  else if bytes_eqb t PSBT_IN_BIP32_DERIVATION then
    _ <- key_length_is key [34%nat; 66%nat] "invalid pubkey length" ;;
    Ok (set_bip32_derivs (dict.set (skipn 1 key) value (bip32_derivs out)) out)
  else if bytes_eqb t PSBT_IN_PROPRIETARY then
    pr <- _deserialize_proprietary E key value ;;
    Ok (set_proprietary pr out)
  else (* unknown *)
    Ok (set_unknown (dict.set key value (unknown out)) out).

Fixpoint deserialize_items (out : PsbtIn) (items : Dict) : result PsbtIn :=
  match items with
  | [] => Ok out
  | (key, value) :: t =>
      out' <- deserialize_item out key value ;;
      deserialize_items out' t
  end.

Definition deserialize (input_map : Dict) (check : bool) : result PsbtIn :=
  out <- deserialize_items default input_map ;;
  _ <- (if check then assert_valid out else Ok tt) ;;
  Ok out.

(** [out += b"\x01" + key; out += varbytes.encode(value)] *)
Definition record (key value : bytes) : result bytes :=
  v <- varbytes.encode value ;;
  Ok (x01 :: key ++ v).

Definition is_empty {A : Type} (l : list A) : bool :=
  match l with [] => true | _ => false end.

Definition serialize (self : PsbtIn) (check : bool) : result bytes :=
  _ <- (if check then assert_valid self else Ok tt) ;;
  o1 <- match non_witness_utxo self with
        | Some tx => b <- Tx_serialize E tx ;; record PSBT_IN_NON_WITNESS_UTXO b
        | None => Ok []
        end ;;
  o2 <- match witness_utxo self with
        | Some o => b <- TxOut.serialize o true ;; record PSBT_IN_WITNESS_UTXO b
        | None => Ok []
        end ;;
  o3 <- (if is_empty (partial_signatures self) then Ok []
         else _serialize_dict_bytes_bytes (partial_signatures self)
                PSBT_IN_PARTIAL_SIG) ;;
  o4 <- match sighash self with
        | Some h =>
            if h =? 0 then Ok []
            else
              b <- to_bytes_le 4 h ;;
              Ok (x01 :: PSBT_IN_SIGHASH_TYPE ++ x04 :: b)
        | None => Ok []
        end ;;
  o5 <- (if is_empty (redeem_script self) then Ok []
         else record PSBT_IN_REDEEM_SCRIPT (redeem_script self)) ;;
  o6 <- (if is_empty (witness_script self) then Ok []
         else record PSBT_IN_WITNESS_SCRIPT (witness_script self)) ;;
  o7 <- (if is_empty (final_script_sig self) then Ok []
         else record PSBT_IN_FINAL_SCRIPTSIG (final_script_sig self)) ;;
  o8 <- (if is_empty (final_script_witness self) then Ok []
         else
           wit <- witness_serialize (final_script_witness self) ;;
           record PSBT_IN_FINAL_SCRIPTWITNESS wit) ;;
  o9 <- match por_commitment self with
        | Some s =>
            if str_is_empty E s then Ok []
            else b <- str_encode E s ;; record PSBT_IN_POR_COMMITMENT b
        | None => Ok []
        end ;;
  o10 <- (if is_empty (bip32_derivs self) then Ok []
          else _serialize_dict_bytes_bytes (bip32_derivs self)
                 PSBT_IN_BIP32_DERIVATION) ;;
  o11 <- (if proprietary_is_empty E (proprietary self) then Ok []
          else _serialize_proprietary E (proprietary self) PSBT_IN_PROPRIETARY) ;;
  o12 <- (if is_empty (unknown self) then Ok []
          else _serialize_dict_bytes_bytes (unknown self) []) ;;
  Ok (o1 ++ o2 ++ o3 ++ o4 ++ o5 ++ o6 ++ o7 ++ o8 ++ o9 ++ o10 ++ o11 ++ o12).

(** *** The items of the stream *)

Definition script_item (key value : bytes) : Dict :=
  if is_empty value then [] else [(key, value)].

(** The items [serialize] writes, as pairs of key and value, for an input
    map without proprietary entries: [serialize] gives their records. *)
Definition items_of (self : PsbtIn) : result Dict :=
  i1 <- match non_witness_utxo self with
        | Some tx => b <- Tx_serialize E tx ;; Ok [(PSBT_IN_NON_WITNESS_UTXO, b)]
        | None => Ok []
        end ;;
  i2 <- match witness_utxo self with
        | Some o => b <- TxOut.serialize o true ;; Ok [(PSBT_IN_WITNESS_UTXO, b)]
        | None => Ok []
        end ;;
  i4 <- match sighash self with
        | Some h =>
            if h =? 0 then Ok []
            else b <- to_bytes_le 4 h ;; Ok [(PSBT_IN_SIGHASH_TYPE, b)]
        | None => Ok []
        end ;;
  i8 <- (if is_empty (final_script_witness self) then Ok []
         else
           wit <- witness_serialize (final_script_witness self) ;;
           Ok [(PSBT_IN_FINAL_SCRIPTWITNESS, wit)]) ;;
  i9 <- match por_commitment self with
        | Some s =>
            if str_is_empty E s then Ok []
            else b <- str_encode E s ;; Ok [(PSBT_IN_POR_COMMITMENT, b)]
        | None => Ok []
        end ;;
  Ok (i1 ++ i2 ++ tagged PSBT_IN_PARTIAL_SIG (partial_signatures self) ++ i4
      ++ script_item PSBT_IN_REDEEM_SCRIPT (redeem_script self)
      ++ script_item PSBT_IN_WITNESS_SCRIPT (witness_script self)
      ++ script_item PSBT_IN_FINAL_SCRIPTSIG (final_script_sig self)
      ++ i8 ++ i9
      ++ tagged PSBT_IN_BIP32_DERIVATION (bip32_derivs self)
      ++ unknown self).

(** *** Vocabulary of the properties *)

(** A key whose type byte [deserialize] recognizes. *)
Definition recognized (key : bytes) : bool :=
  let t := firstn 1 key in
  bytes_eqb t PSBT_IN_NON_WITNESS_UTXO || bytes_eqb t PSBT_IN_WITNESS_UTXO
  || bytes_eqb t PSBT_IN_PARTIAL_SIG || bytes_eqb t PSBT_IN_SIGHASH_TYPE
  || bytes_eqb t PSBT_IN_FINAL_SCRIPTSIG || bytes_eqb t PSBT_IN_FINAL_SCRIPTWITNESS
  || bytes_eqb t PSBT_IN_POR_COMMITMENT || bytes_eqb t PSBT_IN_REDEEM_SCRIPT
  || bytes_eqb t PSBT_IN_WITNESS_SCRIPT || bytes_eqb t PSBT_IN_BIP32_DERIVATION
  || bytes_eqb t PSBT_IN_PROPRIETARY.

(** The place of a key in the stream of [serialize], by its type byte. *)
Definition rank (key : bytes) : nat :=
  let t := firstn 1 key in
  if bytes_eqb t PSBT_IN_NON_WITNESS_UTXO then 0
  else if bytes_eqb t PSBT_IN_WITNESS_UTXO then 1
  else if bytes_eqb t PSBT_IN_PARTIAL_SIG then 2
  else if bytes_eqb t PSBT_IN_SIGHASH_TYPE then 3
  else if bytes_eqb t PSBT_IN_REDEEM_SCRIPT then 4
  else if bytes_eqb t PSBT_IN_WITNESS_SCRIPT then 5
  else if bytes_eqb t PSBT_IN_FINAL_SCRIPTSIG then 6
  else if bytes_eqb t PSBT_IN_FINAL_SCRIPTWITNESS then 7
  else if bytes_eqb t PSBT_IN_POR_COMMITMENT then 8
  else if bytes_eqb t PSBT_IN_BIP32_DERIVATION then 9
  else if bytes_eqb t PSBT_IN_PROPRIETARY then 10
  else 11.

(** The entries of [unknown] that come back as they are: their keys are not
    empty and do not start with a recognized type byte. *)
Definition unknown_keys_ok (d : Dict) : bool :=
  forallb (fun kv : bytes * bytes =>
             negb (is_empty (fst kv)) && negb (recognized (fst kv))) d.

Definition pubkey_length (k : bytes) : Prop :=
  List.length k = 33%nat \/ List.length k = 65%nat.

(** The input maps the round trip is stated for: the three dictionaries
    have no key twice (as every Python dict), the keys of [bip32_derivs]
    are 33 or 65 bytes long, the unknown keys are of no recognized type,
    the sighash is not 0 and there is no proprietary entry. *)
Definition plain (x : PsbtIn) : Prop :=
  NoDup (dict.keys (partial_signatures x)) /\
  NoDup (dict.keys (bip32_derivs x)) /\
  Forall pubkey_length (dict.keys (bip32_derivs x)) /\
  NoDup (dict.keys (unknown x)) /\
  unknown_keys_ok (unknown x) = true /\
  sighash x <> Some 0 /\
  proprietary x = proprietary_default E.

(** What the round trip takes from the modules that are not part of the
    sources: each codec reads back what it wrote, the empty string is the
    one whose encoding is empty, keys that are accepted as SEC points are
    33 or 65 bytes long, and the empty proprietary map is not serialized. *)
Record EnvLaws : Prop := mkLaws {
  tx_round_trip : forall t b, Tx_serialize E t = Ok b -> Tx_deserialize E b = Ok t;
  str_round_trip : forall s b, str_encode E s = Ok b -> bytes_decode E b = Ok s;
  str_empty : forall s b, str_encode E s = Ok b -> str_is_empty E s = is_empty b;
  point_length : forall k P, point_from_octets E k = Ok P -> pubkey_length k;
  default_is_empty : proprietary_is_empty E (proprietary_default E) = true
}.

End WithEnv.

(** An item [deserialize] has no place for: a key of a single-key type
    with more than its type byte, a key of a per-pubkey type that is not
    34 or 66 bytes long, a sighash whose value is not 4 bytes long. *)
Definition malformed (kv : bytes * bytes) : bool :=
  let '(key, value) := kv in
  match key with
  | [] => false
  | t :: rest =>
      if existsb (Byte.eqb t) [x00; x01; x03; x04; x05; x07; x08; x09] then
        negb (is_empty rest)
        || (Byte.eqb t x03 && negb (List.length value =? 4)%nat)
      else if existsb (Byte.eqb t) [x02; x06] then
        negb ((List.length key =? 34)%nat || (List.length key =? 66)%nat)
      else false
  end.

(** The keys of one field: of rank [r], each once. *)
Definition field_keys (r : nat) (l : list bytes) : Prop :=
  NoDup l /\ Forall (fun k => k <> [] /\ rank k = r) l.

(** The keys of the fields from rank [r] on. *)
Definition keys_from (r : nat) (l : list bytes) : Prop :=
  NoDup l /\ Forall (fun k => k <> [] /\ (r <= rank k)%nat) l.

Arguments mk {E}.
Arguments non_witness_utxo {E}.
Arguments witness_utxo {E}.
Arguments partial_signatures {E}.
Arguments sighash {E}.
Arguments redeem_script {E}.
Arguments witness_script {E}.
Arguments bip32_derivs {E}.
Arguments final_script_sig {E}.
Arguments final_script_witness {E}.
Arguments por_commitment {E}.
Arguments proprietary {E}.
Arguments unknown {E}.

(** *** An environment to run the functions on

    A transaction is kept as its bytes, a string as its UTF-8 bytes, the
    proprietary map as a dictionary; of the validators of [psbt_out], the
    one of [bip32_derivs] wants paths of a whole number of 4-byte steps
    (section 4.M) and the others accept every dictionary; a SEC point is any
    key of 33 or 65 bytes and every signature is read as (1, 1). *)

Definition sec_length (k : bytes) : bool :=
  (List.length k =? 33)%nat || (List.length k =? 65)%nat.

Definition plain_dsa_env : dsa.Env :=
  {| dsa.Msg := bytes;
     dsa.encode := fun b => Ok b;
     dsa.fromhex := fun _ => raise PyValueError "non-hexadecimal number";
     dsa.Key := curve.Point;
     dsa.point_from_key := fun Q _ => Ok Q;
     dsa.PrvKey := Z;
     dsa.int_from_prvkey := fun q _ => Ok q;
     dsa.der_deserialize := fun _ _ => Ok (1, 1);
     dsa.rfc6979 := fun _ _ _ _ => Ok 1 |}.

Definition plain_env : Env :=
  {| dsa_env := plain_dsa_env;
     Tx := bytes;
     Tx_deserialize := fun b => Ok b;
     Tx_serialize := fun t => Ok t;
     Tx_assert_valid := fun _ => Ok tt;
     Str := bytes;
     str_is_empty := fun s => is_empty s;
     str_encode := fun s => Ok s;
     bytes_decode := fun b => Ok b;
     Proprietary := Dict;
     proprietary_default := [];
     proprietary_is_empty := fun d => is_empty d;
     _serialize_proprietary := fun d m => _serialize_dict_bytes_bytes d m;
     _deserialize_proprietary := fun k v => Ok [(k, v)];
     _assert_valid_proprietary := fun _ => Ok tt;
     _assert_valid_bip32_derivs := fun d =>
       assert (forallb (fun kv : bytes * bytes =>
                          (List.length (snd kv) mod 4 =? 0)%nat) d)
              "invalid BIP32 path";
     _assert_valid_unknown := fun _ => Ok tt;
     SIGHASHES := [1; 2; 3; 129; 130; 131];
     point_from_octets := fun k =>
       if sec_length k then Ok (0, 0) else raise BTClibValueError "invalid point" |}.

(** *** Input maps on this environment *)

(** A compressed SEC key by its length: 33 bytes. *)
Definition key33 : bytes := x02 :: repeat x11 32.

Definition a_tx : bytes := [x01; x02].
Definition an_output : TxOut.t := TxOut.mk 5000 [x51].

(** An input map with every field but [proprietary] set. *)
Definition full_input : PsbtIn plain_env :=
  mk (E := plain_env) (Some a_tx) (Some an_output) [(key33, [x30; x00])]
     (Some 1) [xab] [xac] [(key33, [x00; x00; x00; x80])] [x00]
     [[x01]; [x02; x03]] (Some [x61]) [] [([xf0; x01], [xff])].

(** An input map whose two UTXO fields are both set. *)
Definition both_utxos : PsbtIn plain_env :=
  mk (E := plain_env) (Some a_tx) (Some an_output) [] None [] [] [] [] []
     None [] [].

(** An input map with an unknown entry whose key is the type byte of
    [redeem_script]. *)
Definition shadowed_input : PsbtIn plain_env :=
  mk (E := plain_env) None None [] None [] [] [] [] [] None []
     [([x04], [xab])].

End psbt_in.

(* ================================================================== *)
(** * Part II: the properties                                          *)
(* ================================================================== *)

(** ** Generic facts *)

Lemma bind_ok {A B : Type} (r : result A) (k : A -> result B) (b : B) :
  bind r k = Ok b -> exists a, r = Ok a /\ k a = Ok b.
Proof.
  destruct r as [a|e]; simpl; intros H; [exists a; auto | discriminate].
Qed.

Lemma Z_of_byte_range (b : byte) : 0 <= Z_of_byte b < 256.
Proof.
  unfold Z_of_byte. pose proof (Byte.to_N_bounded b). lia.
Qed.

Lemma int_from_bytes_le_range (l : bytes) :
  0 <= int_from_bytes_le l < 256 ^ Z.of_nat (List.length l).
Proof.
  induction l as [|b t IH].
  - simpl. lia.
  - cbn [int_from_bytes_le List.length].
    rewrite Nat2Z.inj_succ, Z.pow_succ_r by lia.
    pose proof (Z_of_byte_range b). lia.
Qed.

Lemma bind_intro {A B : Type} (r : result A) (k : A -> result B) (a : A) (b : B) :
  r = Ok a -> k a = Ok b -> bind r k = Ok b.
Proof.
  intros -> H. exact H.
Qed.

(** ** TxOut *)

Module TxOutFacts.
Import TxOut.

Lemma varint_decode_nonempty (s : bytes) (r : Z * bytes) :
  varint.decode s = Ok r -> s <> [].
Proof.
  destruct s; [discriminate | congruence].
Qed.

Lemma varbytes_decode_nonempty (s : bytes) (r : bytes * bytes) :
  varbytes.decode s = Ok r -> s <> [].
Proof.
  unfold varbytes.decode. intros H.
  apply bind_ok in H. destruct H as [x [H _]].
  eapply varint_decode_nonempty; eauto.
Qed.

(** What [deserialize] returns, when it returns. *)
Lemma deserialize_inv (data : bytes) (check : bool) (o : t) :
  deserialize data check = Ok o ->
  exists spk rest,
    varbytes.decode (skipn 8 data) = Ok (spk, rest) /\
    o = mk (int_from_bytes_le (firstn 8 data)) spk /\
    (check = true -> assert_valid o = Ok tt).
Proof.
  unfold deserialize, stream_read.
  generalize (firstn 8 data) (skipn 8 data). intros hd tl H.
  apply bind_ok in H. destruct H as [[spk rest] [Hdec H]].
  apply bind_ok in H. destruct H as [[] [Hv H]].
  injection H as <-. exists spk, rest. repeat split; auto.
  intros ->. exact Hv.
Qed.

Lemma assert_valid_ok (o : t) :
  assert_valid o = Ok tt -> 0 <= value o <= MAX_SATOSHI.
Proof.
  unfold assert_valid.
  destruct (Z.ltb_spec (value o) 0); [discriminate|].
  destruct (Z.gtb_spec (value o) MAX_SATOSHI); [discriminate|].
  intros _. lia.
Qed.

Lemma varbytes_decode_msg (s : bytes) (e : exn) :
  varbytes.decode s = Err e -> exn_msg e <> "negative value"%string.
Proof.
  unfold varbytes.decode, varint.decode, stream_read.
  destruct s as [|b rest]; cbn [bind].
  { intros H; injection H as <-; cbn; discriminate. }
  repeat match goal with
  | |- context [match ?x with _ => _ end] => destruct x; cbn [bind]
  end; intros H; try discriminate; injection H as <-; cbn; discriminate.
Qed.

(** C10. [TxOut.deserialize] reads the value from exactly eight
    little-endian bytes as an unsigned integer: every [TxOut] it builds has
    its value in [0, 2^64), the [negative value] error of [assert_valid] is
    never raised by [deserialize], and with [assert_valid=True] the value of
    the returned [TxOut] lies in [0, MAX_SATOSHI]. *)
Theorem deserialize_value_unsigned :
  forall (data : bytes) (check : bool),
    (forall o, deserialize data check = Ok o ->
       List.length (firstn 8 data) = 8%nat /\
       value o = int_from_bytes_le (firstn 8 data) /\
       0 <= value o < 2 ^ 64 /\
       (check = true -> 0 <= value o <= MAX_SATOSHI)) /\
    (forall e, deserialize data check = Err e ->
       exn_msg e <> "negative value"%string).
Proof.
  intros data check. split.
  - intros o H.
    destruct (deserialize_inv _ _ _ H) as (spk & rest & Hdec & -> & Hv).
    cbn [value].
    assert (Hlen : (8 < List.length data)%nat).
    { apply varbytes_decode_nonempty in Hdec.
      destruct (Nat.le_gt_cases (List.length data) 8) as [Hle|Hgt]; [|exact Hgt].
      exfalso. apply Hdec. apply skipn_all2. exact Hle. }
    assert (Hl8 : List.length (firstn 8 data) = 8%nat)
      by (rewrite length_firstn; lia).
    pose proof (int_from_bytes_le_range (firstn 8 data)) as Hr.
    rewrite Hl8 in Hr. change (256 ^ Z.of_nat 8) with (2 ^ 64) in Hr.
    split; [exact Hl8|]. split; [reflexivity|]. split; [lia|].
    intros Hc. apply Hv, assert_valid_ok in Hc. exact Hc.
  - intros e. unfold deserialize, stream_read.
    pose proof (int_from_bytes_le_range (firstn 8 data)) as Hr.
    revert Hr. generalize (int_from_bytes_le (firstn 8 data)).
    generalize (List.length (firstn 8 data)). intros n v Hr.
    destruct (varbytes.decode (skipn 8 data)) as [[spk rest]|e'] eqn:Hdec.
    + cbn [bind]. destruct check; [|discriminate].
      unfold assert_valid. cbn [value].
      destruct (Z.ltb_spec v 0); [lia|].
      destruct (v >? MAX_SATOSHI); cbn; [|discriminate].
      intros He. injection He as <-. cbn. discriminate.
    + cbn [bind]. intros H. injection H as <-.
      eapply varbytes_decode_msg; eauto.
Qed.

End TxOutFacts.

(** ** Monetary amounts *)

Module AmountFacts.
Import decimal amount.

(** *** Powers of ten *)

Lemma pow10_pos (a : Z) : 0 <= a -> 0 < 10 ^ a.
Proof. intros. apply Z.pow_pos_nonneg; lia. Qed.

Lemma pow10_add (a b : Z) : 0 <= a -> 0 <= b -> 10 ^ (a + b) = 10 ^ a * 10 ^ b.
Proof. intros. apply Z.pow_add_r; lia. Qed.

Lemma pow10_split (a b : Z) : 0 <= b <= a -> 10 ^ a = 10 ^ (a - b) * 10 ^ b.
Proof.
  intros. rewrite <- pow10_add by lia. f_equal. lia.
Qed.

Lemma pow10_lt (a b : Z) : 0 <= a < b -> 10 ^ a < 10 ^ b.
Proof. intros. apply Z.pow_lt_mono_r; lia. Qed.

Lemma pow10_le (a b : Z) : 0 <= a <= b -> 10 ^ a <= 10 ^ b.
Proof. intros. apply Z.pow_le_mono_r; lia. Qed.

(** A number between two powers of ten has its exponent between theirs. *)
Lemma pow10_between (x a b : Z) :
  0 <= a -> 0 <= b -> 10 ^ a <= x < 10 ^ b -> a < b.
Proof.
  intros Ha Hb Hx. destruct (Z.lt_ge_cases a b) as [|Hge]; [assumption|].
  pose proof (pow10_le b a ltac:(lia)). lia.
Qed.

Lemma pow10_mod10 (a : Z) : 0 < a -> 10 ^ a mod 10 = 0.
Proof.
  intros Ha. replace a with (Z.succ (a - 1)) by lia.
  rewrite Z.pow_succ_r by lia. rewrite Z.mul_comm. apply Z.mod_mul. lia.
Qed.

Lemma compare_mul_r (a b p : Z) : 0 < p -> (a * p ?= b * p) = (a ?= b).
Proof.
  intros Hp. destruct (Z.compare_spec a b) as [->|H|H].
  - apply Z.compare_refl.
  - apply Z.compare_lt_iff. nia.
  - apply Z.compare_gt_iff. nia.
Qed.

(** *** The number of digits *)

Lemma ndigits_fuel_spec (f : nat) :
  forall c, 0 < c -> Z.log2 c <= Z.of_nat f ->
    1 <= ndigits_fuel f c /\
    10 ^ (ndigits_fuel f c - 1) <= c < 10 ^ ndigits_fuel f c.
Proof.
  induction f as [|f IH]; intros c Hc Hlog.
  - cbn [ndigits_fuel]. assert (c < 2).
    { destruct (Z.lt_ge_cases c 2) as [|Hge]; [assumption|].
      pose proof (Z.log2_le_mono 2 c Hge) as Hm.
      change (Z.log2 2) with 1 in Hm. lia. }
    change (10 ^ (1 - 1)) with 1. change (10 ^ 1) with 10. lia.
  - cbn [ndigits_fuel]. destruct (Z.ltb_spec c 10) as [Hlt|Hge].
    + change (10 ^ (1 - 1)) with 1. change (10 ^ 1) with 10. lia.
    + assert (Hq : 0 < c / 10) by (apply Z.div_str_pos; lia).
      assert (Hl : Z.log2 (c / 10) <= Z.of_nat f).
      { assert (c / 10 <= c / 2).
        { apply Z.div_le_compat_l; lia. }
        pose proof (Z.log2_le_mono _ _ H) as Hm.
        assert (0 < c / 2) by (apply Z.div_str_pos; lia).
        pose proof (Z.log2_double (c / 2) ltac:(lia)) as Hd.
        pose proof (Z.mul_div_le c 2 ltac:(lia)) as Hle.
        pose proof (Z.log2_le_mono _ _ Hle). lia. }
      destruct (IH _ Hq Hl) as [H1 [Hlo Hhi]].
      set (n := ndigits_fuel f (c / 10)) in *.
      replace (1 + n - 1) with (Z.succ (n - 1)) by lia.
      replace (1 + n) with (Z.succ n) at 2 by lia.
      rewrite !Z.pow_succ_r by lia.
      pose proof (Z.div_mod c 10 ltac:(lia)).
      pose proof (Z.mod_pos_bound c 10 ltac:(lia)). lia.
Qed.

Lemma ndigits_spec (c : Z) :
  0 < c -> 1 <= ndigits c /\ 10 ^ (ndigits c - 1) <= c < 10 ^ ndigits c.
Proof.
  intros Hc. unfold ndigits. apply ndigits_fuel_spec; [assumption|].
  pose proof (Z.log2_nonneg c). lia.
Qed.

Lemma ndigits_unique (c n : Z) :
  1 <= n -> 10 ^ (n - 1) <= c < 10 ^ n -> ndigits c = n.
Proof.
  intros Hn Hc.
  assert (0 < c) by (pose proof (pow10_pos (n - 1)); lia).
  destruct (ndigits_spec c H) as [H1 H2].
  pose proof (pow10_between c (n - 1) (ndigits c) ltac:(lia) ltac:(lia) ltac:(lia)).
  pose proof (pow10_between c (ndigits c - 1) n ltac:(lia) ltac:(lia) ltac:(lia)).
  lia.
Qed.

Lemma ndigits_shift (k t : Z) :
  0 < k -> 0 <= t -> ndigits (k * 10 ^ t) = ndigits k + t.
Proof.
  intros Hk Ht. destruct (ndigits_spec k Hk) as [H1 [Hlo Hhi]].
  apply ndigits_unique; [lia|].
  replace (ndigits k + t - 1) with (ndigits k - 1 + t) by lia.
  rewrite !pow10_add by lia.
  pose proof (pow10_pos t Ht). nia.
Qed.

Lemma ndigits_small (c n : Z) : 0 < c < 10 ^ n -> 0 <= n -> ndigits c <= n.
Proof.
  intros Hc Hn. destruct (ndigits_spec c ltac:(lia)) as [H1 [Hlo Hhi]].
  pose proof (pow10_between c (ndigits c - 1) n ltac:(lia) ltac:(lia) ltac:(lia)).
  lia.
Qed.

(** *** Values that are a whole number of satoshis *)

Lemma scaled_pos (C a K : Z) : scaled C a K -> 0 < K -> 0 < C.
Proof.
  intros [[Ha ->]|[Ha ->]] HK.
  - pose proof (pow10_pos a Ha). nia.
  - pose proof (pow10_pos (- a) ltac:(lia)). nia.
Qed.

Lemma exact_sats_scaled (s : bool) (c : N) (e k : Z) :
  exact_sats (DFinite s c e) = Some k ->
  exists K, k = signed s K /\ 0 <= K /\ scaled (Z.of_N c) (e + 8) K.
Proof.
  unfold exact_sats. destruct (Z.leb_spec 0 (e + 8)) as [Hle|Hlt].
  - intros H. injection H as <-. eexists. split; [reflexivity|].
    pose proof (pow10_pos (e + 8) Hle). split; [nia|]. left. auto.
  - destruct (Z.eqb_spec (Z.of_N c mod 10 ^ (- (e + 8))) 0) as [Hm|]; [|discriminate].
    intros H. injection H as <-. eexists. split; [reflexivity|].
    pose proof (pow10_pos (- (e + 8)) ltac:(lia)) as Hp.
    split; [apply Z.div_pos; lia|]. right. split; [lia|].
    pose proof (Z.div_mod (Z.of_N c) (10 ^ (- (e + 8))) ltac:(lia)). lia.
Qed.

(** The comparison with [MAX_BITCOIN], read on the satoshis. *)
Lemma cmp_scaled (c : N) (e K : Z) :
  scaled (Z.of_N c) (e + 8) K ->
  cmp_finite false c e false 209999999769 (-4) = (K ?= 2099999997690000).
Proof.
  intros Hs. unfold cmp_finite, signed.
  change (Z.of_N 209999999769) with 209999999769.
  change 2099999997690000 with (209999999769 * 10 ^ 4).
  destruct (Z.le_gt_cases (-4) e) as [He|He].
  - rewrite Z.min_r by lia. destruct Hs as [[Ha ->]|[Ha _]]; [|lia].
    replace (-4 - -4) with 0 by lia. rewrite Z.pow_0_r, Z.mul_1_r.
    replace (e + 8) with (e - -4 + 4) by lia. rewrite pow10_add by lia.
    rewrite Z.mul_assoc. rewrite compare_mul_r by (apply pow10_pos; lia).
    reflexivity.
  - rewrite Z.min_l by lia. replace (e - e) with 0 by lia.
    rewrite Z.pow_0_r, Z.mul_1_r.
    destruct Hs as [[Ha ->]|[Ha ->]].
    + rewrite (pow10_split 4 (e + 8)) by lia.
      replace (4 - (e + 8)) with (-4 - e) by lia. rewrite Z.mul_assoc.
      rewrite compare_mul_r by (apply pow10_pos; lia). reflexivity.
    + replace (-4 - e) with (4 + - (e + 8)) by lia. rewrite pow10_add by lia.
      rewrite Z.mul_assoc.
      rewrite compare_mul_r by (apply pow10_pos; lia). reflexivity.
Qed.

Lemma scaled_digits_bound (C e K j : Z) :
  0 < K < 10 ^ 16 -> 0 <= j <= 8 -> scaled C (e + j) K ->
  -7 <= ndigits C + e <= 16.
Proof.
  intros HK Hj Hs. pose proof (scaled_pos _ _ _ Hs ltac:(lia)) as HC.
  destruct (ndigits_spec _ HC) as [HL1 HL].
  assert (HLK : ndigits K <= 16) by (apply ndigits_small; lia).
  destruct (ndigits_spec K ltac:(lia)) as [HK1 _].
  destruct Hs as [[Ha HKc]|[Ha HCk]].
  - assert (10 ^ (ndigits C - 1 + (e + j)) < 10 ^ 16).
    { rewrite pow10_add by lia. pose proof (pow10_pos (e + j) Ha). nia. }
    destruct (Z.lt_ge_cases (ndigits C - 1 + (e + j)) 16); [lia|].
    pose proof (pow10_le 16 (ndigits C - 1 + (e + j)) ltac:(lia)). lia.
  - rewrite HCk, ndigits_shift by lia. lia.
Qed.

(** [_fix] does not change the value of a decimal that is a whole number
    [K] of units [10^-j], for [K] of sixteen digits at most: the digits it
    drops are zeros. *)
Lemma fix_exact (s : bool) (c : N) (e K j : Z) :
  0 < K < 10 ^ 16 -> 0 <= j <= 8 ->
  scaled (Z.of_N c) (e + j) K ->
  exists c' e',
    _fix (DFinite s c e) = Ok (DFinite s c' e') /\
    scaled (Z.of_N c') (e' + j) K /\
    e <= e' /\ Z.of_N c = Z.of_N c' * 10 ^ (e' - e).
Proof.
  intros HK Hj Hs. pose proof (scaled_pos _ _ _ Hs ltac:(lia)) as HC.
  destruct (ndigits_spec _ HC) as [HL1 HL].
  assert (HLK : ndigits K <= 16) by (apply ndigits_small; lia).
  destruct (ndigits_spec K ltac:(lia)) as [HK1 _].
  pose proof (scaled_digits_bound _ _ _ _ HK Hj Hs) as Hsum.
  unfold _fix. destruct (Z.eqb_spec (Z.of_N c) 0) as [|_]; [lia|].
  unfold Etop, Etiny, Emax, Emin, prec.
  destruct (Z.gtb_spec (ndigits (Z.of_N c) + e - 28) (999999 - 28 + 1)) as [|_]; [lia|].
  destruct (Z.ltb_spec (ndigits (Z.of_N c) + e - 28) (-999999 - 28 + 1)) as [|_]; [lia|].
  destruct (Z.ltb_spec e (ndigits (Z.of_N c) + e - 28)) as [Hround|Hkeep].
  - destruct Hs as [[Ha HKc]|[Ha HCk]].
    { exfalso.
      assert (Z.of_N c <= K) by (pose proof (pow10_pos (e + j) Ha); nia).
      pose proof (ndigits_small (Z.of_N c) 16 ltac:(lia) ltac:(lia)). lia. }
    set (L := ndigits (Z.of_N c)) in *. set (t := - (e + j)) in *.
    assert (HLt : L = ndigits K + t) by (unfold L; rewrite HCk; apply ndigits_shift; lia).
    replace (L + e - (L + e - 28)) with 28 by lia.
    destruct (Z.ltb_spec 28 0) as [|_]; [lia|].
    fold L. replace (L - 28) with (L - 28) by lia.
    assert (Hq : Z.of_N c = K * 10 ^ (t - (L - 28)) * 10 ^ (L - 28)).
    { rewrite HCk, <- Z.mul_assoc, <- pow10_add by lia. do 2 f_equal. lia. }
    pose proof (pow10_pos (L - 28) ltac:(lia)) as Hu.
    assert (Hr : round_half_even (Z.of_N c) (L - 28) = K * 10 ^ (t - (L - 28))).
    { unfold round_half_even. rewrite Hq.
      rewrite Z.div_mul, Z.mod_mul by lia.
      pose proof (pow10_pos (L - 28 - 1) ltac:(lia)).
      destruct (Z.gtb_spec 0 (5 * 10 ^ (L - 28 - 1))) as [|_]; [lia|].
      destruct (Z.eqb_spec 0 (5 * 10 ^ (L - 28 - 1))) as [|_]; [lia|].
      reflexivity. }
    rewrite Hr. rewrite ndigits_shift by lia.
    destruct (Z.gtb_spec (ndigits K + (t - (L - 28))) 28) as [|_]; [lia|].
    destruct (Z.gtb_spec (L + e - 28) (999999 - 28 + 1)) as [|_]; [lia|].
    pose proof (pow10_pos (t - (L - 28)) ltac:(lia)) as Hp.
    exists (Z.to_N (K * 10 ^ (t - (L - 28)))), (L + e - 28).
    rewrite Z2N.id by nia.
    split; [reflexivity|]. split.
    + right. split; [lia|]. do 2 f_equal. lia.
    + split; [lia|]. rewrite Hq. do 2 f_equal. lia.
  - exists c, e. split; [reflexivity|]. split; [assumption|].
    split; [lia|]. replace (e - e) with 0 by lia. rewrite Z.pow_0_r. lia.
Qed.

(** [_fix] on a zero: the exponent is brought into the range of the
    context. *)
Lemma fix_zero (s : bool) (e : Z) :
  exists e', _fix (DFinite s 0 e) = Ok (DFinite s 0 e').
Proof. eexists. reflexivity. Qed.

(** [int(d)] of a whole number. *)
Lemma to_int_scaled (s : bool) (c : N) (e K : Z) :
  scaled (Z.of_N c) (e + 0) K -> to_int (DFinite s c e) = Ok (signed s K).
Proof.
  rewrite Z.add_0_r. unfold to_int. intros [[Ha ->]|[Ha ->]].
  - destruct (Z.leb_spec 0 e); [reflexivity|lia].
  - destruct (Z.leb_spec 0 e); [lia|].
    rewrite Z.div_mul by (pose proof (pow10_pos (- e)); lia). reflexivity.
Qed.

Lemma of_int_signed (s : bool) (K : Z) :
  0 < K -> of_int (signed s K) = DFinite s (Z.to_N K) 0.
Proof.
  intros HK. unfold of_int, signed. destruct s.
  - destruct (Z.ltb_spec (- K) 0); [|lia]. rewrite Z.abs_neq by lia.
    rewrite Z.opp_involutive. reflexivity.
  - destruct (Z.ltb_spec K 0); [lia|]. rewrite Z.abs_eq by lia. reflexivity.
Qed.

Lemma cmp_int_scaled (s : bool) (c : N) (e K : Z) :
  0 < K -> scaled (Z.of_N c) (e + 0) K ->
  cmp_finite s (Z.to_N K) 0 s c e = Eq.
Proof.
  rewrite Z.add_0_r. intros HK Hs. unfold cmp_finite.
  rewrite Z2N.id by lia. apply Z.compare_eq_iff. f_equal.
  destruct Hs as [[Ha ->]|[Ha ->]].
  - rewrite Z.min_l by lia. replace (0 - 0) with 0 by lia.
    replace (e - 0) with e by lia. rewrite Z.pow_0_r. lia.
  - rewrite Z.min_r by lia. replace (e - e) with 0 by lia.
    replace (0 - e) with (- e) by lia. rewrite Z.pow_0_r. lia.
Qed.

(** *** Stripping the trailing zeros *)

Lemma strip_zeros_spec (fuel : nat) :
  forall c e, 0 < c < 10 ^ Z.of_nat fuel -> e + Z.of_nat fuel <= Emax ->
    exists c' e',
      strip_zeros fuel c e = (c', e') /\
      0 < c' /\ c' mod 10 <> 0 /\ e <= e' /\ c = c' * 10 ^ (e' - e).
Proof.
  induction fuel as [|f IH]; intros c e Hc He.
  - change (10 ^ Z.of_nat 0) with 1 in Hc. lia.
  - cbn [strip_zeros]. destruct (Z.eqb_spec (c mod 10) 0) as [Hm|Hm].
    + destruct (Z.ltb_spec e Emax) as [_|]; [|lia]. cbn [andb].
      pose proof (Z.div_mod c 10 ltac:(lia)) as Hd. rewrite Hm in Hd.
      rewrite Nat2Z.inj_succ, Z.pow_succ_r in Hc by lia.
      destruct (IH (c / 10) (e + 1) ltac:(lia) ltac:(lia))
        as (c' & e' & Heq & Hpos & Hnz & Hle & Hval).
      exists c', e'. split; [exact Heq|]. repeat split; try assumption; try lia.
      rewrite Hd, Hval, Z.add_0_r.
      replace (e' - e) with (Z.succ (e' - (e + 1))) by lia.
      rewrite Z.pow_succ_r by lia. lia.
    + cbn [andb]. exists c, e. split; [reflexivity|].
      repeat split; try assumption; try lia.
      replace (e - e) with 0 by lia. rewrite Z.pow_0_r. lia.
Qed.

Lemma strip_unique (c1 a c2 b : Z) :
  0 <= a -> 0 <= b -> c1 mod 10 <> 0 -> c2 mod 10 <> 0 ->
  c1 * 10 ^ a = c2 * 10 ^ b -> a = b /\ c1 = c2.
Proof.
  assert (Hlt : forall c1 a c2 b, 0 <= a < b -> c1 mod 10 <> 0 ->
                  c1 * 10 ^ a = c2 * 10 ^ b -> False).
  { clear. intros c1 a c2 b Hab Hc1 Heq. apply Hc1.
    rewrite (pow10_split b a) in Heq by lia.
    rewrite Z.mul_assoc in Heq.
    apply Z.mul_cancel_r in Heq; [|pose proof (pow10_pos a); lia].
    rewrite Heq. replace (b - a) with (Z.succ (b - a - 1)) by lia.
    rewrite Z.pow_succ_r by lia.
    replace (c2 * (10 * 10 ^ (b - a - 1))) with (c2 * 10 ^ (b - a - 1) * 10) by lia.
    apply Z.mod_mul. lia. }
  intros Ha Hb H1 H2 Heq.
  destruct (Z.lt_trichotomy a b) as [Hab|[->|Hab]].
  - exfalso. apply (Hlt c1 a c2 b); [lia|assumption|assumption].
  - split; [reflexivity|].
    apply Z.mul_cancel_r in Heq; [assumption|pose proof (pow10_pos b); lia].
  - exfalso. apply (Hlt c2 b c1 a); [lia|assumption|symmetry; assumption].
Qed.

Lemma scaled_strip (c1 d a K : Z) :
  0 <= d -> scaled (c1 * 10 ^ d) a K -> scaled c1 (a + d) K.
Proof.
  intros Hd [[Ha ->]|[Ha Hc]].
  - left. split; [lia|]. rewrite pow10_add by lia. lia.
  - pose proof (pow10_pos d Hd). pose proof (pow10_pos (- a) ltac:(lia)).
    destruct (Z.le_gt_cases 0 (a + d)).
    + left. split; [assumption|].
      rewrite (pow10_split d (- a)) in Hc by lia. rewrite Z.mul_assoc in Hc.
      apply Z.mul_cancel_r in Hc; [|lia].
      rewrite <- Hc. do 2 f_equal. lia.
    + right. split; [assumption|].
      rewrite (pow10_split (- a) d) in Hc by lia. rewrite Z.mul_assoc in Hc.
      apply Z.mul_cancel_r in Hc; [|lia].
      rewrite Hc. do 2 f_equal. lia.
Qed.

Lemma scaled_unique (c1 a1 c2 a2 K : Z) :
  scaled c1 a1 K -> scaled c2 a2 K -> c1 mod 10 <> 0 -> c2 mod 10 <> 0 ->
  c1 = c2 /\ a1 = a2 /\ 0 <= a1 /\ K = c1 * 10 ^ a1.
Proof.
  assert (Hno : forall c a, a < 0 -> c = K * 10 ^ (- a) -> c mod 10 = 0).
  { intros c a Ha ->. replace (- a) with (Z.succ (- a - 1)) by lia.
    rewrite Z.pow_succ_r by lia.
    replace (K * (10 * 10 ^ (- a - 1))) with (K * 10 ^ (- a - 1) * 10) by lia.
    apply Z.mod_mul. lia. }
  intros [[Ha1 H1]|[Ha1 H1]] [[Ha2 H2]|[Ha2 H2]] Hn1 Hn2;
    try (exfalso; apply Hn1; eapply Hno; eassumption);
    try (exfalso; apply Hn2; eapply Hno; eassumption).
  destruct (strip_unique c1 a1 c2 a2 Ha1 Ha2 Hn1 Hn2 ltac:(congruence)) as [-> ->].
  auto.
Qed.

Lemma scaled_shift8 (C e K : Z) :
  scaled C (e + 8) K -> scaled (C * 10 ^ 8) (e + 0 + 0) K.
Proof.
  rewrite !Z.add_0_r. intros [[Ha ->]|[Ha ->]].
  - destruct (Z.le_gt_cases 0 e).
    + left. split; [assumption|]. rewrite pow10_add by lia. lia.
    + right. split; [assumption|]. rewrite <- !Z.mul_assoc, <- !pow10_add by lia.
      do 2 f_equal. lia.
  - right. split; [lia|]. rewrite <- !Z.mul_assoc, <- !pow10_add by lia.
    do 2 f_equal. lia.
Qed.

(** [normalize] on a whole number of units [10^-j]: the same value, the
    coefficient without trailing zeros. *)
Lemma normalize_exact (s : bool) (c : N) (e K j : Z) :
  0 < K < 10 ^ 16 -> 0 <= j <= 8 ->
  scaled (Z.of_N c) (e + j) K ->
  exists c1 e1,
    normalize (DFinite s c e) = Ok (DFinite s c1 e1) /\
    scaled (Z.of_N c1) (e1 + j) K /\ Z.of_N c1 mod 10 <> 0 /\ 0 < Z.of_N c1.
Proof.
  intros HK Hj Hs.
  destruct (fix_exact s c e K j HK Hj Hs) as (c' & e' & Hfix & Hs' & Hle & Hval).
  pose proof (scaled_pos _ _ _ Hs' ltac:(lia)) as HC'.
  pose proof (scaled_digits_bound _ _ _ _ HK Hj Hs') as Hb.
  destruct (ndigits_spec _ HC') as [HL1 HL].
  destruct (strip_zeros_spec (Z.to_nat (ndigits (Z.of_N c'))) (Z.of_N c') e')
    as (c1 & e1 & Hstrip & Hpos & Hnz & Hle1 & Hval1).
  { rewrite Z2Nat.id by lia. lia. }
  { rewrite Z2Nat.id by lia. unfold Emax. lia. }
  exists (Z.to_N c1), e1. rewrite Z2N.id by lia.
  split.
  - unfold normalize. rewrite Hfix. cbn [bind].
    destruct (Z.eqb_spec (Z.of_N c') 0) as [|_]; [lia|].
    rewrite Hstrip. reflexivity.
  - split; [|split; assumption].
    rewrite Hval1 in Hs'. apply scaled_strip in Hs'; [|lia].
    replace (e' + j + (e1 - e')) with (e1 + j) in Hs' by lia. exact Hs'.
Qed.

Lemma N_mul_pow8 (c : N) :
  Z.of_N (c * 100000000) = Z.of_N c * 10 ^ 8.
Proof. rewrite N2Z.inj_mul. reflexivity. Qed.

Lemma cmp_zero_max (e : Z) :
  cmp_finite false 0 e false 209999999769 (-4) = Lt.
Proof.
  unfold cmp_finite, signed. change (Z.of_N 0) with 0. rewrite Z.mul_0_l.
  apply Z.compare_lt_iff.
  pose proof (pow10_pos (-4 - Z.min e (-4)) ltac:(lia)).
  change (Z.of_N 209999999769) with 209999999769. lia.
Qed.

Lemma signed_zero (s : bool) : signed s 0 = 0.
Proof. destruct s; reflexivity. Qed.

Lemma to_int_zero (s : bool) (e : Z) : to_int (DFinite s 0 e) = Ok 0.
Proof.
  unfold to_int. change (Z.of_N 0) with 0.
  rewrite Z.mul_0_l, Zdiv_0_l, signed_zero. destruct (0 <=? e); reflexivity.
Qed.

Lemma cmp_zero_zero (s : bool) (e : Z) :
  cmp_finite false 0 0 s 0 e = Eq.
Proof.
  unfold cmp_finite. change (Z.of_N 0) with 0.
  rewrite !Z.mul_0_l, !signed_zero. reflexivity.
Qed.

(** The first half: [sats_from_btc] returns the exact number of satoshis. *)
Lemma sats_from_btc_exact (amount : Any) (s : bool) (c : N) (e K : Z) :
  of_string (py_str amount) = Ok (DFinite s c e) ->
  scaled (Z.of_N c) (e + 8) K -> 0 <= K <= MAX_SATOSHI ->
  sats_from_btc amount = Ok (signed s K).
Proof.
  intros Hparse Hs HK. unfold sats_from_btc. rewrite Hparse. cbn [bind].
  unfold MAX_SATOSHI in HK.
  change (of_int _SATOSHI_PER_BITCOIN) with (DFinite false 100000000 0).
  destruct (Z.eq_dec K 0) as [->|HK0].
  - assert (Hc : c = 0%N).
    { destruct Hs as [[Ha H]|[Ha H]].
      - pose proof (pow10_pos _ Ha). nia.
      - lia. }
    subst c. unfold abs.
    destruct (fix_zero false e) as [e1 ->]. cbn [bind].
    unfold gt, MAX_BITCOIN. cbn [is_nan orb _cmp]. rewrite cmp_zero_max.
    cbn [bind]. unfold mul. rewrite N.mul_0_l.
    destruct (fix_zero (xorb s false) (e + 0)) as [e2 ->]. cbn [bind].
    rewrite to_int_zero. cbn [bind].
    change (of_int 0) with (DFinite false 0 0). unfold eq. cbn [_cmp].
    rewrite cmp_zero_zero. destruct s; reflexivity.
  - assert (HK16 : 0 < K < 10 ^ 16) by (change (10 ^ 16) with 10000000000000000; lia).
    unfold abs.
    destruct (fix_exact false c e K 8 HK16 ltac:(lia) Hs)
      as (c' & e' & Hfix & Hs' & _). rewrite Hfix. cbn [bind].
    unfold gt, MAX_BITCOIN. cbn [is_nan orb _cmp].
    rewrite (cmp_scaled c' e' K Hs').
    destruct (Z.compare_spec K 2099999997690000); try lia; cbn [bind].
    all: unfold mul; rewrite xorb_false_r.
    all: pose proof (scaled_shift8 _ _ _ Hs) as Hs8; rewrite <- N_mul_pow8 in Hs8.
    all: destruct (fix_exact s (c * 100000000) (e + 0) K 0 HK16 ltac:(lia) Hs8)
        as (q & e2 & Hfix2 & Hs2 & _); rewrite Hfix2; cbn [bind].
    all: rewrite (to_int_scaled s q e2 K Hs2); cbn [bind].
    all: rewrite of_int_signed by lia; unfold eq; cbn [_cmp].
    all: rewrite (cmp_int_scaled s q e2 K) by (assumption || lia);
      reflexivity.
Qed.

(** The second half: [btc_from_sats] gives the decimal with that value and
    no trailing zeros. *)
Lemma btc_from_sats_exact (s : bool) (K : Z) :
  0 < K <= MAX_SATOSHI ->
  exists c1 e1,
    btc_from_sats (signed s K) = Ok (DFinite s c1 e1) /\
    scaled (Z.of_N c1) (e1 + 8) K /\ Z.of_N c1 mod 10 <> 0 /\ 0 < Z.of_N c1.
Proof.
  intros HK. unfold MAX_SATOSHI in HK.
  assert (HK16 : 0 < K < 10 ^ 16) by (change (10 ^ 16) with 10000000000000000; lia).
  unfold btc_from_sats.
  assert (Habs : Z.abs (signed s K) = K) by (unfold signed; destruct s; lia).
  rewrite Habs. unfold MAX_SATOSHI.
  destruct (Z.gtb_spec K 2099999997690000) as [|_]; [lia|].
  rewrite of_int_signed by lia. unfold _BITCOIN_PER_SATOSHI, mul.
  rewrite xorb_false_r, N.mul_1_r.
  assert (Hs : scaled (Z.of_N (Z.to_N K)) (0 + -8 + 8) K).
  { left. split; [lia|]. rewrite Z2N.id by lia. cbn. lia. }
  destruct (fix_exact s (Z.to_N K) (0 + -8) K 8 HK16 ltac:(lia) Hs)
    as (c' & e' & Hfix & Hs' & _). rewrite Hfix. cbn [bind].
  apply normalize_exact; [assumption|lia|assumption].
Qed.

(** An amount with at most eight fractional digits, within the bound, is
    accepted, whatever the type of the argument it is the [str] of. *)
Lemma sats_from_btc_accepts (amount : Any) (s : bool) (c : N) (e k : Z) :
  of_string (py_str amount) = Ok (DFinite s c e) ->
  exact_sats (DFinite s c e) = Some k ->
  _cmp (DFinite false c e) MAX_BITCOIN <> Gt ->
  sats_from_btc amount = Ok k.
Proof.
  intros Hparse Hex Hmax.
  destruct (exact_sats_scaled _ _ _ _ Hex) as (K & -> & HK0 & Hs).
  assert (HK : K <= MAX_SATOSHI).
  { unfold MAX_BITCOIN in Hmax. cbn [_cmp] in Hmax.
    rewrite (cmp_scaled c e K Hs) in Hmax. unfold MAX_SATOSHI.
    destruct (Z.compare_spec K 2099999997690000); try lia. congruence. }
  apply (sats_from_btc_exact amount s c e K); auto.
Qed.

(** C6 (amended). [sats_from_btc] does not tell a float from the other
    arguments: it reads [str(x)], the shortest string that gives the float
    back.  For every float whose string is a decimal with at most eight
    fractional digits and of absolute value at most [MAX_BITCOIN], it
    returns the satoshis of that decimal, as it does for the string
    itself. *)
Theorem sats_from_btc_float (f : pyfloat.float) (s : bool) (c : N) (e k : Z) :
  of_string (pyfloat.repr f) = Ok (DFinite s c e) ->
  exact_sats (DFinite s c e) = Some k ->
  _cmp (DFinite false c e) MAX_BITCOIN <> Gt ->
  sats_from_btc (AFloat f) = Ok k /\
  sats_from_btc (AStr (pyfloat.repr f)) = Ok k.
Proof.
  intros Hparse Hex Hmax. split.
  - apply (sats_from_btc_accepts (AFloat f) s c e k); assumption.
  - apply (sats_from_btc_accepts (AStr (pyfloat.repr f)) s c e k); assumption.
Qed.

(** C7. For every BTC amount [x] with at most eight fractional digits
    ([x * 10^8] is an integer [k]) and [|x| <= MAX_BITCOIN],
    [sats_from_btc] returns exactly [k = x * 10^8], [btc_from_sats k] is the
    decimal of value [k / 10^8] without trailing zeros, and it equals (by
    the [==] of [Decimal]) the normalized form of [x]; the two are the same
    decimal unless [x] is a zero. *)
Theorem amount_round_trip (amount : Any) (s : bool) (c : N) (e k : Z) :
  of_string (py_str amount) = Ok (DFinite s c e) ->
  exact_sats (DFinite s c e) = Some k ->
  _cmp (DFinite false c e) MAX_BITCOIN <> Gt ->
  sats_from_btc amount = Ok k /\
  exists d n,
    btc_from_sats k = Ok d /\
    normalize (DFinite s c e) = Ok n /\
    eq d n = Ok true /\
    (k <> 0 -> d = n) /\
    exact_sats d = Some k /\ stripped d = true.
Proof.
  intros Hparse Hex Hmax.
  destruct (exact_sats_scaled _ _ _ _ Hex) as (K & -> & HK0 & Hs).
  assert (HK : K <= MAX_SATOSHI).
  { unfold MAX_BITCOIN in Hmax. cbn [_cmp] in Hmax.
    rewrite (cmp_scaled c e K Hs) in Hmax. unfold MAX_SATOSHI.
    destruct (Z.compare_spec K 2099999997690000); try lia. congruence. }
  split; [apply (sats_from_btc_exact amount s c e K); auto|].
  destruct (Z.eq_dec K 0) as [->|HKnz].
  - assert (Hc : c = 0%N).
    { destruct Hs as [[Ha H]|[Ha H]].
      - pose proof (pow10_pos _ Ha). nia.
      - lia. }
    subst c. exists (DFinite false 0 0), (DFinite s 0 0).
    assert (Hz : signed s 0 = 0) by (destruct s; reflexivity). rewrite Hz.
    split; [reflexivity|]. split; [reflexivity|].
    split; [destruct s; reflexivity|].
    split; [congruence|]. split; reflexivity.
  - destruct (btc_from_sats_exact s K ltac:(lia)) as (c1 & e1 & Hb & Hs1 & Hn1 & Hp1).
    assert (HK16 : 0 < K < 10 ^ 16).
    { unfold MAX_SATOSHI in HK. change (10 ^ 16) with 10000000000000000. lia. }
    destruct (normalize_exact s c e K 8 HK16 ltac:(lia) Hs)
      as (c2 & e2 & Hnorm & Hs2 & Hn2 & Hp2).
    destruct (scaled_unique _ _ _ _ _ Hs1 Hs2 Hn1 Hn2) as (Hc & He & Ha & HKv).
    apply N2Z.inj in Hc. assert (e1 = e2) by lia. subst c2 e2.
    exists (DFinite s c1 e1), (DFinite s c1 e1).
    split; [assumption|]. split; [assumption|]. split.
    { unfold eq. cbn [_cmp]. unfold cmp_finite. rewrite Z.compare_refl. reflexivity. }
    split; [reflexivity|]. split.
    + unfold exact_sats. destruct (Z.leb_spec 0 (e1 + 8)); [|lia]. congruence.
    + unfold stripped. destruct (N.eqb_spec c1 0); [lia|].
      destruct (Z.eqb_spec (Z.of_N c1 mod 10) 0); [contradiction|reflexivity].
Qed.

End AmountFacts.

(** ** The modular inverse *)

Module NumberTheoryFacts.
Import numbertheory.

Lemma xgcd_step_eq (r0 r1 s0 s1 : Z) :
  xgcd_step (r0, r1, s0, s1) =
  if r1 =? 0 then (r0, r1, s0, s1)
  else (r1, r0 mod r1, s1, s0 - (r0 / r1) * s1).
Proof.
  unfold xgcd_step, Z.modulo, Z.div.
  destruct (r1 =? 0); [reflexivity|].
  destruct (Z.div_eucl r0 r1); reflexivity.
Qed.

Lemma xgcd_step_done (st : Z * Z * Z * Z) :
  rem1 st = 0 -> xgcd_step st = st.
Proof.
  destruct st as [[[r0 r1] s0] s1]. unfold rem1. cbn [fst snd].
  intros ->. rewrite xgcd_step_eq. reflexivity.
Qed.

Lemma xgcd_iter_done (k : nat) (st : Z * Z * Z * Z) :
  rem1 st = 0 -> Nat.iter k xgcd_step st = st.
Proof.
  intros H. induction k as [|k IH]; [reflexivity|].
  rewrite Nat.iter_succ, IH. apply xgcd_step_done, H.
Qed.

Lemma xgcd_loop_iter (n : nat) (st : Z * Z * Z * Z) :
  xgcd_loop n st = Nat.iter (2 ^ n) xgcd_step st.
Proof.
  revert st. induction n as [|n IH]; intros st.
  - reflexivity.
  - cbn [xgcd_loop]. rewrite !IH.
    replace (2 ^ S n)%nat with (2 ^ n + 2 ^ n)%nat by (cbn [Nat.pow]; lia).
    rewrite Nat.iter_add.
    destruct (Z.eqb_spec (rem1 (Nat.iter (2 ^ n) xgcd_step st)) 0) as [Hz|]; [|reflexivity].
    symmetry. apply xgcd_iter_done, Hz.
Qed.

Lemma xgcd_step_inv (a m : Z) (st : Z * Z * Z * Z) :
  0 < m -> xgcd_inv a m st -> xgcd_inv a m (xgcd_step st).
Proof.
  destruct st as [[[r0 r1] s0] s1]. intros Hm (H0 & H1 & Hg & Hs0 & Hs1).
  rewrite xgcd_step_eq. destruct (Z.eqb_spec r1 0) as [->|Hnz].
  - repeat split; assumption.
  - assert (Hr1 : 0 < r1) by lia.
    pose proof (Z.mod_pos_bound r0 r1 Hr1) as Hb.
    unfold xgcd_inv. split; [lia|]. split; [lia|]. split.
    + rewrite Z.gcd_comm, Z.gcd_mod by lia. rewrite Z.gcd_comm. exact Hg.
    + split; [exact Hs1|].
      rewrite Z.mul_sub_distr_r.
      rewrite Zminus_mod, Hs0.
      rewrite <- Z.mul_assoc, (Zmult_mod (r0 / r1)), Hs1.
      rewrite <- Zmult_mod, <- Zminus_mod. f_equal.
      pose proof (Z.div_mod r0 r1 ltac:(lia)). lia.
Qed.

Lemma xgcd_step_rem (st : Z * Z * Z * Z) :
  0 <= rem1 st ->
  (rem1 st = 0 /\ xgcd_step st = st) \/ 0 <= rem1 (xgcd_step st) < rem1 st.
Proof.
  destruct st as [[[r0 r1] s0] s1]. rewrite xgcd_step_eq. unfold rem1.
  cbn [fst snd]. intros H. destruct (Z.eqb_spec r1 0) as [->|Hnz].
  - left. split; reflexivity.
  - right. cbn [fst snd]. apply Z.mod_pos_bound. lia.
Qed.

Lemma xgcd_iter (a m : Z) (k : nat) :
  forall st, 0 < m -> xgcd_inv a m st -> rem1 st < Z.of_nat k ->
    xgcd_inv a m (Nat.iter k xgcd_step st) /\
    rem1 (Nat.iter k xgcd_step st) = 0.
Proof.
  induction k as [|k IH]; intros st Hm Hinv Hlt.
  - destruct st as [[[r0 r1] s0] s1]. unfold rem1 in Hlt. cbn [fst snd] in Hlt.
    destruct Hinv as (_ & H1 & _). cbn in Hlt. lia.
  - rewrite Nat.iter_succ_r.
    assert (Hr : 0 <= rem1 st).
    { destruct st as [[[r0 r1] s0] s1]. destruct Hinv as (_ & H1 & _). exact H1. }
    destruct (xgcd_step_rem st Hr) as [[Hz Hfix]|Hdec].
    + rewrite Hfix. destruct k as [|k'].
      * split; assumption.
      * apply IH; try assumption. lia.
    + apply IH; [assumption|apply xgcd_step_inv; assumption|lia].
Qed.

Lemma xgcd_result (a m : Z) :
  0 < m ->
  exists g r s s',
    xgcd_loop (S (Z.to_nat (Z.log2 m))) (m, a mod m, 0, 1) = (g, r, s, s') /\
    g = Z.gcd a m /\ (s * a) mod m = g mod m.
Proof.
  intros Hm. rewrite xgcd_loop_iter.
  pose proof (Z.mod_pos_bound a m Hm) as Hb.
  destruct (xgcd_iter a m (2 ^ S (Z.to_nat (Z.log2 m))) (m, a mod m, 0, 1) Hm)
    as [Hinv Hrem].
  - unfold xgcd_inv. split; [lia|]. split; [lia|]. split.
    + rewrite Z.gcd_comm, Z.gcd_mod by lia. apply Z.gcd_comm.
    + split.
      * rewrite Z.mul_0_l, Zmod_0_l, Z_mod_same_full. reflexivity.
      * rewrite Z.mul_1_l, Zmod_mod. reflexivity.
  - unfold rem1. cbn [fst snd].
    rewrite Nat2Z.inj_pow. change (Z.of_nat 2) with 2.
    rewrite Nat2Z.inj_succ, Z2Nat.id by apply Z.log2_nonneg.
    pose proof (Z.log2_spec m Hm). lia.
  - destruct (Nat.iter _ _ _) as [[[g r] s] s'].
    unfold rem1 in Hrem. cbn [fst snd] in Hrem. subst r.
    destruct Hinv as (Hg0 & _ & Hg & Hs & _).
    exists g, 0, s, s'. split; [reflexivity|].
    rewrite Z.gcd_0_r, Z.abs_eq in Hg by assumption. split; assumption.
Qed.

(** [mod_inv] returns an inverse, reduced modulo [m]. *)
Lemma mod_inv_spec (a m x : Z) :
  mod_inv a m = Ok x -> 0 <= x < m /\ (a * x) mod m = 1 mod m.
Proof.
  unfold mod_inv. destruct (Z.leb_spec m 0) as [|Hm]; [discriminate|].
  destruct (xgcd_result a m Hm) as (g & r & s & s' & -> & Hg & Hs).
  destruct (Z.eqb_spec g 1) as [->|]; [|discriminate].
  intros H. injection H as <-. split; [apply Z.mod_pos_bound; assumption|].
  rewrite Zmult_mod_idemp_r, Z.mul_comm. exact Hs.
Qed.


Lemma mod_inv_fails (a m : Z) (e : exn) :
  mod_inv a m = Err e ->
  exn_cls e = BTClibValueError \/ exn_cls e = BTClibRuntimeError.
Proof.
  unfold mod_inv. destruct (m <=? 0).
  - intros H. injection H as <-. left. reflexivity.
  - destruct (xgcd_loop _ _) as [[[g r] s] s'].
    destruct (g =? 1); [discriminate|].
    intros H. injection H as <-. right. reflexivity.
Qed.

End NumberTheoryFacts.

(** ** ECDSA *)

Module DsaFacts.
Import numbertheory curve dsa NumberTheoryFacts.

(** *** Arithmetic modulo [n] *)

#[local] Instance eqm_equivalence (N : Z) : Equivalence (eqm N).
Proof.
  constructor; [exact (eqm_refl N) | exact (eqm_sym N) | exact (eqm_trans N)].
Qed.

#[local] Instance add_eqm (N : Z) : Proper (eqm N ==> eqm N ==> eqm N) Z.add.
Proof. exact (Zplus_eqm N). Qed.

#[local] Instance sub_eqm (N : Z) : Proper (eqm N ==> eqm N ==> eqm N) Z.sub.
Proof. exact (Zminus_eqm N). Qed.

#[local] Instance mul_eqm (N : Z) : Proper (eqm N ==> eqm N ==> eqm N) Z.mul.
Proof. exact (Zmult_eqm N). Qed.





(** *** What [__sign] computes *)


(** *** Messages and signatures *)

Section WithEnv.
Context (E : Env).

Lemma reduce_to_hlen_inv (msg : Msg E) (hf : HashF) (m : bytes) :
  reduce_to_hlen E msg hf = Ok m ->
  exists b, encode E msg = Ok b /\ m = digest hf b.
Proof.
  unfold reduce_to_hlen. intros H. apply bind_ok in H.
  destruct H as (b & Hb & H). injection H as <-. exists b. split; trivial.
Qed.


Lemma bytes_from_octets_bytes (b : bytes) (size : Z) :
  Z.of_nat (List.length b) = size -> bytes_from_octets E (OBytes b) size = Ok b.
Proof.
  intros H. unfold bytes_from_octets. cbn [bind]. rewrite H, Z.eqb_refl.
  reflexivity.
Qed.


Lemma validate_sig_ok (r s : Z) (ec : Curve) :
  0 < r < n ec -> 0 < s < n ec -> _validate_sig r s ec = Ok tt.
Proof.
  intros Hr Hs. unfold _validate_sig.
  destruct (Z.ltb_spec 0 r); [|lia]. destruct (Z.ltb_spec r (n ec)); [|lia].
  destruct (Z.ltb_spec 0 s); [|lia]. destruct (Z.ltb_spec s (n ec)); [|lia].
  reflexivity.
Qed.

(** C2 (as amended). [_crack_prvkey] and [crack_prvkey] fail whenever the
    two signatures have different [r] or the same [s]: [_crack_prvkey] with
    a BTClibValueError, and so does [crack_prvkey] once [reduce_to_hlen]
    has taken both messages, whose exception comes first otherwise.  The
    challenges are not compared. *)
Theorem crack_prvkey_rejects (ec : Curve) (hf : HashF)
    (sig1 sig2 : DSASig) (r_1 s_1 r_2 s_2 : Z) :
  deserialize E sig1 ec = Ok (r_1, s_1) ->
  deserialize E sig2 ec = Ok (r_2, s_2) ->
  r_1 <> r_2 \/ s_1 = s_2 ->
  (forall m_1 m_2, exists msg,
      _crack_prvkey E m_1 sig1 m_2 sig2 ec hf = Err (Raise BTClibValueError msg)) /\
  (forall msg1 msg2, exists e,
      crack_prvkey E msg1 sig1 msg2 sig2 ec hf = Err e /\
      (forall m_1 m_2,
         reduce_to_hlen E msg1 hf = Ok m_1 ->
         reduce_to_hlen E msg2 hf = Ok m_2 ->
         exn_cls e = BTClibValueError)).
Proof.
  intros H1 H2 Hrs.
  assert (Hall : forall m_1 m_2, exists msg,
      _crack_prvkey E m_1 sig1 m_2 sig2 ec hf = Err (Raise BTClibValueError msg)).
  { intros m_1 m_2. unfold _crack_prvkey. rewrite H1, H2. cbn [bind].
    destruct (Z.eqb_spec r_1 r_2) as [Hr|Hr]; cbn [negb].
    - destruct Hrs as [Hne| ->]; [contradiction|].
      rewrite Z.eqb_refl. eexists. reflexivity.
    - eexists. reflexivity. }
  split; [exact Hall|].
  intros msg1 msg2. unfold crack_prvkey.
  destruct (reduce_to_hlen E msg1 hf) as [m_1|e1]; cbn [bind].
  - destruct (reduce_to_hlen E msg2 hf) as [m_2|e2]; cbn [bind].
    + destruct (Hall (OBytes m_1) (OBytes m_2)) as [msg ->].
      eexists. split; [reflexivity|]. intros; reflexivity.
    + exists e2. split; [reflexivity|]. intros; discriminate.
  - exists e1. split; [reflexivity|]. intros; discriminate.
Qed.



End WithEnv.

(** C4. [_verify] returns a boolean on every input, [False] exactly when
    the assertion of validity fails, whatever the failure.  [verify] does
    so for the messages [reduce_to_hlen] takes only: it calls
    [reduce_to_hlen] before [_verify], outside the [try], and an exception
    of [reduce_to_hlen] goes through to the caller.  For the str of the
    one code point U+D800, a surrogate, [verify] raises the
    UnicodeEncodeError of [msg.encode()], whatever the key and the
    signature. *)
Theorem verify_raises_on_message :
  (forall (E : Env) (ec : Curve) (hf : HashF) (sig : DSASig) (key : Key E)
          (m : Octets),
      exists b : bool,
        _verify E m key sig ec hf = Ok b /\
        (b = false <-> exists e, _assert_as_valid E m key sig ec hf = Err e)) /\
  (forall (E : Env) (ec : Curve) (hf : HashF) (sig : DSASig) (key : Key E)
          (msg : Msg E) (m : bytes),
      reduce_to_hlen E msg hf = Ok m ->
      exists b : bool,
        verify E msg key sig ec hf = Ok b /\
        (b = false <-> exists e, assert_as_valid E msg key sig ec hf = Err e)) /\
  (forall (E : Env) (ec : Curve) (hf : HashF) (sig : DSASig) (key : Key E)
          (msg : Msg E) (e : exn),
      reduce_to_hlen E msg hf = Err e ->
      verify E msg key sig ec hf = Err e) /\
  (forall (ec : Curve) (hf : HashF) (sig : DSASig) (key : Point),
      verify plain_env (PyStr [0xD800]) key sig ec hf
      = Err (Raise PyUnicodeEncodeError "surrogates not allowed")).
Proof.
  assert (H : forall (E : Env) ec hf sig (key : Key E) (m : Octets),
      exists b : bool,
        _verify E m key sig ec hf = Ok b /\
        (b = false <-> exists e, _assert_as_valid E m key sig ec hf = Err e)).
  { intros E ec hf sig key m. unfold _verify, try_except_Exception.
    destruct (_assert_as_valid E m key sig ec hf) as [[]|e]; cbn [bind].
    - exists true. split; [reflexivity|]. split; [discriminate|].
      intros [e He]. discriminate.
    - exists false. split; [reflexivity|]. split; [|reflexivity].
      intros _. exists e. reflexivity. }
  split; [exact H|]. split; [|split].
  - intros E ec hf sig key msg m Hm. unfold verify, assert_as_valid.
    rewrite Hm. cbn [bind]. apply H.
  - intros E ec hf sig key msg e Hm. unfold verify. rewrite Hm. reflexivity.
  - intros ec hf sig key. reflexivity.
Qed.

End DsaFacts.

(** ** ECDSA on concrete curves *)

Module DsaExamples.
Import numbertheory curve dsa DsaFacts.


(** C1. [__sign] with [low_s=True] on secp256k1, for the private key 1, the
    nonce 1 and the challenge [c] below: the computed [s] is [(n+1)/2],
    above [n/2], and it is returned as it is.  The test [s > ec.n / 2]
    compares with the float [n / 2], which is [2^255] for this [n]. *)
Theorem sign_low_s_above_half :
  let c := 2829781596380754042206773609175419600168178685759858015802394210369964017929 in
  let s := 57896044618658097711785492504343953926418782139537452191302581570759080747169 in
  (0 <= c < n secp256k1) /\
  pyfloat.int_truediv (n secp256k1) 2 = Ok (S754_finite false 4503599627370496 203) /\
  __sign c 1 1 true secp256k1 = Ok (Gx secp256k1, s) /\
  n secp256k1 < 2 * s /\
  __sign c 1 1 false secp256k1 = Ok (Gx secp256k1, s).
Proof.
  cbv zeta. split; [split; vm_compute; [discriminate|reflexivity]|].
  split; [vm_compute; reflexivity|].
  split; [vm_compute; reflexivity|].
  split; vm_compute; reflexivity.
Qed.

(** C2, the counterexample: two signatures with the same [r] and different
    [s] over the same message, hence the same challenge: [_crack_prvkey] and
    [crack_prvkey] return a pair, with the nonce 0. *)
Lemma crack_prvkey_same_challenge :
  let m := digest_of_byte x00 in
  _challenge plain_env (OBytes m) secp256k1 pad32 = Ok 0 /\
  _crack_prvkey plain_env (OBytes m) (SigTuple 1 1) (OBytes m) (SigTuple 1 2)
    secp256k1 pad32 = Ok (0, 0) /\
  crack_prvkey plain_env (PyBytes m) (SigTuple 1 1) (PyBytes m) (SigTuple 1 2)
    secp256k1 pad32 = Ok (0, 0).
Proof.
  cbv zeta. split; [vm_compute; reflexivity|].
  split; vm_compute; reflexivity.
Qed.

Lemma crack_prvkey_rejects_witness :
  (forall m_1 m_2, exists msg,
      _crack_prvkey plain_env m_1 (SigTuple 1 1) m_2 (SigTuple 2 1) secp256k1 pad32
      = Err (Raise BTClibValueError msg)) /\
  (forall msg1 msg2, exists e,
      crack_prvkey plain_env msg1 (SigTuple 1 1) msg2 (SigTuple 2 1) secp256k1 pad32
      = Err e /\
      (forall m_1 m_2,
         reduce_to_hlen plain_env msg1 pad32 = Ok m_1 ->
         reduce_to_hlen plain_env msg2 pad32 = Ok m_2 ->
         exn_cls e = BTClibValueError)).
Proof.
  apply (crack_prvkey_rejects plain_env secp256k1 pad32
           (SigTuple 1 1) (SigTuple 2 1) 1 1 2 1);
    [vm_compute; reflexivity | vm_compute; reflexivity | left; lia].
Defined.


(** The condition on [s_i] is needed.  With low-s, the key 3 and the nonce
    1 sign the challenges 0 and 5 as (5, 2) and (5, 6), the second [s] being
    13 - 7: from these two signatures [_crack_prvkey] returns another
    pair. *)
Lemma crack_prvkey_after_low_s :
  __sign 0 3 1 true ec11_13 = Ok (5, 2) /\
  __sign 5 3 1 false ec11_13 = Ok (5, 7) /\
  __sign 5 3 1 true ec11_13 = Ok (5, 6) /\
  _crack_prvkey plain_env (OBytes (digest_of_byte x00)) (SigTuple 5 2)
    (OBytes (digest_of_byte x50)) (SigTuple 5 6) ec11_13 pad32 = Ok (7, 11).
Proof.
  repeat split; vm_compute; reflexivity.
Qed.

End DsaExamples.

(** ** Key recovery on a curve with a cofactor *)

Module RecoverExample.
Import numbertheory curve dsa.

(** C5. On secp112r2 (cofactor 4), the signature (r, r) of the challenge 0
    by the key 2 with the nonce 2, whose point 2G has [x_K = r + 2n]: the
    enumeration of [__recover_pubkeys] has six keys, at position 2 the
    candidate of (j=1, even root), at position 4 the public key 2G, the
    candidate of (j=2, even root).  [__recover_pubkey] with [key_id = 2]
    succeeds and returns 2G, the key at position 4, not the one at
    position 2; with [key_id = 4] it fails. *)
Theorem recover_pubkey_key_id_2 :
  let c := 0 in
  let r := 1033404100128519781624491030485357 in
  let s := 1033404100128519781624491030485357 in
  let Q2 := (3259246712675377131559956460059139,
             2689094151121025183363876896013750, 1) in
  let Q1 := (2146325406401948456592223745272248,
             2747992567137913227624221881968514, 1) in
  __sign c 2 2 false secp112r2 = Ok (r, s) /\
  _mult 2 (GJ secp112r2) secp112r2 = Ok Q2 /\
  __recover_pubkey 2 c r s secp112r2 = Ok Q2 /\
  candidate 2 c r s secp112r2 = Ok Q1 /\
  candidate 4 c r s secp112r2 = Ok Q2 /\
  __recover_pubkey 4 c r s secp112r2 = Err (Raise BTClibValueError "no root") /\
  __recover_pubkeys c r s secp112r2
    = Ok [(1033404100128519781624491030485357,
           2896264249217681539057148336842908, 1);
          (1033404100128519781624491030485357,
           1555420975876033233027449936705519, 1);
          Q1;
          (2146325406401948456592223745272248,
           1703692657955801544460376391579913, 1);
          Q2;
          (3259246712675377131559956460059139,
           1762591073972689588720721377534677, 1)].
Proof.
  cbv zeta.
  split; [vm_compute; reflexivity|].
  split; [vm_compute; reflexivity|].
  split; [vm_compute; reflexivity|].
  split; [vm_compute; reflexivity|].
  split; [vm_compute; reflexivity|].
  split; vm_compute; reflexivity.
Qed.

End RecoverExample.

(** ** Var-ints, var-bytes, witness streams and maps *)

Module WireFacts.
Import dict wire.

Lemma Z_of_byte_of_Z (z : Z) : Z_of_byte (byte_of_Z z) = z mod 256.
Proof.
  unfold Z_of_byte, byte_of_Z.
  pose proof (Z.mod_pos_bound z 256 ltac:(lia)) as Hb.
  pose proof (Byte.to_of_N_option_map (Z.to_N (z mod 256))) as H.
  destruct (N.leb_spec (Z.to_N (z mod 256)) 255) as [_|Hgt]; [|lia].
  destruct (Byte.of_N (Z.to_N (z mod 256))) as [b|]; [|discriminate].
  cbn in H. injection H as ->. lia.
Qed.

Lemma le_digits_length (len : nat) (z : Z) : List.length (le_digits len z) = len.
Proof.
  revert z. induction len as [|len IH]; intros z; cbn; [reflexivity|].
  rewrite IH. reflexivity.
Qed.

Lemma int_from_le_digits (len : nat) (z : Z) :
  int_from_bytes_le (le_digits len z) = z mod 256 ^ Z.of_nat len.
Proof.
  revert z. induction len as [|len IH]; intros z.
  - cbn. rewrite Z.mod_1_r. reflexivity.
  - cbn [le_digits int_from_bytes_le]. rewrite Z_of_byte_of_Z, IH.
    rewrite Nat2Z.inj_succ, Z.pow_succ_r by lia.
    rewrite Z.rem_mul_r by (try apply Z.pow_pos_nonneg; lia). reflexivity.
Qed.

Lemma to_bytes_le_inv (len : nat) (z : Z) (b : bytes) :
  to_bytes_le len z = Ok b ->
  List.length b = len /\ int_from_bytes_le b = z /\ 0 <= z < 256 ^ Z.of_nat len.
Proof.
  unfold to_bytes_le. destruct (Z.ltb_spec z 0); [discriminate|].
  destruct (Z.leb_spec (256 ^ Z.of_nat len) z); [discriminate|].
  intros Hb. injection Hb as <-. split; [apply le_digits_length|].
  split; [|lia]. rewrite int_from_le_digits. apply Z.mod_small. lia.
Qed.

Lemma stream_read_app (body rest : bytes) :
  stream_read (List.length body) (body ++ rest) = (body, rest).
Proof.
  unfold stream_read. rewrite firstn_app, skipn_app, Nat.sub_diag.
  rewrite firstn_all, skipn_all. cbn. rewrite app_nil_r. reflexivity.
Qed.

(** Decoding what [varint.encode] wrote gives the integer back and leaves
    the rest of the stream. *)
Lemma varint_round_trip (i : Z) (enc rest : bytes) :
  varint.encode i = Ok enc ->
  varint.decode (enc ++ rest) = Ok (i, rest) /\
  exists b t, enc = b :: t /\ (i <> 0 -> Z_of_byte b <> 0).
Proof.
  unfold varint.encode. destruct (Z.ltb_spec i 0); [discriminate|].
  assert (Hwide : forall (w : nat) (tag : byte) body,
            to_bytes_le w i = Ok body ->
            (let '(b, r) := stream_read w (body ++ rest) in
             if (List.length b =? w)%nat then Ok (int_from_bytes_le b, r)
             else raise BTClibValueError "not enough data")
            = Ok (i, rest)).
  { intros w tag body Hb. apply to_bytes_le_inv in Hb.
    destruct Hb as (Hl & Hv & _). rewrite <- Hl, stream_read_app.
    rewrite Nat.eqb_refl, Hv. reflexivity. }
  destruct (Z.ltb_spec i 253).
  { intros Hb. pose proof Hb as Hb'. apply to_bytes_le_inv in Hb'.
    unfold to_bytes_le in Hb. destruct (i <? 0); [discriminate|].
    destruct (256 ^ Z.of_nat 1 <=? i); [discriminate|].
    injection Hb as <-. cbn [le_digits app varint.decode].
    rewrite Z_of_byte_of_Z, Z.mod_small by lia.
    destruct (Z.eqb_spec i 253); [lia|]. destruct (Z.eqb_spec i 254); [lia|].
    destruct (Z.eqb_spec i 255); [lia|]. split; [reflexivity|].
    eexists _, _. split; [reflexivity|].
    rewrite Z_of_byte_of_Z, Z.mod_small by lia. auto. }
  destruct (Z.ltb_spec i 65536).
  { intros Hb. apply bind_ok in Hb. destruct Hb as (body & Hb & Henc).
    injection Henc as <-. cbn [app varint.decode].
    change (Z_of_byte xfd) with 253. cbn [Z.eqb Pos.eqb].
    rewrite (Hwide 2%nat xfd body Hb). split; [reflexivity|].
    eexists _, _. split; [reflexivity|]. intros _. discriminate. }
  destruct (Z.ltb_spec i 4294967296).
  { intros Hb. apply bind_ok in Hb. destruct Hb as (body & Hb & Henc).
    injection Henc as <-. cbn [app varint.decode].
    change (Z_of_byte xfe) with 254. cbn [Z.eqb Pos.eqb].
    rewrite (Hwide 4%nat xfe body Hb). split; [reflexivity|].
    eexists _, _. split; [reflexivity|]. intros _. discriminate. }
  destruct (Z.ltb_spec i 18446744073709551616); [|discriminate].
  intros Hb. apply bind_ok in Hb. destruct Hb as (body & Hb & Henc).
  injection Henc as <-. cbn [app varint.decode].
  change (Z_of_byte xff) with 255. cbn [Z.eqb Pos.eqb].
  rewrite (Hwide 8%nat xff body Hb). split; [reflexivity|].
  eexists _, _. split; [reflexivity|]. intros _. discriminate.
Qed.

(** Decoding what [varbytes.encode] wrote gives the payload back and leaves
    the rest of the stream; the encoding of a payload that is not empty
    does not start with a zero byte. *)
Lemma varbytes_round_trip (payload enc rest : bytes) :
  varbytes.encode payload = Ok enc ->
  varbytes.decode (enc ++ rest) = Ok (payload, rest) /\
  exists b t, enc = b :: t /\ (payload <> [] -> Z_of_byte b <> 0).
Proof.
  unfold varbytes.encode. intros H. apply bind_ok in H.
  destruct H as (prefix & Hp & Henc). injection Henc as <-.
  destruct (varint_round_trip _ _ (payload ++ rest) Hp) as (Hdec & b & t & -> & Hnz).
  split.
  - unfold varbytes.decode. rewrite <- app_assoc, Hdec. cbn [bind].
    rewrite Nat2Z.id, stream_read_app, Z.eqb_refl. reflexivity.
  - exists b, (t ++ payload). split; [reflexivity|].
    intros Hne. apply Hnz. destruct payload; [contradiction|]. cbn. lia.
Qed.

(** [TxOut]: deserializing the serialization gives the output back. *)
Lemma txout_round_trip (o : TxOut.t) (b : bytes) :
  TxOut.serialize o true = Ok b -> TxOut.deserialize b true = Ok o.
Proof.
  unfold TxOut.serialize. intros H.
  apply bind_ok in H. destruct H as ([] & Hv & H).
  apply bind_ok in H. destruct H as (out & Hout & H).
  apply bind_ok in H. destruct H as (spk & Hspk & H). injection H as <-.
  apply to_bytes_le_inv in Hout. destruct Hout as (Hl & Hval & _).
  destruct (varbytes_round_trip _ _ [] Hspk) as (Hdec & _).
  rewrite app_nil_r in Hdec.
  unfold TxOut.deserialize. rewrite <- Hl, stream_read_app, Hdec. cbn [bind].
  rewrite Hval. destruct o as [v s]. cbn [TxOut.value TxOut.script_pubkey] in *.
  rewrite Hv. reflexivity.
Qed.

Lemma map_result_ok {A B : Type} (f : A -> result B) (l : list A) (r : list B) :
  map_result f l = Ok r -> Forall2 (fun x y => f x = Ok y) l r.
Proof.
  revert r. induction l as [|x t IH]; intros r H.
  - injection H as <-. constructor.
  - cbn [map_result] in H. apply bind_ok in H. destruct H as (y & Hy & H).
    apply bind_ok in H. destruct H as (ys & Hys & H). injection H as <-.
    constructor; auto.
Qed.

Lemma read_items_round_trip (w : list bytes) (items : list bytes) (rest : bytes) :
  Forall2 (fun x y => varbytes.encode x = Ok y) w items ->
  read_items (List.length w) (List.concat items ++ rest) = Ok w.
Proof.
  intros H. induction H as [|x y w' items' Hxy _ IH].
  - reflexivity.
  - cbn [List.length read_items List.concat]. rewrite <- app_assoc.
    destruct (varbytes_round_trip _ _ (List.concat items' ++ rest) Hxy) as [-> _].
    cbn [bind]. rewrite IH. reflexivity.
Qed.

(** The witness stream: deserializing the serialization gives the witness
    back. *)
Lemma witness_round_trip (w : list bytes) (b : bytes) :
  witness_serialize w = Ok b -> witness_deserialize b = Ok w.
Proof.
  unfold witness_serialize. intros H.
  apply bind_ok in H. destruct H as (count & Hc & H).
  apply bind_ok in H. destruct H as (items & Hi & H). injection H as <-.
  destruct (varint_round_trip _ _ (List.concat items) Hc) as [Hdec _].
  unfold witness_deserialize. rewrite Hdec. cbn [bind]. rewrite Nat2Z.id.
  rewrite <- (app_nil_r (List.concat items)).
  apply read_items_round_trip. apply map_result_ok. assumption.
Qed.

Lemma mem_spec (k : bytes) (d : Dict) : mem k d = true <-> In k (keys d).
Proof.
  induction d as [|[k' v] t IH]; cbn.
  - split; [discriminate|contradiction].
  - unfold bytes_eqb. destruct (list_eq_dec Byte.byte_eq_dec k k') as [->|Hne]; cbn.
    + split; auto.
    + rewrite IH. split; [auto|]. intros [Heq|Hin]; [congruence|assumption].
Qed.

Lemma encode_items_cons (kv : bytes * bytes) (d : Dict) (c : bytes) :
  encode_items (kv :: d) = Ok c ->
  exists k v c',
    varbytes.encode (fst kv) = Ok k /\ varbytes.encode (snd kv) = Ok v /\
    encode_items d = Ok c' /\ c = k ++ v ++ c'.
Proof.
  unfold encode_items. cbn [map_result]. intros H.
  apply bind_ok in H. destruct H as (rs & H & Hc). injection Hc as <-.
  apply bind_ok in H. destruct H as (r & Hr & H).
  apply bind_ok in H. destruct H as (rs' & Hrs & H). injection H as <-.
  unfold encode_item in Hr. apply bind_ok in Hr. destruct Hr as (k & Hk & Hr).
  apply bind_ok in Hr. destruct Hr as (v & Hv & Hr). injection Hr as <-.
  exists k, v, (List.concat rs'). rewrite Hrs. cbn [bind List.concat].
  rewrite <- app_assoc. auto.
Qed.

Lemma encode_items_app (d1 d2 : Dict) (c1 c2 : bytes) :
  encode_items d1 = Ok c1 -> encode_items d2 = Ok c2 ->
  encode_items (d1 ++ d2) = Ok (c1 ++ c2).
Proof.
  revert c1. induction d1 as [|kv t IH]; intros c1 H1 H2.
  - injection H1 as <-. exact H2.
  - destruct (encode_items_cons _ _ _ H1) as (k & v & c' & Hk & Hv & Hc' & ->).
    specialize (IH _ Hc' H2). cbn [app].
    unfold encode_items in *. cbn [map_result]. unfold encode_item at 1.
    rewrite Hk, Hv. cbn [bind].
    apply bind_ok in IH. destruct IH as (rs & -> & Hrs). injection Hrs as Hrs.
    cbn [bind List.concat]. rewrite Hrs, <- !app_assoc. reflexivity.
Qed.

(** The reader of a map, on the records of items with distinct keys that
    are not empty, followed by the separator: it returns the items. *)
Lemma read_map_round_trip (d : Dict) :
  forall (c tail : bytes) (acc : Dict) (fuel : nat),
    encode_items d = Ok c ->
    Forall (fun k => k <> []) (keys d) ->
    NoDup (keys acc ++ keys d) ->
    (List.length c < fuel)%nat ->
    read_map fuel (c ++ x00 :: tail) acc = Ok (acc ++ d, tail).
Proof.
  induction d as [|[key value] t IH]; intros c tail acc fuel Hc Hne Hnd Hfuel.
  - injection Hc as <-. destruct fuel as [|f]; [cbn in Hfuel; lia|].
    cbn. rewrite app_nil_r. reflexivity.
  - destruct (encode_items_cons _ _ _ Hc) as (k & v & c' & Hk & Hv & Hc' & ->).
    cbn [fst snd] in Hk, Hv.
    inversion Hne as [|? ? Hkey Hne']; subst.
    destruct (varbytes_round_trip _ _ (v ++ c' ++ x00 :: tail) Hk)
      as (Hdk & b & kt & -> & Hb).
    destruct (varbytes_round_trip _ _ (c' ++ x00 :: tail) Hv) as (Hdv & _).
    destruct fuel as [|f]; [cbn in Hfuel; lia|].
    replace (((b :: kt) ++ v ++ c') ++ x00 :: tail)
      with (b :: kt ++ v ++ c' ++ x00 :: tail)
      by (cbn [app]; rewrite <- !app_assoc; reflexivity).
    cbn [read_map].
    destruct (Z.eqb_spec (Z_of_byte b) 0) as [Hz|_]; [exfalso; apply (Hb Hkey Hz)|].
    cbn [app] in Hdk. rewrite Hdk. cbn [bind].
    rewrite Hdv. cbn [bind].
    assert (Hmem : mem key acc = false).
    { destruct (mem key acc) eqn:Hm; [|reflexivity]. exfalso.
      apply mem_spec in Hm. cbn [keys map fst] in Hnd.
      apply NoDup_remove_2 in Hnd. apply Hnd. apply in_or_app. left. exact Hm. }
    rewrite Hmem. cbn [negb assert bind].
    rewrite (IH c' tail (acc ++ [(key, value)]) f Hc' Hne').
    + rewrite <- app_assoc. reflexivity.
    + unfold keys in *. rewrite map_app. cbn [map fst]. rewrite <- app_assoc.
      exact Hnd.
    + rewrite !length_app in Hfuel. cbn [List.length] in Hfuel. lia.
Qed.

End WireFacts.

(** ** PSBT input maps *)

Module PsbtFacts.
Import dict wire psbt_in WireFacts.

(** Evaluates the comparisons of two given type bytes. *)
Ltac eval_type_tests :=
  repeat match goal with
  | |- context [bytes_eqb [?a] ?m] =>
      let v := eval vm_compute in (bytes_eqb [a] m) in
      change (bytes_eqb [a] m) with v
  end.

Section WithEnv.
Context (E : Env).

#[local] Abbreviation PsbtIn := (psbt_in.PsbtIn E).

Lemma deserialize_items_app (a b : Dict) :
  forall out : PsbtIn,
    deserialize_items E out (a ++ b) =
    bind (deserialize_items E out a) (fun out' => deserialize_items E out' b).
Proof.
  induction a as [|[k v] t IH]; intros out; [reflexivity|].
  cbn [app deserialize_items]. destruct (deserialize_item E out k v); cbn [bind].
  - apply IH.
  - reflexivity.
Qed.

(** *** What [deserialize] does with an item of each type *)

Lemma item_fixed (t : byte) (out : PsbtIn) (v : bytes) :
  deserialize_item E out [t] v =
  match t with
  | x00 => tx <- Tx_deserialize E v ;; Ok (set_non_witness_utxo E (Some tx) out)
  | x01 => o <- TxOut.deserialize v true ;; Ok (set_witness_utxo E (Some o) out)
  | x03 => _ <- assert (List.length v =? 4)%nat EmptyString ;;
           Ok (set_sighash E (Some (int_from_bytes_le v)) out)
  | x04 => Ok (set_redeem_script E v out)
  | x05 => Ok (set_witness_script E v out)
  | x07 => Ok (set_final_script_sig E v out)
  | x08 => w <- witness_deserialize v ;; Ok (set_final_script_witness E w out)
  | x09 => s <- bytes_decode E v ;; Ok (set_por_commitment E (Some s) out)
  | _ => deserialize_item E out [t] v
  end.
Proof.
  destruct t; try reflexivity.
Qed.

Lemma item_tagged (t : byte) (out : PsbtIn) (k v : bytes) :
  pubkey_length k ->
  deserialize_item E out (t :: k) v =
  match t with
  | x02 => Ok (set_partial_signatures E (dict.set k v (partial_signatures out)) out)
  | x06 => Ok (set_bip32_derivs E (dict.set k v (bip32_derivs out)) out)
  | _ => deserialize_item E out (t :: k) v
  end.
Proof.
  intros Hk.
  assert (Hlen : key_length_is (t :: k) [34%nat; 66%nat] "invalid pubkey length" = Ok tt).
  { unfold key_length_is. cbn [List.length existsb].
    destruct Hk as [-> | ->]; reflexivity. }
  destruct t; try reflexivity;
    unfold deserialize_item; cbn [firstn skipn]; eval_type_tests; cbv iota;
    rewrite Hlen; reflexivity.
Qed.

Lemma item_unknown (out : PsbtIn) (k v : bytes) :
  recognized k = false ->
  deserialize_item E out k v = Ok (set_unknown E (dict.set k v (unknown out)) out).
Proof.
  unfold recognized, deserialize_item. intros H.
  repeat (apply orb_false_iff in H; destruct H as [H ?]).
  repeat match goal with Hf : bytes_eqb _ _ = false |- _ => rewrite Hf; clear Hf end.
  reflexivity.
Qed.

(** *** Dictionaries filled item by item *)

Lemma set_new (k v : bytes) (d : Dict) :
  ~ In k (keys d) -> dict.set k v d = d ++ [(k, v)].
Proof.
  induction d as [|[k' v'] t IH]; intros Hn; [reflexivity|].
  cbn [dict.set]. unfold bytes_eqb.
  destruct (list_eq_dec Byte.byte_eq_dec k k') as [->|_].
  - exfalso. apply Hn. left. reflexivity.
  - cbn [app]. rewrite IH; [reflexivity|]. intros Hin. apply Hn. right. exact Hin.
Qed.

Lemma nodup_app_cons (a : list bytes) (k : bytes) (t : list bytes) :
  NoDup (a ++ k :: t) -> ~ In k a /\ NoDup ((a ++ [k]) ++ t).
Proof.
  intros H. split.
  - apply NoDup_remove_2 in H. intros Hin. apply H. apply in_or_app. left. exact Hin.
  - rewrite <- app_assoc. exact H.
Qed.

Lemma keys_app (a b : Dict) : keys (a ++ b) = keys a ++ keys b.
Proof. apply map_app. Qed.

Lemma items_partial_sigs (d : Dict) :
  forall out : PsbtIn,
    Forall pubkey_length (keys d) ->
    NoDup (keys (partial_signatures out) ++ keys d) ->
    deserialize_items E out (tagged PSBT_IN_PARTIAL_SIG d) =
    Ok (set_partial_signatures E (partial_signatures out ++ d) out).
Proof.
  induction d as [|[k v] t IH]; intros out Hlen Hnd.
  - cbn. rewrite app_nil_r. destruct out; reflexivity.
  - inversion Hlen as [|? ? Hk Hlen']; subst.
    cbn [keys map fst] in Hnd. apply nodup_app_cons in Hnd. destruct Hnd as [Hnew Hnd].
    cbn [tagged map fst snd deserialize_items PSBT_IN_PARTIAL_SIG app].
    rewrite (item_tagged x02 out k v Hk). cbn [bind].
    rewrite (set_new k v _ Hnew). rewrite IH.
    + cbn. rewrite <- app_assoc. reflexivity.
    + exact Hlen'.
    + cbn. rewrite keys_app. exact Hnd.
Qed.

Lemma items_bip32 (d : Dict) :
  forall out : PsbtIn,
    Forall pubkey_length (keys d) ->
    NoDup (keys (bip32_derivs out) ++ keys d) ->
    deserialize_items E out (tagged PSBT_IN_BIP32_DERIVATION d) =
    Ok (set_bip32_derivs E (bip32_derivs out ++ d) out).
Proof.
  induction d as [|[k v] t IH]; intros out Hlen Hnd.
  - cbn. rewrite app_nil_r. destruct out; reflexivity.
  - inversion Hlen as [|? ? Hk Hlen']; subst.
    cbn [keys map fst] in Hnd. apply nodup_app_cons in Hnd. destruct Hnd as [Hnew Hnd].
    cbn [tagged map fst snd deserialize_items PSBT_IN_BIP32_DERIVATION app].
    rewrite (item_tagged x06 out k v Hk). cbn [bind].
    rewrite (set_new k v _ Hnew). rewrite IH.
    + cbn. rewrite <- app_assoc. reflexivity.
    + exact Hlen'.
    + cbn. rewrite keys_app. exact Hnd.
Qed.

Lemma items_unknown (d : Dict) :
  forall out : PsbtIn,
    unknown_keys_ok d = true ->
    NoDup (keys (unknown out) ++ keys d) ->
    deserialize_items E out d = Ok (set_unknown E (unknown out ++ d) out).
Proof.
  induction d as [|[k v] t IH]; intros out Hok Hnd.
  - cbn. rewrite app_nil_r. destruct out; reflexivity.
  - cbn [unknown_keys_ok forallb fst] in Hok.
    apply andb_true_iff in Hok. destruct Hok as [Hk Hok].
    apply andb_true_iff in Hk. destruct Hk as [_ Hk].
    apply negb_true_iff in Hk.
    cbn [keys map fst] in Hnd. apply nodup_app_cons in Hnd. destruct Hnd as [Hnew Hnd].
    cbn [deserialize_items]. rewrite (item_unknown out k v Hk). cbn [bind].
    rewrite (set_new k v _ Hnew). rewrite IH.
    + cbn. rewrite <- app_assoc. reflexivity.
    + exact Hok.
    + cbn. rewrite keys_app. exact Hnd.
Qed.

Lemma items_script (t : byte) (out : PsbtIn) (v : bytes) :
  deserialize_items E out (script_item [t] v) =
  if is_empty v then Ok out else deserialize_item E out [t] v.
Proof.
  unfold script_item. destruct v; [reflexivity|].
  cbn [is_empty deserialize_items].
  destruct (deserialize_item E out [t] (b :: v)); reflexivity.
Qed.

(** *** What a valid input map satisfies *)

Lemma valid_partial_signatures (L : EnvLaws E) (d : Dict) :
  _assert_valid_partial_signatures E d = Ok tt -> Forall pubkey_length (keys d).
Proof.
  unfold _assert_valid_partial_signatures.
  induction d as [|[k v] t IH]; intros H; [constructor|].
  cbn [for_each] in H. apply bind_ok in H. destruct H as ([] & Hkv & Ht).
  apply bind_ok in Hkv. destruct Hkv as (P & HP & _).
  constructor; [|apply IH; exact Ht].
  exact (point_length E L _ _ HP).
Qed.

Lemma assert_valid_inv (L : EnvLaws E) (x : PsbtIn) :
  assert_valid E x = Ok tt ->
  Forall pubkey_length (keys (partial_signatures x)) /\
  (forall s, por_commitment x = Some s -> str_is_empty E s = false) /\
  (forall tx, non_witness_utxo x = Some tx -> Tx_assert_valid E tx = Ok tt) /\
  (forall o, witness_utxo x = Some o -> TxOut.assert_valid o = Ok tt).
Proof.
  unfold assert_valid. intros H.
  apply bind_ok in H. destruct H as ([] & Htx & H).
  apply bind_ok in H. destruct H as ([] & Ho & H).
  apply bind_ok in H. destruct H as ([] & Hsh & H).
  apply bind_ok in H. destruct H as ([] & Hpor & H).
  apply bind_ok in H. destruct H as ([] & Hps & H).
  apply bind_ok in H. destruct H as ([] & Hbip & H).
  split; [apply (valid_partial_signatures L), Hps|].
  split; [|split].
  - intros s Hs. rewrite Hs in Hpor.
    apply bind_ok in Hpor. destruct Hpor as (b & Hb & Hne).
    rewrite (str_empty E L _ _ Hb). unfold assert, bytes_eqb in Hne.
    destruct (list_eq_dec Byte.byte_eq_dec b []) as [|Hnil]; [discriminate|].
    destruct b; [contradiction|reflexivity].
  - intros tx Hx. rewrite Hx in Htx. exact Htx.
  - intros o Hx. rewrite Hx in Ho. exact Ho.
Qed.

(** C8 (amended). [assert_valid] checks the two fields each on its own: in
    an accepted input map a [non_witness_utxo] that is set is a valid
    transaction and a [witness_utxo] that is set is a valid output, and no
    check relates the two: an accepted input map stays accepted when both
    fields are set, to any valid transaction and any valid output. *)
Theorem assert_valid_utxos (x : PsbtIn) :
  assert_valid E x = Ok tt ->
  (forall tx, non_witness_utxo x = Some tx -> Tx_assert_valid E tx = Ok tt) /\
  (forall o, witness_utxo x = Some o -> TxOut.assert_valid o = Ok tt) /\
  (forall tx o,
     Tx_assert_valid E tx = Ok tt -> TxOut.assert_valid o = Ok tt ->
     assert_valid E
       (set_non_witness_utxo E (Some tx) (set_witness_utxo E (Some o) x))
     = Ok tt).
Proof.
  unfold assert_valid. intros H.
  apply bind_ok in H. destruct H as ([] & Htx & H).
  apply bind_ok in H. destruct H as ([] & Ho & H).
  split; [|split].
  - intros tx Hx. rewrite Hx in Htx. exact Htx.
  - intros o Hx. rewrite Hx in Ho. exact Ho.
  - intros tx o Vtx Vo. destruct x.
    cbn [set_non_witness_utxo set_witness_utxo non_witness_utxo witness_utxo
         partial_signatures sighash redeem_script witness_script bip32_derivs
         final_script_sig final_script_witness por_commitment proprietary
         unknown] in *.
    rewrite Vtx, Vo. exact H.
Qed.

(** *** The items of [serialize], read by [deserialize] *)

Lemma chunk_non_witness_utxo (L : EnvLaws E) (v : option (Tx E)) (i : Dict)
    (out : PsbtIn) :
  match v with
  | Some tx => b <- Tx_serialize E tx ;; Ok [(PSBT_IN_NON_WITNESS_UTXO, b)]
  | None => Ok []
  end = Ok i ->
  non_witness_utxo out = None ->
  deserialize_items E out i = Ok (set_non_witness_utxo E v out).
Proof.
  intros H Hout. destruct v as [tx|].
  - apply bind_ok in H. destruct H as (b & Hb & H). injection H as <-.
    unfold PSBT_IN_NON_WITNESS_UTXO. cbn [deserialize_items]. rewrite item_fixed.
    rewrite (tx_round_trip E L _ _ Hb). reflexivity.
  - injection H as <-. destruct out. cbn in Hout. subst. reflexivity.
Qed.

Lemma chunk_witness_utxo (v : option TxOut.t) (i : Dict) (out : PsbtIn) :
  match v with
  | Some o => b <- TxOut.serialize o true ;; Ok [(PSBT_IN_WITNESS_UTXO, b)]
  | None => Ok []
  end = Ok i ->
  witness_utxo out = None ->
  deserialize_items E out i = Ok (set_witness_utxo E v out).
Proof.
  intros H Hout. destruct v as [o|].
  - apply bind_ok in H. destruct H as (b & Hb & H). injection H as <-.
    unfold PSBT_IN_WITNESS_UTXO. cbn [deserialize_items]. rewrite item_fixed.
    rewrite (txout_round_trip _ _ Hb). reflexivity.
  - injection H as <-. destruct out. cbn in Hout. subst. reflexivity.
Qed.

Lemma chunk_sighash (v : option Z) (i : Dict) (out : PsbtIn) :
  match v with
  | Some h =>
      if h =? 0 then Ok []
      else b <- to_bytes_le 4 h ;; Ok [(PSBT_IN_SIGHASH_TYPE, b)]
  | None => Ok []
  end = Ok i ->
  v <> Some 0 -> sighash out = None ->
  deserialize_items E out i = Ok (set_sighash E v out).
Proof.
  intros H Hnz Hout. destruct v as [h|].
  - destruct (Z.eqb_spec h 0) as [->|_]; [congruence|].
    apply bind_ok in H. destruct H as (b & Hb & H). injection H as <-.
    apply to_bytes_le_inv in Hb. destruct Hb as (Hl & Hv & _).
    unfold PSBT_IN_SIGHASH_TYPE. cbn [deserialize_items]. rewrite item_fixed.
    rewrite Hl, Hv. reflexivity.
  - injection H as <-. destruct out. cbn in Hout. subst. reflexivity.
Qed.

Lemma chunk_script (t : byte) (set : bytes -> PsbtIn -> PsbtIn)
    (get : PsbtIn -> bytes) (v : bytes) (out : PsbtIn) :
  (forall w, deserialize_item E out [t] w = Ok (set w out)) ->
  get out = [] -> set (get out) out = out ->
  deserialize_items E out (script_item [t] v) = Ok (set v out).
Proof.
  intros Hitem Hget Hset. rewrite items_script. destruct v as [|b v'].
  - cbn [is_empty]. rewrite <- Hget, Hset. reflexivity.
  - cbn [is_empty]. apply Hitem.
Qed.

Lemma chunk_final_script_witness (v : list bytes) (i : Dict) (out : PsbtIn) :
  (if is_empty v then Ok []
   else wit <- witness_serialize v ;; Ok [(PSBT_IN_FINAL_SCRIPTWITNESS, wit)])
  = Ok i ->
  final_script_witness out = [] ->
  deserialize_items E out i = Ok (set_final_script_witness E v out).
Proof.
  intros H Hout. destruct v as [|a v'].
  - injection H as <-. destruct out. cbn in Hout. subst. reflexivity.
  - cbn [is_empty] in H. apply bind_ok in H. destruct H as (b & Hb & H).
    injection H as <-.
    unfold PSBT_IN_FINAL_SCRIPTWITNESS. cbn [deserialize_items]. rewrite item_fixed.
    rewrite (witness_round_trip _ _ Hb). reflexivity.
Qed.

Lemma chunk_por_commitment (L : EnvLaws E) (v : option (Str E)) (i : Dict)
    (out : PsbtIn) :
  match v with
  | Some s =>
      if str_is_empty E s then Ok []
      else b <- str_encode E s ;; Ok [(PSBT_IN_POR_COMMITMENT, b)]
  | None => Ok []
  end = Ok i ->
  (forall s, v = Some s -> str_is_empty E s = false) ->
  por_commitment out = None ->
  deserialize_items E out i = Ok (set_por_commitment E v out).
Proof.
  intros H Hne Hout. destruct v as [s|].
  - rewrite (Hne s eq_refl) in H.
    apply bind_ok in H. destruct H as (b & Hb & H). injection H as <-.
    unfold PSBT_IN_POR_COMMITMENT. cbn [deserialize_items]. rewrite item_fixed.
    rewrite (str_round_trip E L _ _ Hb). reflexivity.
  - injection H as <-. destruct out. cbn in Hout. subst. reflexivity.
Qed.

(** [deserialize] on the items of a valid, plain input map gives the map
    back, field by field. *)
Lemma deserialize_items_of (L : EnvLaws E) (x : PsbtIn) (its : Dict) :
  plain E x -> assert_valid E x = Ok tt -> items_of E x = Ok its ->
  deserialize_items E (default E) its = Ok x.
Proof.
  intros (Hnd1 & Hnd2 & Hl2 & Hnd3 & Hunk & Hsh & Hprop) Hvalid Hits.
  destruct (assert_valid_inv L x Hvalid) as (Hl1 & Hpor & _ & _).
  destruct x as [nwu wu ps sh rs ws bip fss fsw por prop unk].
  cbn [non_witness_utxo witness_utxo partial_signatures sighash redeem_script
       witness_script bip32_derivs final_script_sig final_script_witness
       por_commitment proprietary unknown] in *.
  unfold items_of in Hits.
  cbn [non_witness_utxo witness_utxo partial_signatures sighash redeem_script
       witness_script bip32_derivs final_script_sig final_script_witness
       por_commitment proprietary unknown] in Hits.
  apply bind_ok in Hits. destruct Hits as (i1 & H1 & Hits).
  apply bind_ok in Hits. destruct Hits as (i2 & H2 & Hits).
  apply bind_ok in Hits. destruct Hits as (i4 & H4 & Hits).
  apply bind_ok in Hits. destruct Hits as (i8 & H8 & Hits).
  apply bind_ok in Hits. destruct Hits as (i9 & H9 & Hits).
  injection Hits as <-. subst prop.
  rewrite deserialize_items_app.
  rewrite (chunk_non_witness_utxo L nwu i1 _ H1) by reflexivity. cbn [bind].
  rewrite deserialize_items_app.
  rewrite (chunk_witness_utxo wu i2 _ H2) by reflexivity. cbn [bind].
  rewrite deserialize_items_app.
  rewrite items_partial_sigs by assumption. cbn [bind].
  rewrite deserialize_items_app.
  rewrite (chunk_sighash sh i4 _ H4 Hsh) by reflexivity. cbn [bind].
  rewrite deserialize_items_app.
  rewrite (chunk_script x04 (set_redeem_script E) redeem_script rs);
    [|intros w; rewrite item_fixed; reflexivity|reflexivity|reflexivity].
  cbn [bind]. rewrite deserialize_items_app.
  rewrite (chunk_script x05 (set_witness_script E) witness_script ws);
    [|intros w; rewrite item_fixed; reflexivity|reflexivity|reflexivity].
  cbn [bind]. rewrite deserialize_items_app.
  rewrite (chunk_script x07 (set_final_script_sig E) final_script_sig fss);
    [|intros w; rewrite item_fixed; reflexivity|reflexivity|reflexivity].
  cbn [bind]. rewrite deserialize_items_app.
  rewrite (chunk_final_script_witness fsw i8 _ H8) by reflexivity. cbn [bind].
  rewrite deserialize_items_app.
  rewrite (chunk_por_commitment L por i9 _ H9 Hpor) by reflexivity. cbn [bind].
  rewrite deserialize_items_app.
  rewrite items_bip32 by assumption. cbn [bind].
  rewrite items_unknown by assumption.
  reflexivity.
Qed.

(** *** The records of [serialize] are those of its items *)

Lemma varbytes_encode_one (t : byte) : varbytes.encode [t] = Ok [x01; t].
Proof. reflexivity. Qed.

Lemma record_item (t : byte) (v c : bytes) :
  record [t] v = Ok c -> encode_items [([t], v)] = Ok c.
Proof.
  unfold record, encode_items. intros H.
  apply bind_ok in H. destruct H as (e & He & H). injection H as <-.
  cbn [map_result]. unfold encode_item. cbn [fst snd].
  rewrite varbytes_encode_one, He.
  cbn [bind List.concat app]. rewrite app_nil_r. reflexivity.
Qed.

Lemma tagged_nil (d : Dict) : tagged [] d = d.
Proof.
  induction d as [|[k v] t IH]; [reflexivity|].
  cbn [tagged map app fst snd]. f_equal. exact IH.
Qed.

Lemma records_optional {A : Type} (ser : A -> result bytes) (t : byte)
    (v : option A) (o : bytes) :
  match v with
  | Some a => b <- ser a ;; record [t] b
  | None => Ok []
  end = Ok o ->
  exists i,
    match v with
    | Some a => b <- ser a ;; Ok [([t], b)]
    | None => Ok []
    end = Ok i /\ encode_items i = Ok o.
Proof.
  destruct v as [a|]; intros H.
  - apply bind_ok in H. destruct H as (b & Hb & H).
    exists [([t], b)]. rewrite Hb. split; [reflexivity|apply record_item, H].
  - injection H as <-. exists []. split; reflexivity.
Qed.

Lemma records_script (t : byte) (v o : bytes) :
  (if is_empty v then Ok [] else record [t] v) = Ok o ->
  encode_items (script_item [t] v) = Ok o.
Proof.
  unfold script_item. destruct (is_empty v); intros H.
  - injection H as <-. reflexivity.
  - apply record_item, H.
Qed.

Lemma records_dict (m : bytes) (d : Dict) (o : bytes) :
  (if is_empty d then Ok [] else _serialize_dict_bytes_bytes d m) = Ok o ->
  encode_items (tagged m d) = Ok o.
Proof.
  destruct d; intros H; exact H.
Qed.

Lemma records_sighash (v : option Z) (o : bytes) :
  match v with
  | Some h =>
      if h =? 0 then Ok []
      else b <- to_bytes_le 4 h ;; Ok (x01 :: PSBT_IN_SIGHASH_TYPE ++ x04 :: b)
  | None => Ok []
  end = Ok o ->
  exists i,
    match v with
    | Some h =>
        if h =? 0 then Ok []
        else b <- to_bytes_le 4 h ;; Ok [(PSBT_IN_SIGHASH_TYPE, b)]
    | None => Ok []
    end = Ok i /\ encode_items i = Ok o.
Proof.
  destruct v as [h|]; [destruct (h =? 0)|]; intros H;
    try (injection H as <-; exists []; split; reflexivity).
  apply bind_ok in H. destruct H as (b & Hb & H). injection H as <-.
  exists [(PSBT_IN_SIGHASH_TYPE, b)]. rewrite Hb. split; [reflexivity|].
  destruct (to_bytes_le_inv _ _ _ Hb) as (Hlen & _ & _).
  unfold encode_items, PSBT_IN_SIGHASH_TYPE.
  cbn [map_result]. unfold encode_item. cbn [fst snd].
  rewrite varbytes_encode_one.
  unfold varbytes.encode. rewrite Hlen. cbn. rewrite app_nil_r. reflexivity.
Qed.

Lemma records_witness (v : list bytes) (o : bytes) :
  (if is_empty v then Ok []
   else wit <- witness_serialize v ;; record PSBT_IN_FINAL_SCRIPTWITNESS wit)
  = Ok o ->
  exists i,
    (if is_empty v then Ok []
     else wit <- witness_serialize v ;; Ok [(PSBT_IN_FINAL_SCRIPTWITNESS, wit)])
    = Ok i /\ encode_items i = Ok o.
Proof.
  destruct (is_empty v); intros H.
  - injection H as <-. exists []. split; reflexivity.
  - apply bind_ok in H. destruct H as (b & Hb & H).
    exists [(PSBT_IN_FINAL_SCRIPTWITNESS, b)]. rewrite Hb.
    split; [reflexivity|apply record_item, H].
Qed.

Lemma records_por_commitment (v : option (Str E)) (o : bytes) :
  match v with
  | Some s =>
      if str_is_empty E s then Ok []
      else b <- str_encode E s ;; record PSBT_IN_POR_COMMITMENT b
  | None => Ok []
  end = Ok o ->
  exists i,
    match v with
    | Some s =>
        if str_is_empty E s then Ok []
        else b <- str_encode E s ;; Ok [(PSBT_IN_POR_COMMITMENT, b)]
    | None => Ok []
    end = Ok i /\ encode_items i = Ok o.
Proof.
  destruct v as [s|]; [destruct (str_is_empty E s)|]; intros H;
    try (injection H as <-; exists []; split; reflexivity).
  apply bind_ok in H. destruct H as (b & Hb & H).
  exists [(PSBT_IN_POR_COMMITMENT, b)]. rewrite Hb.
  split; [reflexivity|apply record_item, H].
Qed.

(** [serialize] writes the records of [items_of], and what it accepted is
    valid when it was asked to check. *)
Lemma serialize_items (L : EnvLaws E) (x : PsbtIn) (check : bool) (c : bytes) :
  proprietary x = proprietary_default E ->
  serialize E x check = Ok c ->
  (check = true -> assert_valid E x = Ok tt) /\
  exists its, items_of E x = Ok its /\ encode_items its = Ok c.
Proof.
  intros Hprop H. unfold serialize in H.
  apply bind_ok in H. destruct H as ([] & Hv & H).
  split; [intros ->; exact Hv|].
  apply bind_ok in H. destruct H as (o1 & H1 & H).
  apply bind_ok in H. destruct H as (o2 & H2 & H).
  apply bind_ok in H. destruct H as (o3 & H3 & H).
  apply bind_ok in H. destruct H as (o4 & H4 & H).
  apply bind_ok in H. destruct H as (o5 & H5 & H).
  apply bind_ok in H. destruct H as (o6 & H6 & H).
  apply bind_ok in H. destruct H as (o7 & H7 & H).
  apply bind_ok in H. destruct H as (o8 & H8 & H).
  apply bind_ok in H. destruct H as (o9 & H9 & H).
  apply bind_ok in H. destruct H as (o10 & H10 & H).
  apply bind_ok in H. destruct H as (o11 & H11 & H).
  apply bind_ok in H. destruct H as (o12 & H12 & H).
  injection H as <-.
  rewrite Hprop, (default_is_empty E L) in H11. injection H11 as <-.
  apply (records_optional (Tx_serialize E) x00) in H1.
  destruct H1 as (i1 & Hi1 & H1).
  apply (records_optional (fun o => TxOut.serialize o true) x01) in H2.
  destruct H2 as (i2 & Hi2 & H2).
  apply records_dict in H3.
  apply records_sighash in H4. destruct H4 as (i4 & Hi4 & H4).
  apply records_script in H5. apply records_script in H6.
  apply records_script in H7.
  apply records_witness in H8. destruct H8 as (i8 & Hi8 & H8).
  apply records_por_commitment in H9. destruct H9 as (i9 & Hi9 & H9).
  apply records_dict in H10. apply records_dict in H12.
  rewrite tagged_nil in H12.
  eexists. split.
  { unfold items_of.
    eapply bind_intro; [exact Hi1|]. eapply bind_intro; [exact Hi2|].
    eapply bind_intro; [exact Hi4|]. eapply bind_intro; [exact Hi8|].
    eapply bind_intro; [exact Hi9|]. reflexivity. }
  cbn [app].
  repeat (apply encode_items_app; [assumption|]).
  exact H12.
Qed.

(** *** The keys of the items: none is empty, none comes twice *)

Lemma keys_from_app (r : nat) (a b : list bytes) :
  field_keys r a -> keys_from (S r) b -> keys_from r (a ++ b).
Proof.
  intros [Na Fa] [Nb Fb]. rewrite Forall_forall in Fa, Fb. split.
  - induction Na as [|k a Hk Na IH]; [exact Nb|].
    cbn [app]. constructor.
    + rewrite in_app_iff. intros [Hin|Hin]; [contradiction|].
      pose proof (Fa k (or_introl eq_refl)) as [_ Hr].
      pose proof (Fb k Hin) as [_ Hr']. lia.
    + apply IH. intros y Hy. apply Fa. right. exact Hy.
  - apply Forall_forall. intros k Hin. apply in_app_iff in Hin.
    destruct Hin as [Hin|Hin].
    + destruct (Fa k Hin) as [Hne Hr]. split; [exact Hne|lia].
    + destruct (Fb k Hin) as [Hne Hr]. split; [exact Hne|lia].
Qed.

Lemma keys_from_le (r r' : nat) (l : list bytes) :
  (r <= r')%nat -> keys_from r' l -> keys_from r l.
Proof.
  intros Hle [N F]. split; [exact N|].
  eapply Forall_impl; [|exact F]. cbn. intros k [Hne Hr]. split; [exact Hne|lia].
Qed.

Lemma field_keys_optional (t : byte) (i : Dict) :
  i = [] \/ (exists b, i = [([t], b)]) -> field_keys (rank [t]) (keys i).
Proof.
  intros [->|[b ->]]; split; cbn [keys map fst].
  - constructor.
  - constructor.
  - constructor; [intros []|constructor].
  - constructor; [|constructor]. split; [discriminate|reflexivity].
Qed.

Lemma field_keys_script (t : byte) (v : bytes) :
  field_keys (rank [t]) (keys (script_item [t] v)).
Proof.
  apply field_keys_optional. unfold script_item.
  destruct (is_empty v); [left; reflexivity|right; eexists; reflexivity].
Qed.

Lemma keys_tagged (t : byte) (d : Dict) :
  keys (tagged [t] d) = map (cons t) (keys d).
Proof.
  unfold keys, tagged. rewrite !map_map. reflexivity.
Qed.

Lemma field_keys_tagged (t : byte) (d : Dict) :
  NoDup (keys d) -> field_keys (rank [t]) (keys (tagged [t] d)).
Proof.
  intros N. rewrite keys_tagged. split.
  - induction N as [|k l Hk N IH]; cbn [map]; constructor; [|exact IH].
    intros Hin. apply in_map_iff in Hin. destruct Hin as (k' & Heq & Hin).
    injection Heq as ->. contradiction.
  - apply Forall_forall. intros k Hin. apply in_map_iff in Hin.
    destruct Hin as (k' & <- & _). split; [discriminate|reflexivity].
Qed.

Lemma rank_unknown (k : bytes) : recognized k = false -> rank k = 11%nat.
Proof.
  unfold recognized, rank. intros H.
  repeat (apply Bool.orb_false_elim in H; destruct H as [H ?]).
  repeat match goal with Hx : bytes_eqb _ _ = false |- _ => rewrite Hx; clear Hx end.
  reflexivity.
Qed.

Lemma keys_from_unknown (d : Dict) :
  NoDup (keys d) -> unknown_keys_ok d = true -> keys_from 11 (keys d).
Proof.
  intros N Hok. split; [exact N|].
  unfold unknown_keys_ok in Hok. rewrite forallb_forall in Hok.
  apply Forall_forall. intros k Hin. apply in_map_iff in Hin.
  destruct Hin as (kv & <- & Hin). specialize (Hok kv Hin).
  apply andb_prop in Hok. destruct Hok as [Hne Hrec].
  apply Bool.negb_true_iff in Hne, Hrec. split.
  - intros Hnil. rewrite Hnil in Hne. discriminate.
  - rewrite (rank_unknown _ Hrec). lia.
Qed.

Lemma items_keys (x : PsbtIn) (its : Dict) :
  plain E x -> items_of E x = Ok its -> keys_from 0 (keys its).
Proof.
  intros (Hnd1 & Hnd2 & Hl2 & Hnd3 & Hunk & Hsh & Hprop) Hits.
  unfold items_of in Hits.
  apply bind_ok in Hits. destruct Hits as (i1 & H1 & Hits).
  apply bind_ok in Hits. destruct Hits as (i2 & H2 & Hits).
  apply bind_ok in Hits. destruct Hits as (i4 & H4 & Hits).
  apply bind_ok in Hits. destruct Hits as (i8 & H8 & Hits).
  apply bind_ok in Hits. destruct Hits as (i9 & H9 & Hits).
  injection Hits as <-.
  assert (K1 : field_keys 0 (keys i1)).
  { apply (field_keys_optional x00). destruct (non_witness_utxo x).
    - apply bind_ok in H1. destruct H1 as (b & _ & H1). injection H1 as <-.
      right. eexists. reflexivity.
    - injection H1 as <-. left. reflexivity. }
  assert (K2 : field_keys 1 (keys i2)).
  { apply (field_keys_optional x01). destruct (witness_utxo x).
    - apply bind_ok in H2. destruct H2 as (b & _ & H2). injection H2 as <-.
      right. eexists. reflexivity.
    - injection H2 as <-. left. reflexivity. }
  assert (K4 : field_keys 3 (keys i4)).
  { apply (field_keys_optional x03).
    destruct (sighash x) as [h|]; [destruct (h =? 0)|];
      try (injection H4 as <-; left; reflexivity).
    apply bind_ok in H4. destruct H4 as (b & _ & H4). injection H4 as <-.
    right. eexists. reflexivity. }
  assert (K8 : field_keys 7 (keys i8)).
  { apply (field_keys_optional x08).
    destruct (is_empty (final_script_witness x));
      try (injection H8 as <-; left; reflexivity).
    apply bind_ok in H8. destruct H8 as (b & _ & H8). injection H8 as <-.
    right. eexists. reflexivity. }
  assert (K9 : field_keys 8 (keys i9)).
  { apply (field_keys_optional x09).
    destruct (por_commitment x) as [s|]; [destruct (str_is_empty E s)|];
      try (injection H9 as <-; left; reflexivity).
    apply bind_ok in H9. destruct H9 as (b & _ & H9). injection H9 as <-.
    right. eexists. reflexivity. }
  rewrite !keys_app.
  apply (keys_from_app 0); [exact K1|].
  apply (keys_from_app 1); [exact K2|].
  apply (keys_from_app 2); [apply (field_keys_tagged x02), Hnd1|].
  apply (keys_from_app 3); [exact K4|].
  apply (keys_from_app 4); [apply (field_keys_script x04)|].
  apply (keys_from_app 5); [apply (field_keys_script x05)|].
  apply (keys_from_app 6); [apply (field_keys_script x07)|].
  apply (keys_from_app 7); [exact K8|].
  apply (keys_from_app 8); [exact K9|].
  apply (keys_from_app 9); [apply (field_keys_tagged x06), Hnd2|].
  apply (keys_from_le 10 11); [lia|].
  apply keys_from_unknown; assumption.
Qed.

(** C9 (amended). For every input map without proprietary entries that
    [serialize] accepts, whose sighash is not 0, whose [bip32_derivs] keys
    are 33 or 65 bytes long and whose unknown keys are not empty and do
    not start with a recognized type byte: the stream of [serialize],
    closed by the separator, is read as a map of unique keys, and
    [deserialize] on that map returns the input map itself, equal in every
    field, the unknown entries included. *)
Theorem serialize_deserialize_plain (L : EnvLaws E) (x : PsbtIn) (stream : bytes) :
  plain E x ->
  serialize E x true = Ok stream ->
  exists input_map,
    deserialize_map (stream ++ [x00]) = Ok (input_map, []) /\
    deserialize E input_map true = Ok x.
Proof.
  intros Hplain Hser.
  pose proof Hplain as (_ & _ & _ & _ & _ & _ & Hprop).
  destruct (serialize_items L x true stream Hprop Hser) as (Hv & its & Hits & Henc).
  specialize (Hv eq_refl).
  destruct (items_keys x its Hplain Hits) as [Hnd Hne].
  exists its. split.
  - unfold deserialize_map.
    apply (read_map_round_trip its stream [] []).
    + exact Henc.
    + eapply Forall_impl; [|exact Hne]. cbn. intros k [H _]. exact H.
    + exact Hnd.
    + rewrite length_app. cbn. lia.
  - unfold deserialize.
    rewrite (deserialize_items_of L x its Hplain Hv Hits). cbn [bind].
    rewrite Hv. reflexivity.
Qed.

End WithEnv.

End PsbtFacts.

(** ** PSBT input maps on the example environment *)

Module PsbtExamples.
Import dict wire psbt_in.

Lemma plain_env_laws : EnvLaws plain_env.
Proof.
  constructor.
  - intros t b H. injection H as <-. reflexivity.
  - intros s b H. injection H as <-. reflexivity.
  - intros s b H. injection H as <-. reflexivity.
  - intros k P H. cbn in H. unfold sec_length in H. unfold pubkey_length.
    destruct (Nat.eqb_spec (List.length k) 33); [left; assumption|].
    destruct (Nat.eqb_spec (List.length k) 65); [right; assumption|].
    discriminate.
  - reflexivity.
Qed.

(** C8, the input the claim fails on: an input map that carries both a
    [non_witness_utxo] and a [witness_utxo] is accepted by [assert_valid],
    written by [serialize] and read back by [deserialize], both with
    [assert_valid=True]. *)
Lemma both_utxos_accepted :
  non_witness_utxo both_utxos = Some a_tx /\
  witness_utxo both_utxos = Some an_output /\
  assert_valid plain_env both_utxos = Ok tt /\
  serialize plain_env both_utxos true =
    Ok [x01; x00; x02; x01; x02;
        x01; x01; x0a; x88; x13; x00; x00; x00; x00; x00; x00; x01; x51] /\
  deserialize_map
    ([x01; x00; x02; x01; x02;
      x01; x01; x0a; x88; x13; x00; x00; x00; x00; x00; x00; x01; x51] ++ [x00])
  = Ok ([([x00], [x01; x02]);
         ([x01], [x88; x13; x00; x00; x00; x00; x00; x00; x01; x51])], []) /\
  deserialize plain_env
    [([x00], [x01; x02]);
     ([x01], [x88; x13; x00; x00; x00; x00; x00; x00; x01; x51])] true
  = Ok both_utxos.
Proof.
  split; [reflexivity|]. split; [reflexivity|].
  split; [vm_compute; reflexivity|]. split; [vm_compute; reflexivity|].
  split; [vm_compute; reflexivity|reflexivity].
Qed.

Lemma assert_valid_utxos_witness :
  assert_valid plain_env (default plain_env) = Ok tt /\
  assert_valid plain_env
    (set_non_witness_utxo plain_env (Some a_tx)
       (set_witness_utxo plain_env (Some an_output) (default plain_env)))
  = Ok tt.
Proof.
  assert (H : assert_valid plain_env (default plain_env) = Ok tt)
    by (vm_compute; reflexivity).
  split; [exact H|].
  apply (PsbtFacts.assert_valid_utxos plain_env (default plain_env) H).
  - vm_compute; reflexivity.
  - vm_compute; reflexivity.
Defined.

(** C9, the input the claim fails on: the unknown entry with the key
    [04] is accepted and written as the record [01 04 01 ab], which
    [deserialize] reads as the redeem script: the map that comes back has
    [redeem_script = ab] and no unknown entry. *)
Lemma unknown_key_not_preserved :
  assert_valid plain_env shadowed_input = Ok tt /\
  serialize plain_env shadowed_input true = Ok [x01; x04; x01; xab] /\
  deserialize_map ([x01; x04; x01; xab] ++ [x00]) = Ok ([([x04], [xab])], []) /\
  deserialize plain_env [([x04], [xab])] true
  = Ok (mk (E := plain_env) None None [] None [xab] [] [] [] [] None [] []).
Proof.
  split; [vm_compute; reflexivity|]. split; [vm_compute; reflexivity|].
  split; [vm_compute; reflexivity|reflexivity].
Qed.

Lemma full_input_plain : plain plain_env full_input.
Proof.
  unfold plain, full_input.
  cbn [partial_signatures bip32_derivs unknown sighash proprietary keys map fst].
  split; [constructor; [intros []|constructor]|].
  split; [constructor; [intros []|constructor]|].
  split; [constructor; [left; reflexivity|constructor]|].
  split; [constructor; [intros []|constructor]|].
  split; [vm_compute; reflexivity|].
  split; [discriminate|reflexivity].
Qed.

Lemma serialize_deserialize_plain_witness :
  exists stream input_map,
    serialize plain_env full_input true = Ok stream /\
    deserialize_map (stream ++ [x00]) = Ok (input_map, []) /\
    deserialize plain_env input_map true = Ok full_input.
Proof.
  pose (stream := match serialize plain_env full_input true with
                  | Ok s => s
                  | Err _ => []
                  end).
  assert (Hs : serialize plain_env full_input true = Ok stream)
    by (vm_compute; reflexivity).
  destruct (PsbtFacts.serialize_deserialize_plain plain_env plain_env_laws
              full_input stream full_input_plain Hs) as (m & Hm & Hd).
  exists stream, m. split; [exact Hs|]. split; [exact Hm|exact Hd].
Defined.

End PsbtExamples.

(** ** Amounts and outputs on concrete values *)

Module AmountExamples.
Import decimal amount.

(** C6, the input the claim fails on: the float [1.1] is accepted, and
    gives 110000000 satoshis. *)
Lemma sats_from_btc_float_accepted :
  pyfloat.nearest_ratio 11 10 = float_1_1 /\
  pyfloat.repr float_1_1 = "1.1"%string /\
  sats_from_btc (AFloat float_1_1) = Ok 110000000.
Proof.
  split; [vm_compute; reflexivity|]. split; vm_compute; reflexivity.
Qed.

(** A float is rejected when its string has more than eight fractional
    digits, as that of [1.1 + 2.2], or is not a finite number. *)
Lemma sats_from_btc_float_rejected :
  pyfloat.repr float_3_3_sum = "3.3000000000000003"%string /\
  sats_from_btc (AFloat float_3_3_sum)
  = Err (Raise BTClibValueError "too many decimals for a BTC amount") /\
  sats_from_btc (AFloat S754_nan)
  = Err (Raise DecimalInvalidOperation "comparison involving NaN") /\
  sats_from_btc (AFloat (S754_infinity false))
  = Err (Raise BTClibValueError "invalid BTC amount").
Proof.
  split; [vm_compute; reflexivity|]. split; [vm_compute; reflexivity|].
  split; vm_compute; reflexivity.
Qed.

Lemma sats_from_btc_float_witness :
  sats_from_btc (AFloat float_1_1) = Ok 110000000 /\
  sats_from_btc (AStr (pyfloat.repr float_1_1)) = Ok 110000000.
Proof.
  apply (AmountFacts.sats_from_btc_float float_1_1 false 11 (-1) 110000000).
  - vm_compute; reflexivity.
  - vm_compute; reflexivity.
  - vm_compute; discriminate.
Defined.

Lemma amount_round_trip_witness :
  sats_from_btc (AStr "0.00010000") = Ok 10000 /\
  exists d n,
    btc_from_sats 10000 = Ok d /\
    normalize (DFinite false 10000 (-8)) = Ok n /\
    eq d n = Ok true /\
    (10000 <> 0 -> d = n) /\
    exact_sats d = Some 10000 /\ stripped d = true.
Proof.
  apply (AmountFacts.amount_round_trip (AStr "0.00010000") false 10000 (-8) 10000).
  - vm_compute; reflexivity.
  - vm_compute; reflexivity.
  - vm_compute; discriminate.
Defined.

End AmountExamples.

Module TxOutExamples.
Import TxOut.

Lemma deserialize_value_unsigned_witness :
  deserialize example_stream true = Ok (mk 5000 [x51]) /\
  0 <= value (mk 5000 [x51]) <= MAX_SATOSHI.
Proof.
  assert (H : deserialize example_stream true = Ok (mk 5000 [x51]))
    by (vm_compute; reflexivity).
  split; [exact H|].
  destruct (proj1 (TxOutFacts.deserialize_value_unsigned example_stream true) _ H)
    as (_ & _ & _ & Hc).
  exact (Hc eq_refl).
Defined.

End TxOutExamples.

(** ** More on ECDSA: ranges, low-s, recovery *)

Module DsaMoreFacts.
Import numbertheory curve dsa NumberTheoryFacts.

Lemma mod_pos_nonzero (x m : Z) : 0 < m -> x mod m <> 0 -> 0 < x mod m < m.
Proof.
  intros Hm Hx. pose proof (Z.mod_pos_bound x m Hm). lia.
Qed.

(** What [__sign] computes before the low-s step. *)
Lemma sign_inv (c q k : Z) (low_s : bool) (ec : Curve) (r s : Z) :
  __sign c q k low_s ec = Ok (r, s) ->
  exists s0,
    0 < n ec /\ 0 < r < n ec /\ 0 < s0 < n ec /\
    __sign c q k false ec = Ok (r, s0) /\
    (s = s0 \/ (low_s = true /\ s = n ec - s0)).
Proof.
  unfold __sign. intros H.
  apply bind_ok in H. destruct H as (KJ & HK & H). rewrite HK. cbn [bind].
  apply bind_ok in H. destruct H as (x_K & Hx & H). rewrite Hx. cbn [bind].
  destruct (Z.eqb_spec (x_K mod n ec) 0) as [|Hr]; [discriminate|].
  apply bind_ok in H. destruct H as (k_inv & Hk & H). rewrite Hk. cbn [bind].
  pose proof (mod_inv_spec _ _ _ Hk) as [Hn _].
  assert (Hn0 : 0 < n ec) by lia.
  destruct (Z.eqb_spec ((k_inv * (c + x_K mod n ec * q)) mod n ec) 0) as [|Hs];
    [discriminate|].
  apply bind_ok in H. destruct H as (s' & Hs' & H). injection H as <- <-.
  exists ((k_inv * (c + x_K mod n ec * q)) mod n ec).
  split; [exact Hn0|]. split; [apply mod_pos_nonzero; assumption|].
  split; [apply mod_pos_nonzero; assumption|]. split; [reflexivity|].
  destruct low_s.
  - apply bind_ok in Hs'. destruct Hs' as (half & _ & Hs').
    injection Hs' as <-.
    destruct (pyfloat.int_gt _ half); [right; split; reflexivity|left; reflexivity].
  - injection Hs' as <-. left. reflexivity.
Qed.

Section WithEnv.
Context (E : Env).

(** X1. Every signature [__sign] returns has [r] and [s] in [1, n-1],
    with or without the low-s step, and so is accepted by [deserialize]
    as a tuple. *)
Theorem sign_in_range (c q k : Z) (low_s : bool) (ec : Curve) (r s : Z) :
  __sign c q k low_s ec = Ok (r, s) ->
  0 < r < n ec /\ 0 < s < n ec /\
  deserialize E (SigTuple r s) ec = Ok (r, s).
Proof.
  intros H. destruct (sign_inv _ _ _ _ _ _ _ H) as (s0 & Hn & Hr & Hs0 & _ & Hs).
  assert (Hsr : 0 < s < n ec) by (destruct Hs as [->|[_ ->]]; lia).
  split; [exact Hr|]. split; [exact Hsr|].
  unfold deserialize. rewrite (DsaFacts.validate_sig_ok r s ec Hr Hsr).
  reflexivity.
Qed.

End WithEnv.

(** X2. The low-s step changes nothing but the sign of [s]: a signature
    returned with [low_s=True] has the [r] of the one returned with
    [low_s=False], and its [s] or [n - s]. *)
Theorem sign_low_s_cases (c q k : Z) (ec : Curve) (r s : Z) :
  __sign c q k true ec = Ok (r, s) ->
  exists s0,
    __sign c q k false ec = Ok (r, s0) /\ (s = s0 \/ s = n ec - s0).
Proof.
  intros H. destruct (sign_inv _ _ _ _ _ _ _ H) as (s0 & _ & _ & _ & H0 & Hs).
  exists s0. split; [exact H0|]. destruct Hs as [->|[_ ->]]; auto.
Qed.

(** *** The keys [__recover_pubkeys] returns *)

Lemma append_if_valid_inv (c : Z) (QJ : JacPoint) (r s : Z) (ec : Curve)
    (keys keys' : list JacPoint) :
  append_if_valid c QJ r s ec keys = Ok keys' ->
  keys' = keys \/ (keys' = keys ++ [QJ] /\ valid_key c r s ec QJ).
Proof.
  unfold append_if_valid, try_except, valid_key.
  destruct (__assert_as_valid c QJ r s ec) as [[]|e]; cbn [bind].
  - intros H. injection H as <-. right. split; reflexivity.
  - destruct (existsb _ _); [|discriminate].
    intros H. injection H as <-. left. reflexivity.
Qed.

Lemma extended_refl (c r s : Z) (ec : Curve) (k : nat) (keys : list JacPoint) :
  extended c r s ec k keys keys.
Proof.
  exists []. rewrite app_nil_r. split; [reflexivity|].
  split; [cbn; lia|constructor].
Qed.

Lemma extended_trans (c r s : Z) (ec : Curve) (k1 k2 : nat)
    (a b d : list JacPoint) :
  extended c r s ec k1 a b -> extended c r s ec k2 b d ->
  extended c r s ec (k1 + k2) a d.
Proof.
  intros (x & -> & Lx & Fx) (y & -> & Ly & Fy). exists (x ++ y).
  rewrite app_assoc. split; [reflexivity|].
  split; [rewrite length_app; lia|]. apply Forall_app. split; assumption.
Qed.

Lemma append_if_valid_extended (c : Z) (QJ : JacPoint) (r s : Z) (ec : Curve)
    (keys keys' : list JacPoint) :
  append_if_valid c QJ r s ec keys = Ok keys' ->
  extended c r s ec 1 keys keys'.
Proof.
  intros H. apply append_if_valid_inv in H. destruct H as [->|[-> Hv]].
  - apply extended_refl.
  - exists [QJ]. split; [reflexivity|]. split; [cbn; lia|].
    constructor; [exact Hv|constructor].
Qed.

Lemma recover_body_extended (c r s r1s r1e : Z) (ec : Curve) (j : Z)
    (keys : list JacPoint) :
  extended c r s ec 2 keys (fst (recover_body c r s r1s r1e ec j keys)).
Proof.
  unfold recover_body.
  destruct (y_even ec _) as [yodd|e]; [|apply extended_refl].
  destruct (_double_mult r1s _ r1e (GJ ec) ec) as [QJ|e]; [|apply extended_refl].
  destruct (append_if_valid c QJ r s ec keys) as [keys1|e] eqn:H1;
    [|apply extended_refl].
  apply append_if_valid_extended in H1.
  destruct (_double_mult r1s _ r1e (GJ ec) ec) as [QJ'|e].
  - destruct (append_if_valid c QJ' r s ec keys1) as [keys2|e] eqn:H2.
    + apply append_if_valid_extended in H2.
      apply (extended_trans c r s ec 1 1 keys keys1 keys2); assumption.
    + cbn [fst]. destruct H1 as (x & -> & Lx & Fx). exists x.
      split; [reflexivity|]. split; [lia|exact Fx].
  - cbn [fst]. destruct H1 as (x & -> & Lx & Fx). exists x.
    split; [reflexivity|]. split; [lia|exact Fx].
Qed.

Lemma recover_loop_extended (c r s r1s r1e : Z) (ec : Curve) (js : list Z) :
  forall keys out,
    recover_loop c r s r1s r1e ec js keys = Ok out ->
    extended c r s ec (2 * List.length js) keys out.
Proof.
  induction js as [|j js IH]; intros keys out H.
  - injection H as <-. apply extended_refl.
  - cbn [recover_loop] in H.
    pose proof (recover_body_extended c r s r1s r1e ec j keys) as Hb.
    destruct (recover_body c r s r1s r1e ec j keys) as [keys' [e|]];
      cbn [fst] in Hb.
    + destruct (existsb _ _); [|discriminate].
      apply IH in H.
      replace (2 * List.length (j :: js))%nat with (2 + 2 * List.length js)%nat
        by (cbn [List.length]; lia).
      apply (extended_trans c r s ec _ _ keys keys' out); assumption.
    + apply IH in H.
      replace (2 * List.length (j :: js))%nat with (2 + 2 * List.length js)%nat
        by (cbn [List.length]; lia).
      apply (extended_trans c r s ec _ _ keys keys' out); assumption.
Qed.

Lemma range_length (m : Z) : List.length (range m) = Z.to_nat m.
Proof.
  unfold range. rewrite length_map, length_seq. reflexivity.
Qed.

(** X3. Every key in the list [__recover_pubkeys] returns verifies the
    signature it was recovered from, and the list has at most two keys for
    each [j] of the loop, [2 (cofactor + 1)] in all. *)
Theorem recover_pubkeys_valid (c r s : Z) (ec : Curve) (keys : list JacPoint) :
  __recover_pubkeys c r s ec = Ok keys ->
  Forall (fun QJ => __assert_as_valid c QJ r s ec = Ok tt) keys /\
  (List.length keys <= 2 * Z.to_nat (cofactor ec + 1))%nat.
Proof.
  unfold __recover_pubkeys. intros H.
  apply bind_ok in H. destruct H as (r_1 & _ & H).
  apply recover_loop_extended in H. destruct H as (added & -> & Hl & Hf).
  rewrite range_length in Hl. cbn [app]. split; assumption.
Qed.

(** *** The single-key form, for the key ids of [j = 0] *)

Lemma range_succ (m : Z) :
  0 < m -> exists js, range m = 0 :: js.
Proof.
  intros Hm. unfold range.
  destruct (Z.to_nat m) as [|k] eqn:Hk; [lia|].
  cbn [seq map]. eexists. reflexivity.
Qed.

(** X4. For [key_id] 0 and 1, the candidates of [j = 0], the two forms
    agree: the key [__recover_pubkey] returns stands in the list of
    [__recover_pubkeys], first for [key_id = 0], first or second for
    [key_id = 1]. *)
Theorem recover_pubkey_first (key_id c r s : Z) (ec : Curve) (Q : JacPoint)
    (keys : list JacPoint) :
  key_id = 0 \/ key_id = 1 ->
  0 <= cofactor ec ->
  __recover_pubkey key_id c r s ec = Ok Q ->
  __recover_pubkeys c r s ec = Ok keys ->
  exists pre rest,
    keys = pre ++ Q :: rest /\ Z.of_nat (List.length pre) <= key_id.
Proof.
  intros Hid Hcof H1 Hall.
  unfold __recover_pubkey in H1. unfold __recover_pubkeys in Hall.
  apply bind_ok in H1. destruct H1 as (r_1 & Hr1 & H1).
  rewrite Hr1 in Hall. cbn [bind] in Hall.
  destruct (range_succ (cofactor ec + 1) ltac:(lia)) as (js & Hjs).
  rewrite Hjs in Hall. cbn [recover_loop] in Hall.
  assert (Hj : Z.land key_id 6 = 0) by (destruct Hid as [->| ->]; reflexivity).
  rewrite Hj in H1.
  apply bind_ok in H1. destruct H1 as (y_ev & Hy & H1).
  apply bind_ok in H1. destruct H1 as (QJ & HQ & H1).
  apply bind_ok in H1. destruct H1 as ([] & Hv & H1). injection H1 as <-.
  unfold recover_body in Hall. rewrite Hy in Hall.
  destruct Hid as [-> | ->].
  - (* the even root: the first candidate *)
    cbn [Z.land Z.eqb negb] in HQ.
    rewrite HQ in Hall. unfold append_if_valid at 1 in Hall.
    rewrite Hv in Hall. cbn [bind try_except app] in Hall.
    assert (Hext : exists keys1,
               extended c r s ec (2 + 2 * List.length js) [QJ] keys1 /\
               keys = keys1).
    { destruct (_double_mult _ (_, ec.(p) - y_ev, 1) _ (GJ ec) ec) as [Q2|e].
      - destruct (append_if_valid c Q2 r s ec [QJ]) as [k2|e] eqn:H2.
        + apply append_if_valid_extended in H2.
          apply recover_loop_extended in Hall.
          exists keys. split; [|reflexivity].
          apply (extended_trans c r s ec 1 _ [QJ] k2 keys) in Hall;
            [|exact H2].
          destruct Hall as (x & -> & Lx & Fx). exists x.
          split; [reflexivity|]. split; [lia|exact Fx].
        + destruct (existsb _ _); [|discriminate].
          apply recover_loop_extended in Hall.
          exists keys. split; [|reflexivity].
          destruct Hall as (x & -> & Lx & Fx). exists x.
          split; [reflexivity|]. split; [lia|exact Fx].
      - destruct (existsb _ _); [|discriminate].
        apply recover_loop_extended in Hall.
        exists keys. split; [|reflexivity].
        destruct Hall as (x & -> & Lx & Fx). exists x.
        split; [reflexivity|]. split; [lia|exact Fx]. }
    destruct Hext as (keys1 & (x & -> & _ & _) & ->).
    exists [], x. split; [reflexivity|]. cbn. lia.
  - (* the odd root: the second candidate *)
    change (negb (Z.land 1 1 =? 0)) with true in HQ. cbv iota in HQ.
    destruct (_double_mult _ (_, y_ev, 1) _ (GJ ec) ec) as [Q1|e] eqn:HQ1.
    + destruct (append_if_valid c Q1 r s ec []) as [k1|e] eqn:H1.
      * rewrite HQ in Hall. unfold append_if_valid at 1 in Hall.
        rewrite Hv in Hall. cbn [bind try_except] in Hall.
        apply recover_loop_extended in Hall.
        destruct Hall as (x & -> & _ & _).
        apply append_if_valid_inv in H1.
        destruct H1 as [-> | [-> _]].
        -- exists [], x. split; [reflexivity|]. cbn. lia.
        -- exists [Q1], x. split; [rewrite <- app_assoc; reflexivity|]. cbn. lia.
      * exfalso. destruct (existsb _ _) eqn:Hh; [|discriminate].
        unfold append_if_valid, try_except in H1.
        destruct (__assert_as_valid c Q1 r s ec) as [[]|e1];
          cbn [bind] in H1; [discriminate|].
        destruct (existsb _ _) eqn:Hh1; [discriminate|].
        injection H1 as <-. congruence.
    + exfalso. unfold _double_mult in HQ, HQ1.
      destruct (_ || _); discriminate.
Qed.

(** *** Signing, verifying and recovering on the curve of order 13 *)

Lemma in_interval (lo : Z) (len : nat) (x : Z) :
  lo <= x < lo + Z.of_nat len -> In x (interval lo len).
Proof.
  intros Hx. unfold interval. apply in_map_iff.
  exists (Z.to_nat (x - lo)). split; [lia|]. apply in_seq. lia.
Qed.

Lemma sign_verify_recover_in (ec : Curve) (low_s : bool) (c q k : Z) :
  sign_verify_recover_all ec low_s = true ->
  0 <= c < n ec -> 0 < q < n ec -> 0 < k < n ec ->
  sign_verify_recover ec low_s c q k = true.
Proof.
  unfold sign_verify_recover_all. intros Hall Hc Hq Hk.
  assert (Ic : In c (interval 0 (Z.to_nat (n ec))))
    by (apply in_interval; lia).
  assert (Iq : In q (interval 1 (Z.to_nat (n ec - 1))))
    by (apply in_interval; lia).
  assert (Ik : In k (interval 1 (Z.to_nat (n ec - 1))))
    by (apply in_interval; lia).
  rewrite forallb_forall in Hall. specialize (Hall c Ic).
  rewrite forallb_forall in Hall. specialize (Hall q Iq).
  rewrite forallb_forall in Hall. exact (Hall k Ik).
Qed.

Lemma sign_verify_recover_spec (ec : Curve) (low_s : bool) (c q k : Z) :
  sign_verify_recover ec low_s c q k = true ->
  match __sign c q k low_s ec with
  | Err e => exn_cls e = BTClibRuntimeError
  | Ok (r, s) =>
      exists (Q : Point) (keys : list JacPoint),
        gen_keys plain_env (Some q) 0 ec = Ok (q, Some Q) /\
        (low_s = true -> 2 * s <= n ec) /\
        __assert_as_valid c (fst Q, snd Q, 1) r s ec = Ok tt /\
        __recover_pubkeys c r s ec = Ok keys /\
        In (Some Q) (map (aff_from_jac ec) keys)
  end.
Proof.
  unfold sign_verify_recover.
  destruct (__sign c q k low_s ec) as [[r s]|e].
  - destruct (gen_keys plain_env (Some q) 0 ec) as [[q' [[Qx Qy]|]]|e];
      try discriminate.
    intros H.
    apply andb_prop in H. destruct H as [H Hrec].
    apply andb_prop in H. destruct H as [H Hval].
    apply andb_prop in H. destruct H as [Hq Hlow].
    apply Z.eqb_eq in Hq. subst q'.
    destruct (__recover_pubkeys c r s ec) as [keys|e]; [|discriminate].
    exists (Qx, Qy), keys. split; [reflexivity|]. split.
    { intros ->. cbn [negb orb] in Hlow. apply Z.leb_le in Hlow. exact Hlow. }
    split.
    { cbn [fst snd].
      destruct (__assert_as_valid c (Qx, Qy, 1) r s ec) as [[]|e];
        [reflexivity|discriminate]. }
    split; [reflexivity|].
    apply existsb_exists in Hrec. destruct Hrec as (QJ & Hin & HQ).
    apply in_map_iff. exists QJ. split; [|exact Hin].
    destruct (aff_from_jac ec QJ) as [[x y]|]; [|discriminate].
    apply andb_prop in HQ. destruct HQ as [Hx Hy].
    apply Z.eqb_eq in Hx, Hy. subst. reflexivity.
  - intros H. destruct (exn_cls e); try discriminate. reflexivity.
Qed.

Lemma sign_verify_recover_all_ec11_13 (low_s : bool) :
  sign_verify_recover_all ec11_13 low_s = true.
Proof.
  destruct low_s; vm_compute; reflexivity.
Qed.

(** X5. On the curve of [scripts/EC1_6_F11_G5_9_N13.py], for every
    challenge in [0, n-1], every private key and every nonce in [1, n-1],
    with and without low-s: [__sign] fails only with its own
    BTClibRuntimeError, and a signature it returns is verified by
    [__assert_as_valid] with the public key of [gen_keys]; with low-s,
    [2 s <= n]. *)
Theorem sign_verify_ec11_13 (low_s : bool) (c q k : Z) :
  0 <= c < n ec11_13 -> 0 < q < n ec11_13 -> 0 < k < n ec11_13 ->
  (forall e, __sign c q k low_s ec11_13 = Err e ->
     exn_cls e = BTClibRuntimeError) /\
  (forall r s, __sign c q k low_s ec11_13 = Ok (r, s) ->
     exists Q : Point,
       gen_keys plain_env (Some q) 0 ec11_13 = Ok (q, Some Q) /\
       __assert_as_valid c (fst Q, snd Q, 1) r s ec11_13 = Ok tt /\
       (low_s = true -> 2 * s <= n ec11_13)).
Proof.
  intros Hc Hq Hk.
  pose proof (sign_verify_recover_spec ec11_13 low_s c q k
                (sign_verify_recover_in ec11_13 low_s c q k
                   (sign_verify_recover_all_ec11_13 low_s) Hc Hq Hk)) as H.
  split.
  - intros e He. rewrite He in H. exact H.
  - intros r s Hs. rewrite Hs in H.
    destruct H as (Q & keys & Hg & Hlow & Hv & _ & _).
    exists Q. split; [exact Hg|]. split; [exact Hv|exact Hlow].
Qed.

(** X6. On the same curve, for every challenge, key and nonce: the public
    key of the signer is one of the keys [__recover_pubkeys] recovers from
    the signature [__sign] returns. *)
Theorem recover_finds_key_ec11_13 (low_s : bool) (c q k r s : Z) :
  0 <= c < n ec11_13 -> 0 < q < n ec11_13 -> 0 < k < n ec11_13 ->
  __sign c q k low_s ec11_13 = Ok (r, s) ->
  exists (Q : Point) (keys : list JacPoint),
    gen_keys plain_env (Some q) 0 ec11_13 = Ok (q, Some Q) /\
    __recover_pubkeys c r s ec11_13 = Ok keys /\
    In (Some Q) (map (aff_from_jac ec11_13) keys).
Proof.
  intros Hc Hq Hk Hs.
  pose proof (sign_verify_recover_spec ec11_13 low_s c q k
                (sign_verify_recover_in ec11_13 low_s c q k
                   (sign_verify_recover_all_ec11_13 low_s) Hc Hq Hk)) as H.
  rewrite Hs in H. destruct H as (Q & keys & Hg & _ & _ & Hr & Hin).
  exists Q, keys. split; [exact Hg|]. split; [exact Hr|exact Hin].
Qed.

(** *** From [sign] to [verify] *)

Section SignVerify.
Context (E : Env).

(** X16. On the curve of order 13, through the public functions: a
    signature that [sign] returns for a message and a private key is
    accepted by [verify] for the same message and the public key of
    [gen_keys], with and without low-s.  The hash gives digests of its
    size, the private key is a scalar in [1, n-1] and so are the nonces of
    RFC 6979. *)
Theorem sign_then_verify_ec11_13 (hf : HashF) (msg : Msg E)
    (prvkey : PrvKey E) (key : Key E) (low_s : bool) (q : Z) (Q : Point)
    (r s : Z) :
  (forall b, Z.of_nat (List.length (digest hf b)) = digest_size hf) ->
  (forall c k, rfc6979 E c q ec11_13 hf = Ok k -> 0 < k < n ec11_13) ->
  0 < q < n ec11_13 ->
  gen_keys E (Some prvkey) 0 ec11_13 = Ok (q, Some Q) ->
  point_from_key E key ec11_13 = Ok Q ->
  sign E msg prvkey low_s ec11_13 hf = Ok (r, s) ->
  verify E msg key (SigTuple r s) ec11_13 hf = Ok true.
Proof.
  intros Hhf Hnonce Hq Hgen Hkey Hsign.
  unfold sign in Hsign.
  apply bind_ok in Hsign. destruct Hsign as (m & Hred & Hsign).
  unfold _sign in Hsign.
  assert (Hm : bytes_from_octets E (OBytes m) (digest_size hf) = Ok m).
  { apply DsaFacts.bytes_from_octets_bytes.
    destruct (DsaFacts.reduce_to_hlen_inv E msg hf m Hred) as (b & _ & ->).
    apply Hhf. }
  rewrite Hm in Hsign. cbn [bind] in Hsign.
  unfold gen_keys in Hgen.
  apply bind_ok in Hgen. destruct Hgen as (q' & Hq' & Hgen).
  apply bind_ok in Hgen. destruct Hgen as (QJ & HQJ & Hgen).
  injection Hgen as -> HQ.
  rewrite Hq' in Hsign. cbn [bind] in Hsign.
  apply bind_ok in Hsign. destruct Hsign as (c & Hc & Hsign).
  apply bind_ok in Hsign. destruct Hsign as (k & Hk & Hsign).
  cbn [bind] in Hk. apply Hnonce in Hk.
  assert (Hcr : 0 <= c < n ec11_13).
  { unfold _challenge in Hc. rewrite Hm in Hc. cbn [bind] in Hc.
    injection Hc as <-. apply Z.mod_pos_bound. reflexivity. }
  pose proof (sign_verify_recover_spec ec11_13 low_s c q k
                (sign_verify_recover_in ec11_13 low_s c q k
                   (sign_verify_recover_all_ec11_13 low_s) Hcr Hq Hk)) as H.
  rewrite Hsign in H. destruct H as (Q' & _ & Hg & _ & Hv & _ & _).
  assert (HQQ : Q' = Q).
  { unfold gen_keys in Hg. cbn [plain_env int_from_prvkey] in Hg.
    destruct ((0 <? q) && (q <? n ec11_13)); [|discriminate].
    cbn [bind] in Hg. rewrite HQJ in Hg. cbn [bind] in Hg.
    injection Hg as Hg. congruence. }
  subst Q'.
  destruct (sign_inv _ _ _ _ _ _ _ Hsign) as (s0 & _ & Hr & Hs0 & _ & Hs).
  assert (Hsr : 0 < s < n ec11_13) by (destruct Hs as [->|[_ ->]]; lia).
  unfold verify. rewrite Hred. cbn [bind].
  unfold _verify, _assert_as_valid, deserialize. rewrite (DsaFacts.validate_sig_ok r s ec11_13 Hr Hsr).
  cbn [bind]. rewrite Hm. cbn [bind]. rewrite Hc. cbn [bind].
  rewrite Hkey. cbn [bind]. rewrite Hv. reflexivity.
Qed.

End SignVerify.

End DsaMoreFacts.

(** ** More on transaction outputs *)

Module TxOutMoreFacts.
Import TxOut WireFacts.

Lemma to_bytes_le_ok (len : nat) (z : Z) :
  0 <= z < 256 ^ Z.of_nat len -> to_bytes_le len z = Ok (le_digits len z).
Proof.
  intros Hz. unfold to_bytes_le.
  destruct (Z.ltb_spec z 0); [lia|].
  destruct (Z.leb_spec (256 ^ Z.of_nat len) z); [lia|]. reflexivity.
Qed.

Lemma varint_encode_ok (i : Z) :
  0 <= i < 2 ^ 64 -> exists enc, varint.encode i = Ok enc.
Proof.
  intros Hi. unfold varint.encode.
  destruct (Z.ltb_spec i 0); [lia|].
  destruct (Z.ltb_spec i 253).
  { rewrite to_bytes_le_ok by (cbn; lia). eexists. reflexivity. }
  destruct (Z.ltb_spec i 65536).
  { rewrite to_bytes_le_ok by (cbn; lia). eexists. reflexivity. }
  destruct (Z.ltb_spec i 4294967296).
  { rewrite to_bytes_le_ok by (cbn; lia). eexists. reflexivity. }
  destruct (Z.ltb_spec i 18446744073709551616).
  { rewrite to_bytes_le_ok by (cbn; lia). eexists. reflexivity. }
  change (2 ^ 64) with 18446744073709551616 in Hi. lia.
Qed.

Lemma varbytes_encode_ok (payload : bytes) :
  Z.of_nat (List.length payload) < 2 ^ 64 ->
  exists enc, varbytes.encode payload = Ok enc.
Proof.
  intros Hl. unfold varbytes.encode.
  destruct (varint_encode_ok (Z.of_nat (List.length payload)) ltac:(lia))
    as (prefix & ->).
  eexists. reflexivity.
Qed.

Lemma assert_valid_iff (o : t) :
  assert_valid o = Ok tt <-> 0 <= value o <= MAX_SATOSHI.
Proof.
  unfold assert_valid. split.
  - destruct (Z.ltb_spec (value o) 0); [discriminate|].
    destruct (Z.gtb_spec (value o) MAX_SATOSHI); [discriminate|]. lia.
  - intros H. destruct (Z.ltb_spec (value o) 0); [lia|].
    destruct (Z.gtb_spec (value o) MAX_SATOSHI); [lia|]. reflexivity.
Qed.

(** X7. [deserialize] reads back what [serialize] wrote, with the same
    [assert_valid] flag, and leaves alone whatever follows the output in
    the stream. *)
Theorem serialize_deserialize (o : t) (check : bool) (b rest : bytes) :
  serialize o check = Ok b ->
  deserialize (b ++ rest) check = Ok o.
Proof.
  unfold serialize. intros H.
  apply bind_ok in H. destruct H as ([] & Hv & H).
  apply bind_ok in H. destruct H as (out & Hout & H).
  apply bind_ok in H. destruct H as (spk & Hspk & H). injection H as <-.
  apply to_bytes_le_inv in Hout. destruct Hout as (Hl & Hval & _).
  destruct (varbytes_round_trip _ _ rest Hspk) as (Hdec & _).
  unfold deserialize. rewrite <- app_assoc, <- Hl, stream_read_app, Hdec.
  cbn [bind]. rewrite Hval. destruct o as [v s].
  cbn [value script_pubkey] in *. rewrite Hv. reflexivity.
Qed.

(** X8. What [serialize] accepts, for a script shorter than 2^64 bytes:
    with [assert_valid=True] the values from 0 to [MAX_SATOSHI], with a
    BTClibValueError for the others; with [assert_valid=False] every value
    that fits 8 bytes, with an [OverflowError] for the others, the
    negative ones included.  What it writes starts with the 8 bytes of the
    value, little-endian. *)
Theorem serialize_accepts (o : t) :
  Z.of_nat (List.length (script_pubkey o)) < 2 ^ 64 ->
  (0 <= value o <= MAX_SATOSHI ->
     exists spk, serialize o true = Ok (le_digits 8 (value o) ++ spk)) /\
  (~ 0 <= value o <= MAX_SATOSHI ->
     exists msg, serialize o true = Err (Raise BTClibValueError msg)) /\
  (0 <= value o < 2 ^ 64 ->
     exists spk, serialize o false = Ok (le_digits 8 (value o) ++ spk)) /\
  (~ 0 <= value o < 2 ^ 64 ->
     exists msg, serialize o false = Err (Raise PyOverflowError msg)).
Proof.
  intros Hlen.
  destruct (varbytes_encode_ok _ Hlen) as (spk & Hspk).
  assert (Hfit : 0 <= value o < 2 ^ 64 ->
                 serialize o false = Ok (le_digits 8 (value o) ++ spk)).
  { intros Hv. unfold serialize. cbn [bind].
    rewrite to_bytes_le_ok by exact Hv. cbn [bind]. rewrite Hspk. reflexivity. }
  split; [|split; [|split]].
  - intros Hv. exists spk. unfold serialize.
    rewrite (proj2 (assert_valid_iff o) Hv). cbn [bind].
    rewrite to_bytes_le_ok
      by (unfold MAX_SATOSHI in Hv; change (256 ^ Z.of_nat 8) with (2 ^ 64); lia).
    cbn [bind]. rewrite Hspk. reflexivity.
  - intros Hv. unfold serialize, assert_valid.
    destruct (Z.ltb_spec (value o) 0); [eexists; reflexivity|].
    destruct (Z.gtb_spec (value o) MAX_SATOSHI); [eexists; reflexivity|].
    exfalso. apply Hv. lia.
  - intros Hv. exists spk. apply Hfit, Hv.
  - intros Hv. unfold serialize, to_bytes_le. cbn [bind].
    destruct (Z.ltb_spec (value o) 0); [eexists; reflexivity|].
    destruct (Z.leb_spec (256 ^ Z.of_nat 8) (value o)); [eexists; reflexivity|].
    exfalso. apply Hv. change (256 ^ Z.of_nat 8) with (2 ^ 64) in *. lia.
Qed.

End TxOutMoreFacts.

(** ** More on amounts: bounds and errors *)

Module AmountMoreFacts.
Import decimal amount AmountFacts.

(** A coefficient of at most [prec] digits with an exponent in the range
    of the context is not rounded. *)
Lemma fix_id (s : bool) (c : N) (e : Z) :
  0 < Z.of_N c < 10 ^ prec -> Etiny <= e <= Etop ->
  _fix (DFinite s c e) = Ok (DFinite s c e).
Proof.
  intros Hc He. unfold _fix.
  destruct (Z.eqb_spec (Z.of_N c) 0); [lia|].
  pose proof (ndigits_small (Z.of_N c) prec Hc ltac:(unfold prec; lia)) as Hn.
  destruct (Z.gtb_spec (ndigits (Z.of_N c) + e - prec) Etop); [lia|].
  destruct (Z.ltb_spec (ndigits (Z.of_N c) + e - prec) Etiny).
  - destruct (Z.ltb_spec e Etiny); [lia|reflexivity].
  - destruct (Z.ltb_spec e (ndigits (Z.of_N c) + e - prec)); [lia|reflexivity].
Qed.

Lemma signed_abs (i : Z) : signed (i <? 0) (Z.abs i) = i.
Proof.
  unfold signed. destruct (Z.ltb_spec i 0); lia.
Qed.

Lemma signed_inj (s : bool) (a b : Z) : signed s a = signed s b -> a = b.
Proof.
  unfold signed. destruct s; lia.
Qed.

Lemma signed_mul (s : bool) (a b : Z) : signed s a * b = signed s (a * b).
Proof.
  unfold signed. destruct s; lia.
Qed.

(** X9. [btc_from_sats] accepts exactly the integers from [-MAX_SATOSHI]
    to [MAX_SATOSHI]: for these it returns the decimal of value
    [sats / 10^8], without trailing zeros; for the others it raises a
    BTClibValueError. *)
Theorem btc_from_sats_bounds (sats : Z) :
  (Z.abs sats <= MAX_SATOSHI ->
     exists d, btc_from_sats sats = Ok d /\
               exact_sats d = Some sats /\ stripped d = true) /\
  (MAX_SATOSHI < Z.abs sats ->
     exists msg, btc_from_sats sats = Err (Raise BTClibValueError msg)).
Proof.
  split.
  - intros Hk. destruct (Z.eq_dec sats 0) as [->|Hnz].
    + exists (DFinite false 0 0). split; [reflexivity|]. split; reflexivity.
    + destruct (btc_from_sats_exact (sats <? 0) (Z.abs sats) ltac:(lia))
        as (c1 & e1 & Hb & Hs & Hm & Hp).
      rewrite signed_abs in Hb. exists (DFinite (sats <? 0) c1 e1).
      split; [exact Hb|].
      destruct (scaled_unique _ _ _ _ _ Hs Hs Hm Hm) as (_ & _ & Ha & HK).
      split.
      * unfold exact_sats. destruct (Z.leb_spec 0 (e1 + 8)); [|lia].
        rewrite <- HK, signed_abs. reflexivity.
      * unfold stripped. destruct (N.eqb_spec c1 0); [lia|].
        destruct (Z.eqb_spec (Z.of_N c1 mod 10) 0); [contradiction|reflexivity].
  - intros Hk. unfold btc_from_sats.
    destruct (Z.gtb_spec (Z.abs sats) MAX_SATOSHI); [|lia].
    eexists. reflexivity.
Qed.

(** X10. [sats_from_btc] rejects with a BTClibValueError every amount
    above [MAX_BITCOIN] in absolute value, when the decimal its string
    spells has at most 28 digits and an exponent in the range of the
    context; it rejects an infinity the same way, and a NaN with the
    [InvalidOperation] of the comparison. *)
Theorem sats_from_btc_out_of_range (amount : Any) :
  (forall s c e,
     of_string (py_str amount) = Ok (DFinite s c e) ->
     Z.of_N c < 10 ^ prec -> Etiny <= e <= Etop ->
     _cmp (DFinite false c e) MAX_BITCOIN = Gt ->
     exists msg, sats_from_btc amount = Err (Raise BTClibValueError msg)) /\
  (forall s,
     of_string (py_str amount) = Ok (DInf s) ->
     exists msg, sats_from_btc amount = Err (Raise BTClibValueError msg)) /\
  (forall s,
     of_string (py_str amount) = Ok (DNaN s) ->
     exists msg, sats_from_btc amount = Err (Raise DecimalInvalidOperation msg)).
Proof.
  split; [|split].
  - intros s c e Hp Hc He Hgt. unfold sats_from_btc. rewrite Hp. cbn [bind abs].
    assert (Hpos : 0 < Z.of_N c).
    { destruct (N.eq_dec c 0) as [->|]; [|lia].
      unfold MAX_BITCOIN in Hgt. cbn [_cmp] in Hgt.
      rewrite cmp_zero_max in Hgt. discriminate. }
    rewrite fix_id by first [assumption | split; assumption]. cbn [bind].
    unfold gt, MAX_BITCOIN in *. cbn [is_nan orb].
    rewrite Hgt. cbn [bind]. eexists. reflexivity.
  - intros s Hp. unfold sats_from_btc. rewrite Hp. eexists. reflexivity.
  - intros s Hp. unfold sats_from_btc. rewrite Hp.
    destruct s; eexists; reflexivity.
Qed.

Lemma cmp_of_int (i : Z) (s : bool) (C : N) (e : Z) :
  e < 0 ->
  cmp_finite (i <? 0) (Z.to_N (Z.abs i)) 0 s C e
  = (i * 10 ^ (- e) ?= signed s (Z.of_N C)).
Proof.
  intros He. unfold cmp_finite. rewrite Z.min_r by lia.
  rewrite Z2N.id by lia. rewrite Z.sub_diag, Z.mul_1_r.
  rewrite <- signed_mul, signed_abs. rewrite Z.sub_0_l. reflexivity.
Qed.

(** X11. [sats_from_btc] rejects with a BTClibValueError every amount
    within the bound that has more than eight fractional digits, when its
    decimal has at most 20 digits and an exponent of at least [Etiny], the
    least exponent of the context, -1000026.  Below [Etiny] the context
    rounds the amount before the test, and the statement says nothing. *)
Theorem sats_from_btc_too_many_decimals (amount : Any) (s : bool) (c : N) (e : Z) :
  of_string (py_str amount) = Ok (DFinite s c e) ->
  Z.of_N c < 10 ^ 20 -> Etiny <= e ->
  _cmp (DFinite false c e) MAX_BITCOIN <> Gt ->
  exact_sats (DFinite s c e) = None ->
  sats_from_btc amount
  = Err (Raise BTClibValueError "too many decimals for a BTC amount").
Proof.
  intros Hp Hc He Hmax Hex. unfold exact_sats in Hex.
  destruct (Z.leb_spec 0 (e + 8)) as [|He8]; [discriminate|].
  destruct (Z.eqb_spec (Z.of_N c mod 10 ^ (- (e + 8))) 0) as [|Hmod];
    [discriminate|]. clear Hex.
  assert (Hpos : 0 < Z.of_N c).
  { destruct (N.eq_dec c 0) as [->|]; [|lia].
    rewrite Zmod_0_l in Hmod. contradiction. }
  assert (Hrange : Etiny <= e <= Etop) by (unfold Etop, Emax, prec; lia).
  unfold sats_from_btc. rewrite Hp. cbn [bind abs].
  rewrite fix_id;
    [|split; [exact Hpos|unfold prec; pose proof (pow10_lt 20 28); lia]
     |exact Hrange].
  cbn [bind]. unfold gt, MAX_BITCOIN in *. cbn [is_nan orb].
  destruct (_cmp (DFinite false c e) (DFinite false 209999999769 (-4))) eqn:Hcmp;
    try contradiction; cbn [bind].
  all: change (of_int _SATOSHI_PER_BITCOIN) with (DFinite false 100000000 0).
  all: cbn [mul]; rewrite xorb_false_r, Z.add_0_r.
  all: assert (HC : 0 < Z.of_N (c * 100000000) < 10 ^ prec)
         by (rewrite N_mul_pow8; unfold prec;
             replace (10 ^ 28) with (10 ^ 20 * 10 ^ 8) by reflexivity;
             pose proof (pow10_pos 8 ltac:(lia)); nia).
  all: rewrite (fix_id s (c * 100000000) e HC Hrange); cbn [bind to_int].
  all: destruct (Z.leb_spec 0 e); [lia|]; cbn [bind].
  all: unfold of_int, eq; cbn [_cmp]; rewrite cmp_of_int by lia.
  all: rewrite signed_mul, N_mul_pow8.
  all: assert (Hne : Z.of_N c * 10 ^ 8 / 10 ^ (- e) * 10 ^ (- e)
                     <> Z.of_N c * 10 ^ 8).
  all: try (intros Heq; apply Hmod;
            rewrite (pow10_split (- e) 8) in Heq by lia;
            pose proof (pow10_pos (- e - 8) ltac:(lia));
            pose proof (pow10_pos 8 ltac:(lia));
            rewrite Z.div_mul_cancel_r in Heq by lia;
            replace (- (e + 8)) with (- e - 8) by lia;
            pose proof (Z.div_mod (Z.of_N c) (10 ^ (- e - 8)) ltac:(lia));
            nia).
  all: destruct (Z.compare_spec
                   (signed s (Z.of_N c * 10 ^ 8 / 10 ^ (- e) * 10 ^ (- e)))
                   (signed s (Z.of_N c * 10 ^ 8))) as [Heq| |];
         try reflexivity.
  all: apply signed_inj in Heq; contradiction.
Qed.

End AmountMoreFacts.

(** ** More on PSBT input maps: what is refused, what is kept *)

Module PsbtMoreFacts.
Import dict wire psbt_in WireFacts PsbtFacts.

Section WithEnv.
Context (E : Env).

#[local] Abbreviation PsbtIn := (psbt_in.PsbtIn E).

Lemma item_malformed (out : PsbtIn) (k v : bytes) :
  malformed (k, v) = true ->
  exists msg, deserialize_item E out k v = Err (Raise AssertionError msg).
Proof.
  unfold malformed. destruct k as [|t rest]; [discriminate|].
  destruct t; cbn [existsb];
    repeat match goal with
    | |- context [Byte.eqb ?a ?b] =>
        let r := eval vm_compute in (Byte.eqb a b) in
        change (Byte.eqb a b) with r
    end;
    cbn [orb andb]; cbv iota; try discriminate; intros H;
    unfold deserialize_item; cbn [firstn]; eval_type_tests; cbv iota;
    unfold key_length_is, assert;
    destruct rest as [|b rest];
    cbn [is_empty negb orb andb List.length Nat.eqb existsb bind] in *;
    try discriminate; try (eexists; reflexivity).
  all: apply negb_true_iff in H; rewrite ?orb_false_r in *; rewrite H;
       eexists; reflexivity.
Qed.

Lemma items_malformed (m : Dict) :
  existsb malformed m = true ->
  forall out : PsbtIn, exists e, deserialize_items E out m = Err e.
Proof.
  induction m as [|[k v] t IH]; [discriminate|].
  cbn [existsb]. intros H out. cbn [deserialize_items].
  destruct (deserialize_item E out k v) as [out'|e] eqn:Hi.
  - cbn [bind]. apply orb_true_iff in H. destruct H as [H|H].
    + destruct (item_malformed out k v H) as (msg & Hm). congruence.
    + apply IH, H.
  - exists e. reflexivity.
Qed.

(** X12. [deserialize] accepts no input map with a malformed item: a key
    of a single-key type (00, 01, 03, 04, 05, 07, 08, 09) longer than its
    type byte, a key of type 02 or 06 that is not 34 or 66 bytes long, a
    sighash value that is not 4 bytes long.  It raises, with or without
    [assert_valid]. *)
Theorem deserialize_rejects_malformed (input_map : Dict) (check : bool) :
  existsb malformed input_map = true ->
  exists e, deserialize E input_map check = Err e.
Proof.
  intros H. unfold deserialize.
  destruct (items_malformed input_map H (default E)) as (e & ->).
  exists e. reflexivity.
Qed.

Lemma items_unrecognized (d : Dict) :
  forall out : PsbtIn,
    forallb (fun kv : bytes * bytes => negb (recognized (fst kv))) d = true ->
    NoDup (keys (unknown out) ++ keys d) ->
    deserialize_items E out d = Ok (set_unknown E (unknown out ++ d) out).
Proof.
  induction d as [|[k v] t IH]; intros out Hok Hnd.
  - cbn. rewrite app_nil_r. destruct out; reflexivity.
  - cbn [forallb fst] in Hok.
    apply andb_true_iff in Hok. destruct Hok as [Hk Hok].
    apply negb_true_iff in Hk.
    cbn [keys map fst] in Hnd. apply nodup_app_cons in Hnd.
    destruct Hnd as [Hnew Hnd].
    cbn [deserialize_items]. rewrite (item_unknown E out k v Hk). cbn [bind].
    rewrite (set_new k v _ Hnew). rewrite IH.
    + cbn. rewrite <- app_assoc. reflexivity.
    + exact Hok.
    + cbn. rewrite keys_app. exact Hnd.
Qed.

(** X13. An input map none of whose keys starts with a recognized type
    byte comes back whole in [unknown], in its order, every other field at
    its default. *)
Theorem deserialize_keeps_unknown (input_map : Dict) :
  NoDup (keys input_map) ->
  forallb (fun kv : bytes * bytes => negb (recognized (fst kv))) input_map = true ->
  deserialize E input_map false = Ok (set_unknown E input_map (default E)).
Proof.
  intros Hnd Hun. unfold deserialize.
  rewrite (items_unrecognized input_map (default E) Hun Hnd). reflexivity.
Qed.

Lemma for_each_forall {A : Type} (f : A -> result unit) (l : list A) :
  for_each f l = Ok tt -> Forall (fun x => f x = Ok tt) l.
Proof.
  induction l as [|x t IH]; intros H; [constructor|].
  cbn [for_each] in H. apply bind_ok in H. destruct H as ([] & Hx & Ht).
  constructor; [exact Hx|apply IH, Ht].
Qed.

(** X14. What an input map that [assert_valid] accepts is sure of: its
    sighash, if set, is one of [SIGHASHES]; every key of
    [partial_signatures] is read as a point by [point_from_octets] and
    every value as a signature by [dsa.deserialize]; its
    [por_commitment], if set, has an encoding that is not empty; and the
    three validators of [psbt_out] accept its [bip32_derivs],
    [proprietary] and [unknown]. *)
Theorem assert_valid_fields (x : PsbtIn) :
  assert_valid E x = Ok tt ->
  (forall h, sighash x = Some h -> In h (SIGHASHES E)) /\
  (forall k v, In (k, v) (partial_signatures x) ->
     is_ok (point_from_octets E k) = true /\
     is_ok (dsa.deserialize (dsa_env E) (dsa.SigDER (dsa.OBytes v))
              curve.secp256k1) = true) /\
  (forall s, por_commitment x = Some s ->
     exists b, str_encode E s = Ok b /\ b <> []) /\
  _assert_valid_bip32_derivs E (bip32_derivs x) = Ok tt /\
  _assert_valid_proprietary E (proprietary x) = Ok tt /\
  _assert_valid_unknown E (unknown x) = Ok tt.
Proof.
  unfold assert_valid. intros H.
  apply bind_ok in H. destruct H as ([] & _ & H).
  apply bind_ok in H. destruct H as ([] & _ & H).
  apply bind_ok in H. destruct H as ([] & Hsh & H).
  apply bind_ok in H. destruct H as ([] & Hpor & H).
  apply bind_ok in H. destruct H as ([] & Hps & H).
  apply bind_ok in H. destruct H as ([] & Hbip & H).
  apply bind_ok in H. destruct H as ([] & Hprop & H).
  split; [|split; [|split; [|split; [|split]]]]; try assumption.
  - intros h Hh. rewrite Hh in Hsh. unfold assert in Hsh.
    destruct (existsb (Z.eqb h) (SIGHASHES E)) eqn:Hex; [|discriminate].
    apply existsb_exists in Hex. destruct Hex as (h' & Hin & Heq).
    apply Z.eqb_eq in Heq. subst h'. exact Hin.
  - intros k v Hin. unfold _assert_valid_partial_signatures in Hps.
    apply for_each_forall in Hps. rewrite Forall_forall in Hps.
    specialize (Hps (k, v) Hin). cbn [fst snd] in Hps.
    apply bind_ok in Hps. destruct Hps as (P & -> & Hps).
    apply bind_ok in Hps. destruct Hps as (rs & -> & _).
    split; reflexivity.
  - intros s Hs. rewrite Hs in Hpor.
    apply bind_ok in Hpor. destruct Hpor as (b & Hb & Hne).
    exists b. split; [exact Hb|]. intros ->. discriminate.
Qed.

(** X15. The stream [serialize] writes for an input map of the round trip
    is a well-formed map: the records of a list of items in which no key
    is empty and no key comes twice, so that the reader of maps reads
    these items back. *)
Theorem serialize_well_formed (L : EnvLaws E) (x : PsbtIn) (check : bool)
    (stream : bytes) :
  plain E x ->
  serialize E x check = Ok stream ->
  exists items,
    encode_items items = Ok stream /\
    NoDup (keys items) /\ Forall (fun k => k <> []) (keys items) /\
    forall tail, deserialize_map (stream ++ x00 :: tail) = Ok (items, tail).
Proof.
  intros Hplain Hser.
  pose proof Hplain as (_ & _ & _ & _ & _ & _ & Hprop).
  destruct (serialize_items E L x check stream Hprop Hser)
    as (_ & its & Hits & Henc).
  destruct (items_keys E x its Hplain Hits) as [Hnd Hne].
  assert (Hne' : Forall (fun k => k <> []) (keys its)).
  { eapply Forall_impl; [|exact Hne]. cbn. intros k [H _]. exact H. }
  exists its. split; [exact Henc|]. split; [exact Hnd|]. split; [exact Hne'|].
  intros tail. unfold deserialize_map.
  apply (read_map_round_trip its stream tail []); try assumption.
  rewrite length_app. cbn [List.length]. lia.
Qed.

End WithEnv.

End PsbtMoreFacts.

(** ** The properties above on concrete values *)

Module MoreExamples.
Import numbertheory curve dsa.

(** On the curve of order 13: the key 3 and the nonce 2 sign the
    challenge 5 as (10, 11), and as (10, 2) with low-s. *)
Lemma sign_in_range_witness :
  0 < 10 < n ec11_13 /\ 0 < 2 < n ec11_13 /\
  deserialize plain_env (SigTuple 10 2) ec11_13 = Ok (10, 2).
Proof.
  apply (DsaMoreFacts.sign_in_range plain_env 5 3 2 true ec11_13 10 2).
  vm_compute; reflexivity.
Defined.

Lemma sign_low_s_cases_witness :
  exists s0,
    __sign 5 3 2 false ec11_13 = Ok (10, s0) /\
    (2 = s0 \/ 2 = n ec11_13 - s0).
Proof.
  apply (DsaMoreFacts.sign_low_s_cases 5 3 2 ec11_13 10 2).
  vm_compute; reflexivity.
Defined.

Lemma recover_pubkeys_valid_witness :
  exists keys,
    __recover_pubkeys 5 10 11 ec11_13 = Ok keys /\
    Forall (fun QJ => __assert_as_valid 5 QJ 10 11 ec11_13 = Ok tt) keys /\
    (List.length keys <= 2 * Z.to_nat (cofactor ec11_13 + 1))%nat.
Proof.
  pose (keys := match __recover_pubkeys 5 10 11 ec11_13 with
                | Ok l => l
                | Err _ => []
                end).
  assert (H : __recover_pubkeys 5 10 11 ec11_13 = Ok keys)
    by (vm_compute; reflexivity).
  exists keys. split; [exact H|].
  exact (DsaMoreFacts.recover_pubkeys_valid 5 10 11 ec11_13 keys H).
Defined.

Lemma recover_pubkey_first_witness :
  exists Q keys pre rest,
    __recover_pubkey 0 5 10 11 ec11_13 = Ok Q /\
    __recover_pubkeys 5 10 11 ec11_13 = Ok keys /\
    keys = pre ++ Q :: rest /\ Z.of_nat (List.length pre) <= 0.
Proof.
  pose (Q := match __recover_pubkey 0 5 10 11 ec11_13 with
             | Ok P => P
             | Err _ => INFJ
             end).
  pose (keys := match __recover_pubkeys 5 10 11 ec11_13 with
                | Ok l => l
                | Err _ => []
                end).
  assert (HQ : __recover_pubkey 0 5 10 11 ec11_13 = Ok Q)
    by (vm_compute; reflexivity).
  assert (HK : __recover_pubkeys 5 10 11 ec11_13 = Ok keys)
    by (vm_compute; reflexivity).
  destruct (DsaMoreFacts.recover_pubkey_first 0 5 10 11 ec11_13 Q keys
              (or_introl eq_refl) ltac:(vm_compute; discriminate) HQ HK)
    as (pre & rest & Hk & Hl).
  exists Q, keys, pre, rest.
  split; [exact HQ|]. split; [exact HK|]. split; [exact Hk|exact Hl].
Defined.

Lemma sign_verify_ec11_13_witness :
  exists Q : Point,
    gen_keys plain_env (Some 3) 0 ec11_13 = Ok (3, Some Q) /\
    __assert_as_valid 5 (fst Q, snd Q, 1) 10 2 ec11_13 = Ok tt /\
    (true = true -> 2 * 2 <= n ec11_13).
Proof.
  refine (proj2 (DsaMoreFacts.sign_verify_ec11_13 true 5 3 2 _ _ _) 10 2 _).
  - vm_compute; split; [discriminate|reflexivity].
  - vm_compute; split; reflexivity.
  - vm_compute; split; reflexivity.
  - vm_compute; reflexivity.
Defined.

Lemma recover_finds_key_ec11_13_witness :
  exists (Q : Point) (keys : list JacPoint),
    gen_keys plain_env (Some 3) 0 ec11_13 = Ok (3, Some Q) /\
    __recover_pubkeys 5 10 11 ec11_13 = Ok keys /\
    In (Some Q) (map (aff_from_jac ec11_13) keys).
Proof.
  refine (DsaMoreFacts.recover_finds_key_ec11_13 false 5 3 2 10 11 _ _ _ _).
  - vm_compute; split; [discriminate|reflexivity].
  - vm_compute; split; reflexivity.
  - vm_compute; split; reflexivity.
  - vm_compute; reflexivity.
Defined.

Lemma plain_nonce_in_range (c k : Z) :
  rfc6979 plain_env c 3 ec11_13 pad32 = Ok k -> 0 < k < n ec11_13.
Proof.
  cbn [rfc6979 plain_env]. change (n ec11_13) with 13. intros H.
  assert (Hk : k = 1 + (c + 3) mod (13 - 1)) by congruence.
  pose proof (Z.mod_pos_bound (c + 3) (13 - 1) ltac:(lia)). lia.
Qed.

Lemma pad32_size (b : bytes) :
  Z.of_nat (List.length (digest pad32 b)) = digest_size pad32.
Proof.
  cbn [digest digest_size pad32]. rewrite length_firstn, length_app, repeat_length.
  lia.
Qed.

(** The message of the byte 05, signed by the key 3 and verified with its
    public key. *)
Lemma sign_then_verify_ec11_13_witness :
  exists (Q : Point) (r s : Z),
    gen_keys plain_env (Some 3) 0 ec11_13 = Ok (3, Some Q) /\
    sign plain_env (PyBytes [x05]) 3 true ec11_13 pad32 = Ok (r, s) /\
    verify plain_env (PyBytes [x05]) Q (SigTuple r s) ec11_13 pad32 = Ok true.
Proof.
  pose (Q := match gen_keys plain_env (Some 3) 0 ec11_13 with
             | Ok (_, Some P) => P
             | _ => (0, 0)
             end).
  pose (rs := match sign plain_env (PyBytes [x05]) 3 true ec11_13 pad32 with
              | Ok p => p
              | Err _ => (0, 0)
              end).
  assert (HQ : gen_keys plain_env (Some 3) 0 ec11_13 = Ok (3, Some Q))
    by (vm_compute; reflexivity).
  assert (HS : sign plain_env (PyBytes [x05]) 3 true ec11_13 pad32 = Ok (fst rs, snd rs))
    by (vm_compute; reflexivity).
  exists Q, (fst rs), (snd rs). split; [exact HQ|]. split; [exact HS|].
  apply (DsaMoreFacts.sign_then_verify_ec11_13 plain_env pad32 (PyBytes [x05]) 3 Q true
           3 Q (fst rs) (snd rs) pad32_size plain_nonce_in_range).
  - vm_compute; split; reflexivity.
  - exact HQ.
  - reflexivity.
  - exact HS.
Defined.

(** An output of 5000 satoshis with the script [51]. *)
Lemma txout_serialize_deserialize_witness :
  TxOut.serialize (TxOut.mk 5000 [x51]) true = Ok TxOut.example_stream /\
  TxOut.deserialize (TxOut.example_stream ++ [xff; xff]) true
  = Ok (TxOut.mk 5000 [x51]).
Proof.
  assert (H : TxOut.serialize (TxOut.mk 5000 [x51]) true
              = Ok TxOut.example_stream) by (vm_compute; reflexivity).
  split; [exact H|].
  exact (TxOutMoreFacts.serialize_deserialize (TxOut.mk 5000 [x51]) true
           TxOut.example_stream [xff; xff] H).
Defined.

Lemma txout_serialize_accepts_witness :
  exists msg,
    TxOut.serialize (TxOut.mk (-1) [x51]) false
    = Err (Raise PyOverflowError msg).
Proof.
  refine (proj2 (proj2 (proj2
            (TxOutMoreFacts.serialize_accepts (TxOut.mk (-1) [x51]) _))) _).
  - vm_compute; reflexivity.
  - cbn [TxOut.value]. lia.
Defined.

Lemma btc_from_sats_bounds_witness :
  exists d,
    amount.btc_from_sats 10000 = Ok d /\
    amount.exact_sats d = Some 10000 /\ amount.stripped d = true.
Proof.
  refine (proj1 (AmountMoreFacts.btc_from_sats_bounds 10000) _).
  vm_compute; discriminate.
Defined.

Lemma sats_from_btc_out_of_range_witness :
  exists msg,
    amount.sats_from_btc (amount.AStr "21000000")
    = Err (Raise BTClibValueError msg).
Proof.
  refine (proj1 (AmountMoreFacts.sats_from_btc_out_of_range
                   (amount.AStr "21000000")) false 21000000%N 0 _ _ _ _).
  - vm_compute; reflexivity.
  - vm_compute; reflexivity.
  - vm_compute; split; discriminate.
  - vm_compute; reflexivity.
Defined.

Lemma sats_from_btc_too_many_decimals_witness :
  amount.sats_from_btc (amount.AStr "0.123456789")
  = Err (Raise BTClibValueError "too many decimals for a BTC amount").
Proof.
  refine (AmountMoreFacts.sats_from_btc_too_many_decimals
            (amount.AStr "0.123456789") false 123456789%N (-9) _ _ _ _ _).
  - vm_compute; reflexivity.
  - vm_compute; reflexivity.
  - vm_compute; discriminate.
  - vm_compute; discriminate.
  - vm_compute; reflexivity.
Defined.

End MoreExamples.

Module PsbtMoreExamples.
Import dict wire psbt_in.

(** A redeem-script key with one byte too many. *)
Lemma deserialize_rejects_malformed_witness :
  exists e, deserialize plain_env [([x04; x00], [xab])] true = Err e.
Proof.
  apply (PsbtMoreFacts.deserialize_rejects_malformed plain_env
           [([x04; x00], [xab])] true).
  reflexivity.
Defined.

Lemma deserialize_keeps_unknown_witness :
  deserialize plain_env [([xf0; x01], [xff]); ([], [x00])] false
  = Ok (set_unknown plain_env [([xf0; x01], [xff]); ([], [x00])]
          (default plain_env)).
Proof.
  apply (PsbtMoreFacts.deserialize_keeps_unknown plain_env
           [([xf0; x01], [xff]); ([], [x00])]).
  - cbn [keys map fst]. constructor.
    + intros [H|[]]; discriminate.
    + constructor; [intros []|constructor].
  - reflexivity.
Defined.

Lemma full_input_valid : assert_valid plain_env full_input = Ok tt.
Proof.
  vm_compute; reflexivity.
Qed.

Lemma assert_valid_fields_witness :
  In 1 (SIGHASHES plain_env) /\
  is_ok (point_from_octets plain_env key33) = true.
Proof.
  pose proof (PsbtMoreFacts.assert_valid_fields plain_env full_input
                full_input_valid) as (Hsh & Hps & _).
  split.
  - exact (Hsh 1 eq_refl).
  - exact (proj1 (Hps key33 [x30; x00] (or_introl eq_refl))).
Defined.

Lemma serialize_well_formed_witness :
  exists stream items,
    serialize plain_env full_input true = Ok stream /\
    encode_items items = Ok stream /\
    NoDup (keys items) /\ Forall (fun k => k <> []) (keys items) /\
    forall tail, deserialize_map (stream ++ x00 :: tail) = Ok (items, tail).
Proof.
  pose (stream := match serialize plain_env full_input true with
                  | Ok s => s
                  | Err _ => []
                  end).
  assert (Hs : serialize plain_env full_input true = Ok stream)
    by (vm_compute; reflexivity).
  destruct (PsbtMoreFacts.serialize_well_formed plain_env
              PsbtExamples.plain_env_laws full_input true stream
              PsbtExamples.full_input_plain Hs) as (items & H).
  exists stream, items. split; [exact Hs|exact H].
Defined.

End PsbtMoreExamples.
